(** * Keras dtype promotion and dtype-policy resolution

    A shallow embedding of [keras/backend/common/dtypes.py] and of
    [keras/dtype_policies/__init__.py].

    Dtype names are Python [str] values and are kept as [string].  Python
    sets are kept as duplicate-free lists: the iteration order of a Python
    set is unspecified, and the order chosen here (first occurrence) is only
    visible in the payload of error values, never in a returned dtype.
    Python dicts are association lists in insertion order.  Every [raise]
    becomes an [Error] carrying the exception. *)

From Stdlib Require Import String Ascii List Bool Arith Lia Permutation.
Import ListNotations.
Local Open Scope string_scope.
Local Open Scope list_scope.

(** ** Exceptions and the error monad *)

(** The Python code raises [ValueError] with distinct messages; the
    constructors name the message, following the error taxonomy of the
    specification.  [KeyError], [TypeError] and [StopIteration] are the
    built-in exceptions a dict lookup, [set.intersection()] without
    arguments and [next] on an exhausted generator raise. *)
Inductive exn : Type :=
| CycleDetected (node : string)
    (* "cycle detected in type promotion lattice for node {n}" *)
| UnknownDtype (dtype : string)
    (* "{dtype=} is not a valid dtype for Keras type promotion." *)
| NoPromotionPath (nodes : list string)
    (* "Input dtypes {nodes} have no available implicit dtype promotion path" *)
| IllFormedLattice (nodes : list string) (options : list string)
    (* "Internal Type Promotion error: ... options are {LUB}" *)
| InvalidDtype (dtype : string)
    (* "Invalid value for argument `dtype`. ... Received: dtype={dtype}" *)
| InvalidArgument (received : string)
    (* "Invalid value for argument `precision`" and the like *)
| UnpackError
    (* ValueError of a tuple unpacking of the wrong length *)
| KeyError (key : string)
| TypeError
| StopIteration
| OutOfFuel.
    (* not a Python exception: the bounded model of [while True] gave up *)

Inductive result (A : Type) : Type :=
| Ok (a : A)
| Error (e : exn).
Arguments Ok {A} a.
Arguments Error {A} e.

Definition bind {A B : Type} (r : result A) (k : A -> result B) : result B :=
  match r with
  | Ok a => k a
  | Error e => Error e
  end.

Notation "x <- r ;; k" := (bind r (fun x => k))
  (at level 61, r at next level, right associativity).

Fixpoint mapM {A B : Type} (f : A -> result B) (l : list A) : result (list B) :=
  match l with
  | [] => Ok []
  | a :: l' => b <- f a ;; bs <- mapM f l' ;; Ok (b :: bs)
  end.

Fixpoint filterM {A : Type} (f : A -> result bool) (l : list A) : result (list A) :=
  match l with
  | [] => Ok []
  | a :: l' =>
      keep <- f a ;; rest <- filterM f l' ;;
      Ok (if keep then a :: rest else rest)
  end.

(** ** Python strings *)

Module PyStr.

(** [sub in s] for two [str] values. *)
Fixpoint contains (sub s : string) : bool :=
  if String.prefix sub s then true
  else match s with
       | EmptyString => false
       | String _ s' => contains sub s'
       end.

(** [s[:1]] *)
Definition first1 (s : string) : string := String.substring 0 1 s.

(** [s[-2:]] *)
Definition last2 (s : string) : string :=
  String.substring (String.length s - 2) 2 s.

End PyStr.

(** ** Python sets of strings, as duplicate-free lists *)

Module PySet.

Definition mem (x : string) (s : list string) : bool :=
  existsb (String.eqb x) s.

Definition add (x : string) (s : list string) : list string :=
  if mem x s then s else s ++ [x].

(** [set(l)] *)
Definition of_list (l : list string) : list string :=
  fold_left (fun s x => add x s) l [].

(** [s | t] *)
Definition union (s t : list string) : list string :=
  fold_left (fun s x => add x s) t s.

(** [s & t] *)
Definition inter (s t : list string) : list string :=
  filter (fun x => mem x t) s.

(** [s.issubset(t)] *)
Definition issubset (s t : list string) : bool :=
  forallb (fun x => mem x t) s.

End PySet.

(** ** Python dicts with string keys, as association lists *)

Module PyDict.

Definition t (V : Type) : Type := list (string * V).

Fixpoint lookup {V : Type} (k : string) (d : t V) : option V :=
  match d with
  | [] => None
  | (k', v) :: d' => if String.eqb k k' then Some v else lookup k d'
  end.

(** [d[k]] *)
Definition getitem {V : Type} (d : t V) (k : string) : result V :=
  match lookup k d with
  | Some v => Ok v
  | None => Error (KeyError k)
  end.

(** [k in d] *)
Definition has_key {V : Type} (k : string) (d : t V) : bool :=
  match lookup k d with Some _ => true | None => false end.

(** [d[k] = v] : an existing key keeps its position. *)
Fixpoint setitem {V : Type} (k : string) (v : V) (d : t V) : t V :=
  match d with
  | [] => [(k, v)]
  | (k', v') :: d' =>
      if String.eqb k k' then (k, v) :: d' else (k', v') :: setitem k v d'
  end.

(** Iteration over a dict yields its keys in insertion order; dicts are
    only built with [setitem], which keeps one entry per key. *)
Definition keys {V : Type} (d : t V) : list string := map fst d.

End PyDict.

(** ** keras/backend/common/dtypes.py *)

Module Dtypes.

Definition BOOL_TYPES : list string := ["bool"].
Definition INT_TYPES : list string :=
  ["uint8"; "uint16"; "uint32"; "uint64"; "int8"; "int16"; "int32"; "int64"].
Definition FLOAT_TYPES : list string :=
  ["bfloat16"; "float16"; "float32"; "float64"].
Definition COMPLEX_TYPES : list string := ["complex64"; "complex128"].
Definition WEAK_TYPES : list string := ["int"; "float"; "complex"].

(** A dict literal: a key written twice keeps its first position and its
    last value. *)
Definition dict_literal {V : Type} (items : list (string * V)) : PyDict.t V :=
  fold_left (fun d kv => PyDict.setitem (fst kv) (snd kv) d) items [].

(** The tuple unpackings at the head of the function raise when a
    vocabulary list has the wrong length. *)
Definition _type_promotion_lattice : result (PyDict.t (list string)) :=
  match BOOL_TYPES, INT_TYPES, FLOAT_TYPES, COMPLEX_TYPES, WEAK_TYPES with
  | [b1], [u1; u2; u4; u8; i1; i2; i4; i8], [bf; f2; f4; f8], [c4; c8],
    [i_; f_; c_] =>
      Ok (dict_literal
            [ (b1, [i_]);
              (u1, [i2; u2]);
              (u2, [i4; u4]);
              (u4, [i8; u8]);
              (u8, [f_]);
              (i_, [u1; i1]);
              (i1, [i2]);
              (i2, [i4]);
              (i4, [i8]);
              (i8, [f_]);
              (f_, [bf; f2; c_]);
              (bf, [f4]);
              (f2, [f4]);
              (f4, [f8; c4]);
              (f8, [c8]);
              (c_, [c4]);
              (c4, [c8]);
              (c8, []) ])
  | _, _, _, _, _ => Error UnpackError
  end.

(** The union [set().union(...)] of the covers [lattice[b]] for [b] in [bs],
    taken in the order of [bs]. *)
Fixpoint union_of_covers (lattice : PyDict.t (list string))
    (acc bs : list string) : result (list string) :=
  match bs with
  | [] => Ok acc
  | b :: bs' =>
      cover <- PyDict.getitem lattice b ;;
      union_of_covers lattice (PySet.union acc cover) bs'
  end.

(** The [while True] loop for one node [n]; [ub] is [upper_bounds[n]],
    the only entry the loop reads or updates. *)
Fixpoint closure_loop (fuel : nat) (lattice : PyDict.t (list string))
    (n : string) (ub : list string) : result (list string) :=
  match fuel with
  | O => Error OutOfFuel
  | S fuel' =>
      new_upper_bounds <- union_of_covers lattice [] ub ;;
      if PySet.mem n new_upper_bounds then Error (CycleDetected n)
      else if PySet.issubset new_upper_bounds ub then Ok ub
      else closure_loop fuel' lattice n (PySet.union ub new_upper_bounds)
  end.

(** [for n in lattice: ...], threading the dict [upper_bounds]. *)
Fixpoint closure_each (fuel : nat) (lattice : PyDict.t (list string))
    (todo : list string) (upper_bounds : PyDict.t (list string))
    : result (PyDict.t (list string)) :=
  match todo with
  | [] => Ok upper_bounds
  | n :: todo' =>
      ub <- PyDict.getitem upper_bounds n ;;
      ub' <- closure_loop fuel lattice n ub ;;
      closure_each fuel lattice todo' (PyDict.setitem n ub' upper_bounds)
  end.

(** The body of [_make_lattice_upper_bounds] below its first line.  Every
    turn of the loop that does not leave it adds a node to
    [upper_bounds[n]], and a node that is not a key of [lattice] raises
    [KeyError] on the next turn, so one turn per entry and one more is
    enough fuel, see [upper_bounds_of_total]. *)
Definition upper_bounds_of (lattice : PyDict.t (list string))
    : result (PyDict.t (list string)) :=
  let upper_bounds :=
    dict_literal (map (fun node => (node, [node])) (PyDict.keys lattice)) in
  closure_each (S (List.length lattice)) lattice (PyDict.keys lattice)
    upper_bounds.

Definition _make_lattice_upper_bounds : result (PyDict.t (list string)) :=
  lattice <- _type_promotion_lattice ;;
  upper_bounds_of lattice.

(** The module constant: the import of the module fails when the builder
    raises, see [LATTICE_UPPER_BOUNDS_built]. *)
Definition LATTICE_UPPER_BOUNDS : PyDict.t (list string) :=
  match _make_lattice_upper_bounds with
  | Ok upper_bounds => upper_bounds
  | Error _ => []
  end.

(** The final [if len(LUB) == 1: ... elif len(LUB) == 0: ... else: ...]. *)
Definition pop_unique (nodes LUB : list string) : result string :=
  match LUB with
  | [lub] => Ok lub
  | [] => Error (NoPromotionPath nodes)
  | _ => Error (IllFormedLattice nodes LUB)
  end.

(** [_least_upper_bound( *nodes )].  The [except KeyError] branch names the
    first node of [N], in the iteration order of the set, that has no
    entry in [UB]. *)
Definition _least_upper_bound (nodes : list string) : result string :=
  let N := PySet.of_list nodes in
  let UB := LATTICE_UPPER_BOUNDS in
  match mapM (PyDict.getitem UB) N with
  | Error _ =>
      match find (fun n => negb (PyDict.has_key n UB)) N with
      | Some dtype => Error (UnknownDtype dtype)
      | None => Error StopIteration
      end
  | Ok [] => Error TypeError
  | Ok (b :: bounds) =>
      let CUB := fold_left PySet.inter bounds b in
      LUB <-
        (match PySet.inter CUB N with
         | [] =>
             filterM (fun c => ub <- PyDict.getitem UB c ;;
                               Ok (PySet.issubset CUB ub)) CUB
         | both => Ok both
         end) ;;
      pop_unique nodes LUB
  end.

(** The same body with what it reads from outside as parameters: the
    table [UB], a module global, and the order in which [set(nodes)] is
    iterated, which Python leaves to the hashes of the strings.
    [_least_upper_bound] is its value at [PySet.of_list] and
    [LATTICE_UPPER_BOUNDS]. *)
Definition least_upper_bound_over (set_of : list string -> list string)
    (UB : PyDict.t (list string)) (nodes : list string) : result string :=
  let N := set_of nodes in
  match mapM (PyDict.getitem UB) N with
  | Error _ =>
      match find (fun n => negb (PyDict.has_key n UB)) N with
      | Some dtype => Error (UnknownDtype dtype)
      | None => Error StopIteration
      end
  | Ok [] => Error TypeError
  | Ok (b :: bounds) =>
      let CUB := fold_left PySet.inter bounds b in
      LUB <-
        (match PySet.inter CUB N with
         | [] =>
             filterM (fun c => ub <- PyDict.getitem UB c ;;
                               Ok (PySet.issubset CUB ub)) CUB
         | both => Ok both
         end) ;;
      pop_unique nodes LUB
  end.

(** [_respect_weak_type(dtype, weak_type)] *)
Definition _respect_weak_type (dtype : string) (weak_type : bool)
    : result string :=
  if weak_type then
    if String.eqb dtype "bool" then Ok dtype
    else if PyStr.contains "float" dtype then Ok "float"
    else if PyStr.contains "int" dtype then Ok "int"
    else Error (InvalidDtype dtype)
  else Ok dtype.

(** Modelled from the spec: [ALLOWED_DTYPES] is imported from
    [keras.backend.common.variables], which is not part of the sources at
    hand.  The specification's vocabulary of concrete dtype names is the
    boolean, the unsigned and signed integers of widths 8 to 64, the
    floating-point names and the two complex names. *)
Definition ALLOWED_DTYPES : list string :=
  BOOL_TYPES ++ INT_TYPES ++ FLOAT_TYPES ++ COMPLEX_TYPES.

(** [_resolve_weak_type(dtype, precision)].  Both checks raise
    [ValueError]; the specification files both under [InvalidArgument]. *)
Definition _resolve_weak_type (dtype precision : string) : result string :=
  let extended_allowed_dtypes := PySet.union ALLOWED_DTYPES WEAK_TYPES in
  if negb (PySet.mem dtype extended_allowed_dtypes) then
    Error (InvalidArgument dtype)
  else if negb (PySet.mem precision ["16"; "32"; "64"]) then
    Error (InvalidArgument precision)
  else
    let dtype_indicator :=
      if String.eqb dtype "bfloat16" then "f" else PyStr.first1 dtype in
    if String.eqb dtype_indicator "b" then Ok "bool"
    else if String.eqb dtype_indicator "i" then Ok ("int" ++ precision)%string
    else if String.eqb dtype_indicator "u" then Ok ("uint" ++ precision)%string
    else Ok ("float" ++ precision)%string.

Definition BIT64_TO_BIT16_DTYPE : PyDict.t string :=
  dict_literal
    [ ("int32", "int16");
      ("int64", "int16");
      ("uint32", "uint16");
      ("uint64", "uint16");
      ("float32", "float16");
      ("float64", "float16") ].

Definition BIT64_TO_BIT32_DTYPE : PyDict.t string :=
  dict_literal
    [ ("int64", "int32");
      ("uint64", "uint32");
      ("float64", "float32");
      ("complex128", "complex64") ].

(** The values [result_type] is called with: [None], the Python scalar
    types [int] and [float] themselves, and any other dtype-like value (a
    [str], a NumPy or backend dtype), kept as the name it denotes. *)
Inductive dtype_like : Type :=
| PyNone
| PyInt
| PyFloat
| Named (name : string).

Section Ambient.

(** [backend.floatx()], the process-wide default float dtype. *)
Variable floatx : string.

(** What the backend in use standardizes the Python scalar types [int]
    and [float] to. *)
Variable python_int python_float : string.

(** Modelled from the spec: [standardize_dtype] is imported from
    [keras.backend.common.variables], which is not part of the sources
    at hand.  It normalizes a dtype-like value into the vocabulary and
    fails with [InvalidDtype] for anything else. *)
Definition standardize_dtype (value : dtype_like) : result string :=
  let dtype :=
    match value with
    | PyNone => floatx
    | PyInt => python_int
    | PyFloat => python_float
    | Named name => name
    end in
  if PySet.mem dtype ALLOWED_DTYPES then Ok dtype
  else Error (InvalidDtype dtype).

(** [value is int or value is float] *)
Definition is_python_scalar_type (value : dtype_like) : bool :=
  match value with
  | PyInt | PyFloat => true
  | _ => false
  end.

Definition _dtype_and_weaktype (value : dtype_like)
    : result (string * bool) :=
  let is_weak_type := is_python_scalar_type value in
  dtype <- standardize_dtype value ;;
  Ok (dtype, is_weak_type).

(** [all(l)] and [any(l)] *)
Definition all (l : list bool) : bool := forallb (fun b => b) l.
Definition any (l : list bool) : bool := existsb (fun b => b) l.

(** The body of [_lattice_result_type] below its first line, on the
    zipped [(dtype, weak_type)] pairs; unpacking no pair at all raises.
    [out_dtype is t] compares interned constants of the module, for which
    identity and equality agree. *)
Definition promote_pairs (pairs : list (string * bool)) : result string :=
  match pairs with
  | [] => Error UnpackError
  | (dtype0, weak_type0) :: _ =>
      let dtypes := map fst pairs in
      let weak_types := map snd pairs in
      out <-
        (if Nat.eqb (List.length dtypes) 1 then Ok (dtype0, weak_type0)
         else if Nat.eqb (List.length (PySet.of_list dtypes)) 1
                 && negb (all weak_types)
         then Ok (dtype0, false)
         else if all weak_types then
           nodes <- mapM (fun d => _respect_weak_type d false) dtypes ;;
           out_dtype <- _least_upper_bound (PySet.of_list nodes) ;;
           Ok (out_dtype, true)
         else
           nodes <- mapM (fun dw => _respect_weak_type (fst dw) (snd dw))
                      pairs ;;
           out_dtype <- _least_upper_bound (PySet.of_list nodes) ;;
           Ok (out_dtype, any (map (String.eqb out_dtype) WEAK_TYPES))) ;;
      let out_dtype := fst out in
      let out_weak_type := negb (String.eqb out_dtype "bool") && snd out in
      let precision := PyStr.last2 floatx in
      if out_weak_type then _resolve_weak_type out_dtype precision
      else Ok out_dtype
  end.

Definition _lattice_result_type (args : list dtype_like) : result string :=
  pairs <- mapM _dtype_and_weaktype args ;;
  promote_pairs pairs.

Definition result_type (dtypes : list dtype_like) : result string :=
  if Nat.eqb (List.length dtypes) 0 then Ok floatx
  else
    _lattice_result_type
      (map (fun arg => match arg with
                       | PyNone => Named floatx
                       | _ => arg
                       end) dtypes).

End Ambient.

End Dtypes.

(** ** keras/dtype_policies/__init__.py *)

Module DtypePolicies.

Section Get.

(** Instances of [FloatDTypePolicy] or [QuantizedDTypePolicy], dicts,
    values that are none of [None], a policy, a dict or a [str], and
    the exceptions the collaborators raise. *)
Variables policy config other exc : Type.

Inductive identifier : Type :=
| IdNone
| IdPolicy (p : policy)
| IdDict (d : config)
| IdStr (s : string)
| IdOther (v : other).

Inductive outcome : Type :=
| Returns (p : policy)
| Raises (e : exc)
    (* an exception of a collaborator, passed on *)
| CannotInterpret (received : identifier).
    (* ValueError "Cannot interpret `dtype` argument. ... Received:
       dtype={identifier}", the specification's InvalidArgument *)

(** [dtype_policy.dtype_policy()], the process-wide default policy. *)
Variable dtype_policy : policy.
(** [serialization_lib.deserialize_keras_object] *)
Variable deserialize_keras_object : config -> exc + policy.
(** The two constructors, which validate their argument. *)
Variable FloatDTypePolicy QuantizedDTypePolicy : string -> exc + policy.
(** [backend.standardize_dtype] on the remaining values. *)
Variable standardize_dtype : other -> exc + string.

Definition call (r : exc + policy) : outcome :=
  match r with
  | inr p => Returns p
  | inl e => Raises e
  end.

Definition get (id : identifier) : outcome :=
  match id with
  | IdNone => Returns dtype_policy
  | IdPolicy p => Returns p
  | IdDict d => call (deserialize_keras_object d)
  | IdStr s =>
      if PyStr.contains "int8" s then call (QuantizedDTypePolicy s)
      else call (FloatDTypePolicy s)
  | IdOther v =>
      (* try: ... except: raise ValueError(...) *)
      match standardize_dtype v with
      | inr name =>
          match FloatDTypePolicy name with
          | inr p => Returns p
          | inl _ => CannotInterpret id
          end
      | inl _ => CannotInterpret id
      end
  end.

End Get.

Arguments IdNone {policy config other}.
Arguments IdPolicy {policy config other} p.
Arguments IdDict {policy config other} d.
Arguments IdStr {policy config other} s.
Arguments IdOther {policy config other} v.
Arguments Returns {policy config other exc} p.
Arguments Raises {policy config other exc} e.
Arguments CannotInterpret {policy config other exc} received.
Arguments call {policy config other exc} r.
Arguments get {policy config other exc} dtype_policy
  deserialize_keras_object FloatDTypePolicy QuantizedDTypePolicy
  standardize_dtype id.

End DtypePolicies.

(** * Specification-side definitions *)

Import Dtypes.

(** The covering edges as the specification lists them. *)
Definition spec_covering_edges : list (string * list string) :=
  [ ("bool", ["int"]);
    ("uint8", ["int16"; "uint16"]);
    ("uint16", ["int32"; "uint32"]);
    ("uint32", ["int64"; "uint64"]);
    ("uint64", ["float"]);
    ("int", ["uint8"; "int8"]);
    ("int8", ["int16"]);
    ("int16", ["int32"]);
    ("int32", ["int64"]);
    ("int64", ["float"]);
    ("float", ["bfloat16"; "float16"; "complex"]);
    ("bfloat16", ["float32"]);
    ("float16", ["float32"]);
    ("float32", ["float64"; "complex64"]);
    ("float64", ["complex128"]);
    ("complex", ["complex64"]);
    ("complex64", ["complex128"]);
    ("complex128", []) ].

(** The entry of [n] in a table of sets, empty when there is none. *)
Definition lookup_or_empty (d : PyDict.t (list string)) (n : string)
    : list string :=
  match PyDict.lookup n d with
  | Some v => v
  | None => []
  end.

(** [UpperBoundClosure(n)]: the entry of [n] in [LATTICE_UPPER_BOUNDS]. *)
Definition closure_of (n : string) : list string :=
  lookup_or_empty LATTICE_UPPER_BOUNDS n.
Arguments LATTICE_UPPER_BOUNDS : simpl never.
Arguments closure_of : simpl never.

(** [a] is a common upper bound of [nodes]. *)
Definition is_cub (nodes : list string) (a : string) : Prop :=
  forall n, In n nodes -> In a (closure_of n).

(** [c] is a common upper bound below every common upper bound. *)
Definition is_candidate (nodes : list string) (c : string) : Prop :=
  is_cub nodes c /\ forall d, is_cub nodes d -> In d (closure_of c).

(** The same two notions over any table of sets. *)
Definition is_cub_in (UB : PyDict.t (list string)) (nodes : list string)
    (a : string) : Prop :=
  forall n, In n nodes -> In a (lookup_or_empty UB n).

Definition is_candidate_in (UB : PyDict.t (list string))
    (nodes : list string) (c : string) : Prop :=
  is_cub_in UB nodes c
  /\ forall d, is_cub_in UB nodes d -> In d (lookup_or_empty UB c).

(** The members of the set [LUB] of the function: the input nodes that are
    common upper bounds when there are any, the candidates otherwise. *)
Definition in_lub (UB : PyDict.t (list string)) (nodes : list string)
    (x : string) : Prop :=
  (is_cub_in UB nodes x /\ In x nodes)
  \/ ((forall n, In n nodes -> ~ is_cub_in UB nodes n)
      /\ is_candidate_in UB nodes x).

(** [k] turns of the closure loop of node [n] lead from [ub] to [ub']
    without leaving the loop. *)
Inductive turns (lattice : PyDict.t (list string)) (n : string)
    : nat -> list string -> list string -> Prop :=
| turns_none ub : turns lattice n 0 ub ub
| turns_more k ub new ub' :
    union_of_covers lattice [] ub = Ok new ->
    PySet.mem n new = false ->
    PySet.issubset new ub = false ->
    turns lattice n k (PySet.union ub new) ub' ->
    turns lattice n (S k) ub ub'.

(** Two runs end alike: the same value, or exceptions of the same kind
    (the payload of an exception may list the inputs in their order). *)
Definition same_kind (e e' : exn) : Prop :=
  match e, e' with
  | CycleDetected _, CycleDetected _
  | UnknownDtype _, UnknownDtype _
  | NoPromotionPath _, NoPromotionPath _
  | IllFormedLattice _ _, IllFormedLattice _ _
  | InvalidDtype _, InvalidDtype _
  | InvalidArgument _, InvalidArgument _
  | UnpackError, UnpackError
  | KeyError _, KeyError _
  | TypeError, TypeError
  | StopIteration, StopIteration
  | OutOfFuel, OutOfFuel => True
  | _, _ => False
  end.

Definition same_outcome {A : Type} (r r' : result A) : Prop :=
  match r, r' with
  | Ok a, Ok a' => a = a'
  | Error e, Error e' => same_kind e e'
  | _, _ => False
  end.

(** [mapM] over a permuted list: the values permuted, or two exceptions,
    each raised by [f] on some element. *)
Definition perm_related {A B : Type} (f : A -> result B)
    (r r' : result (list B)) : Prop :=
  match r, r' with
  | Ok bs, Ok bs' => Permutation bs bs'
  | Error e, Error e' =>
      (exists a, f a = Error e) /\ (exists a', f a' = Error e')
  | _, _ => False
  end.

(** The two phases of the specification for inputs that are all weak: the
    least upper bound of the dtypes as they are, then the weak flag, which
    a boolean result drops and any other result resolves at the precision
    of the ambient default float dtype. *)
Definition all_weak_two_phase (floatx python_int python_float : string)
    (args : list dtype_like) : result string :=
  pairs <- mapM (_dtype_and_weaktype floatx python_int python_float) args ;;
  lub <- _least_upper_bound (PySet.of_list (map fst pairs)) ;;
  if String.eqb lub "bool" then Ok lub
  else _resolve_weak_type lub (PyStr.last2 floatx).

(** Every key of the table is a name of the vocabulary. *)
Definition keys_check (UB : PyDict.t (list string)) : bool :=
  forallb (fun entry => PySet.mem (fst entry) (ALLOWED_DTYPES ++ WEAK_TYPES))
    UB.

(** Every set of the table is duplicate-free and not empty. *)
Definition proper_sets (upper_bounds : PyDict.t (list string)) : Prop :=
  forall n ub,
    PyDict.lookup n upper_bounds = Some ub -> NoDup ub /\ ub <> [].

(** Decidable forms of the closure invariants, run on the built tables. *)
(** Every entry holds its own node and, for each cover [m] of the node in
    [lattice], the whole entry of [m], which does not hold the node. *)
Definition closure_check (lattice UB : PyDict.t (list string)) : bool :=
  forallb
    (fun entry =>
       let n := fst entry in
       PyDict.has_key n UB
       && PySet.mem n (lookup_or_empty UB n)
       && forallb
            (fun m =>
               PyDict.has_key m UB
               && PySet.issubset (n :: lookup_or_empty UB m)
                    (lookup_or_empty UB n)
               && negb (PySet.mem n (lookup_or_empty UB m)))
            (snd entry))
    lattice.

(** Every node of every entry is a key, no entry has a duplicate, and two
    distinct nodes are never in the entry of each other. *)
Fixpoint nodupb (l : list string) : bool :=
  match l with
  | [] => true
  | x :: l' => negb (PySet.mem x l') && nodupb l'
  end.

Definition table_check (UB : PyDict.t (list string)) : bool :=
  forallb
    (fun entry =>
       nodupb (snd entry)
       && forallb
            (fun d =>
               PyDict.has_key d UB
               && (String.eqb d (fst entry)
                   || negb (PySet.mem (fst entry) (lookup_or_empty UB d))))
            (snd entry))
    UB.

(** Further decidable checks of the built table: every node is in its own
    set, the set of a member of a set is included in that set, and any two
    nodes have a least upper bound. *)
Definition refl_check (UB : PyDict.t (list string)) : bool :=
  forallb (fun entry => PySet.mem (fst entry) (snd entry)) UB.

Definition trans_check (UB : PyDict.t (list string)) : bool :=
  forallb
    (fun entry =>
       forallb (fun c => PySet.issubset (lookup_or_empty UB c) (snd entry))
         (snd entry))
    UB.

Definition is_ok {A : Type} (r : result A) : bool :=
  match r with
  | Ok _ => true
  | Error _ => false
  end.

Definition join_check (UB : PyDict.t (list string)) : bool :=
  forallb
    (fun a =>
       forallb (fun b => is_ok (_least_upper_bound [a; b])) (PyDict.keys UB))
    (PyDict.keys UB).

(** A node has an entry in the closure table. *)
Definition known (n : string) : Prop :=
  PyDict.has_key n LATTICE_UPPER_BOUNDS = true.

(** [d] is reached from [n] along the covers of [lattice]. *)
Inductive reaches (lattice : PyDict.t (list string)) (n : string)
    : string -> Prop :=
| reaches_self : reaches lattice n n
| reaches_cover m cover d :
    reaches lattice n m ->
    PyDict.lookup m lattice = Some cover ->
    In d cover ->
    reaches lattice n d.

(** [n] is reached from itself along at least one cover. *)
Definition on_cycle (lattice : PyDict.t (list string)) (n : string) : Prop :=
  exists m cover,
    reaches lattice n m /\ PyDict.lookup m lattice = Some cover
    /\ In n cover.

(** [k] is a cover reached from [n] that has no entry of its own. *)
Definition dangling (lattice : PyDict.t (list string)) (n k : string)
    : Prop :=
  reaches lattice n k /\ PyDict.lookup k lattice = None.

(** The precisions [_resolve_weak_type] accepts. *)
Definition precisions : list string := ["16"; "32"; "64"].

(** The lattice node [result_type] gives to an input: its dtype, or the
    weak category of its dtype when the input is weak. *)
Definition node_of (floatx python_int python_float : string)
    (arg : dtype_like) : result string :=
  dw <- _dtype_and_weaktype floatx python_int python_float arg ;;
  _respect_weak_type (fst dw) (snd dw).

(** Decidable facts on the weak categories, run on the built table: the
    weak category of an integer or floating-point name is "int" or
    "float" and has the name in its closure, as it has whatever a member
    of the closure of the name resolves to, and no such member is "bool". *)
Definition weak_check : bool :=
  forallb
    (fun d =>
       match _respect_weak_type d true with
       | Ok w =>
           (String.eqb w "int" || String.eqb w "float")
           && PySet.mem d (closure_of w)
           && forallb
                (fun c =>
                   negb (String.eqb c "bool")
                   && forallb
                        (fun p =>
                           match _resolve_weak_type c p with
                           | Ok r => PySet.mem r (closure_of w)
                           | Error _ => false
                           end)
                        precisions)
                (closure_of d)
       | Error _ => false
       end)
    (INT_TYPES ++ FLOAT_TYPES).

(** The weak int and the weak float resolve to a member of their closure. *)
Definition weak_resolve_check : bool :=
  forallb
    (fun c =>
       forallb
         (fun p =>
            match _resolve_weak_type c p with
            | Ok r => PySet.mem r (closure_of c)
            | Error _ => false
            end)
         precisions)
    ["int"; "float"].

(** A node other than "complex" with "complex" in its closure has "float"
    in it, and "float" is not in the closure of "complex". *)
Definition complex_check : bool :=
  forallb
    (fun entry =>
       String.eqb (fst entry) "complex"
       || negb (PySet.mem "complex" (snd entry))
       || PySet.mem "float" (snd entry))
    LATTICE_UPPER_BOUNDS
  && negb (PySet.mem "float" (closure_of "complex")).

(** The body of [_lattice_result_type] without its first branch, the one
    for a single input: what the other three branches give on any number
    of pairs. *)
Definition promote_pairs_general (floatx : string)
    (pairs : list (string * bool)) : result string :=
  match pairs with
  | [] => Error UnpackError
  | (dtype0, _) :: _ =>
      let dtypes := map fst pairs in
      let weak_types := map snd pairs in
      out <-
        (if Nat.eqb (List.length (PySet.of_list dtypes)) 1
            && negb (all weak_types)
         then Ok (dtype0, false)
         else if all weak_types then
           nodes <- mapM (fun d => _respect_weak_type d false) dtypes ;;
           out_dtype <- _least_upper_bound (PySet.of_list nodes) ;;
           Ok (out_dtype, true)
         else
           nodes <- mapM (fun dw => _respect_weak_type (fst dw) (snd dw))
                      pairs ;;
           out_dtype <- _least_upper_bound (PySet.of_list nodes) ;;
           Ok (out_dtype, any (map (String.eqb out_dtype) WEAK_TYPES))) ;;
      let out_dtype := fst out in
      let out_weak_type := negb (String.eqb out_dtype "bool") && snd out in
      let precision := PyStr.last2 floatx in
      if out_weak_type then _resolve_weak_type out_dtype precision
      else Ok out_dtype
  end.

(** [mapM] over two lists with the same members: values with the same
    members, or two exceptions, each raised by [f] on some element. *)
Definition members_related {A B : Type} (f : A -> result B)
    (r r' : result (list B)) : Prop :=
  match r, r' with
  | Ok bs, Ok bs' => forall b, In b bs <-> In b bs'
  | Error e, Error e' =>
      (exists a, f a = Error e) /\ (exists a', f a' = Error e')
  | _, _ => False
  end.

(** * Properties *)

(** ** Sets as lists *)

Lemma mem_In x s : PySet.mem x s = true <-> In x s.
Proof.
  unfold PySet.mem. rewrite existsb_exists. split.
  - intros [y [Hy Heq]]. apply String.eqb_eq in Heq. now subst.
  - intros H. exists x. split; [assumption | apply String.eqb_refl].
Qed.

Lemma mem_false x s : PySet.mem x s = false <-> ~ In x s.
Proof.
  rewrite <- mem_In. destruct (PySet.mem x s); split; congruence.
Qed.

Lemma add_In x y s : In y (PySet.add x s) <-> y = x \/ In y s.
Proof.
  unfold PySet.add. destruct (PySet.mem x s) eqn:E.
  - apply mem_In in E. split; [auto | intros [-> | H]; assumption].
  - rewrite in_app_iff. simpl. split.
    + intros [H | [H | []]]; auto.
    + intros [-> | H]; auto.
Qed.

Lemma add_NoDup x s : NoDup s -> NoDup (PySet.add x s).
Proof.
  intros H. unfold PySet.add. destruct (PySet.mem x s) eqn:E; [assumption |].
  apply mem_false in E. apply NoDup_app.
  - assumption.
  - constructor; [intros [] | constructor].
  - intros a Ha [<- | []]. contradiction.
Qed.

Lemma union_In s t y : In y (PySet.union s t) <-> In y s \/ In y t.
Proof.
  unfold PySet.union. revert s. induction t as [| x t IH]; intros s; simpl.
  - tauto.
  - rewrite IH, add_In. split.
    + intros [[-> | H] | H]; auto.
    + intros [H | [<- | H]]; auto.
Qed.

Lemma union_NoDup s t : NoDup s -> NoDup (PySet.union s t).
Proof.
  unfold PySet.union. revert s. induction t as [| x t IH]; intros s H; simpl.
  - assumption.
  - apply IH, add_NoDup, H.
Qed.

Lemma of_list_In l y : In y (PySet.of_list l) <-> In y l.
Proof.
  change (PySet.of_list l) with (PySet.union [] l).
  rewrite union_In. simpl. tauto.
Qed.

Lemma of_list_NoDup l : NoDup (PySet.of_list l).
Proof.
  change (PySet.of_list l) with (PySet.union [] l).
  apply union_NoDup. constructor.
Qed.

Lemma inter_In s t y : In y (PySet.inter s t) <-> In y s /\ In y t.
Proof.
  unfold PySet.inter. rewrite filter_In, mem_In. tauto.
Qed.

Lemma inter_NoDup s t : NoDup s -> NoDup (PySet.inter s t).
Proof. apply NoDup_filter. Qed.

Lemma issubset_incl s t : PySet.issubset s t = true <-> incl s t.
Proof.
  unfold PySet.issubset, incl. rewrite forallb_forall.
  split; intros H x Hx; apply mem_In; auto.
Qed.

(** A duplicate-free list whose elements are all equal has at most one. *)
Lemma NoDup_all_equal (l : list string) :
  NoDup l -> (forall x y, In x l -> In y l -> x = y) ->
  l = [] \/ exists x, l = [x].
Proof.
  intros Hnd Heq. destruct l as [| x [| y l]]; auto.
  - right. now exists x.
  - exfalso. inversion Hnd as [| ? ? Hx _]; subst. apply Hx.
    left. apply Heq; simpl; auto.
Qed.

(** Two duplicate-free lists with the same elements have the same length. *)
Lemma same_elements_length (l l' : list string) :
  NoDup l -> NoDup l' -> (forall x, In x l <-> In x l') ->
  List.length l = List.length l'.
Proof.
  intros H H' Heq. apply Permutation_length.
  apply NoDup_Permutation; assumption.
Qed.


(** ** The lattice and its closure *)

Lemma lattice_built : _type_promotion_lattice = Ok spec_covering_edges.
Proof. reflexivity. Qed.

Lemma LATTICE_UPPER_BOUNDS_built :
  _make_lattice_upper_bounds = Ok LATTICE_UPPER_BOUNDS.
Proof. vm_compute. reflexivity. Qed.

Lemma has_key_lookup {V : Type} k (d : PyDict.t V) :
  PyDict.has_key k d = true <-> exists v, PyDict.lookup k d = Some v.
Proof.
  unfold PyDict.has_key. destruct (PyDict.lookup k d) as [v |].
  - split; [intros _; now exists v | reflexivity].
  - split; [discriminate | intros [v Hv]; discriminate].
Qed.

Lemma lookup_In {V : Type} k (v : V) (d : PyDict.t V) :
  PyDict.lookup k d = Some v -> In (k, v) d.
Proof.
  induction d as [| [k' v'] d IH]; simpl; [discriminate |].
  destruct (String.eqb k k') eqn:E.
  - apply String.eqb_eq in E. intros [= ->]. subst. now left.
  - intros H. right. now apply IH.
Qed.

Lemma closure_check_ok : closure_check spec_covering_edges LATTICE_UPPER_BOUNDS = true.
Proof. vm_compute. reflexivity. Qed.

Lemma table_check_ok : table_check LATTICE_UPPER_BOUNDS = true.
Proof. vm_compute. reflexivity. Qed.

(** One turn of the loop that sees [n] among the new upper bounds raises. *)
Lemma closure_loop_raises fuel lattice n ub new :
  union_of_covers lattice [] ub = Ok new ->
  In n new ->
  closure_loop (S fuel) lattice n ub = Error (CycleDetected n).
Proof.
  intros Hnew Hin. simpl. rewrite Hnew. simpl.
  apply mem_In in Hin. now rewrite Hin.
Qed.

Lemma closure_loop_turns lattice n k :
  forall fuel ub ub' new,
    turns lattice n k ub ub' ->
    union_of_covers lattice [] ub' = Ok new ->
    In n new ->
    k < fuel ->
    closure_loop fuel lattice n ub = Error (CycleDetected n).
Proof.
  induction k as [| k IH]; intros fuel ub ub' new Ht Hnew Hin Hfuel.
  - inversion Ht; subst. destruct fuel as [| fuel]; [lia |].
    eapply closure_loop_raises; eassumption.
  - inversion Ht as [| k' ub0 new0 ub1 Hnew0 Hmem Hsub Hrest]; subst.
    destruct fuel as [| fuel]; [lia |].
    simpl. rewrite Hnew0. simpl. rewrite Hmem, Hsub.
    eapply IH; try eassumption. lia.
Qed.

Lemma add_length x s : List.length s <= List.length (PySet.add x s).
Proof.
  unfold PySet.add. destruct (PySet.mem x s); [lia |].
  rewrite length_app. simpl. lia.
Qed.

Lemma union_cons s x t :
  PySet.union s (x :: t) = PySet.union (PySet.add x s) t.
Proof. reflexivity. Qed.

Lemma union_length s t : List.length s <= List.length (PySet.union s t).
Proof.
  revert s. induction t as [| x t IH]; intros s.
  - apply Nat.le_refl.
  - rewrite union_cons. specialize (IH (PySet.add x s)).
    pose proof (add_length x s). lia.
Qed.

Lemma union_grows s t :
  PySet.issubset t s = false ->
  List.length s < List.length (PySet.union s t).
Proof.
  revert s. induction t as [| x t IH]; intros s H.
  - discriminate.
  - rewrite union_cons. change (PySet.issubset (x :: t) s)
      with (PySet.mem x s && PySet.issubset t s) in H.
    destruct (PySet.mem x s) eqn:E.
    + unfold PySet.add. rewrite E. now apply IH.
    + pose proof (union_length (PySet.add x s) t) as Hle.
      unfold PySet.add in Hle |- *. rewrite E in Hle |- *.
      rewrite length_app in Hle. simpl in Hle. lia.
Qed.

Lemma union_of_covers_keys lattice bs :
  forall acc new,
    union_of_covers lattice acc bs = Ok new ->
    forall b, In b bs -> PyDict.has_key b lattice = true.
Proof.
  induction bs as [| b0 bs IH]; intros acc new H b Hb; [destruct Hb |].
  simpl in H. unfold PyDict.getitem in H.
  destruct (PyDict.lookup b0 lattice) as [cover |] eqn:E; [| discriminate].
  simpl in H. destruct Hb as [<- | Hb].
  - unfold PyDict.has_key. now rewrite E.
  - eapply IH; eassumption.
Qed.

Lemma keys_bound (lattice : PyDict.t (list string)) l :
  NoDup l ->
  (forall x, In x l -> PyDict.has_key x lattice = true) ->
  List.length l <= List.length lattice.
Proof.
  intros Hnd Hkeys.
  rewrite <- (length_map fst lattice).
  apply NoDup_incl_length; [assumption |].
  intros x Hx. apply Hkeys, has_key_lookup in Hx. destruct Hx as [v Hv].
  apply lookup_In in Hv. apply in_map_iff. now exists (x, v).
Qed.

Lemma turns_length lattice n k :
  forall ub ub',
    turns lattice n k ub ub' ->
    NoDup ub ->
    NoDup ub' /\ List.length ub + k <= List.length ub'.
Proof.
  induction k as [| k IH]; intros ub ub' Ht Hnd.
  - inversion Ht; subst. split; [assumption | lia].
  - inversion Ht as [| k' ub0 new ub1 Hnew Hmem Hsub Hrest]; subst.
    apply IH in Hrest; [| now apply union_NoDup].
    destruct Hrest as [Hnd' Hlen]. split; [assumption |].
    pose proof (union_grows ub new Hsub). lia.
Qed.

(** The fuel of [upper_bounds_of] outlasts every run of the loop that ends
    in a turn whose covers are all found. *)
Lemma turns_within_fuel lattice n k ub' new :
  turns lattice n k [n] ub' ->
  union_of_covers lattice [] ub' = Ok new ->
  k < S (List.length lattice).
Proof.
  intros Ht Hnew.
  destruct (turns_length _ _ _ _ _ Ht) as [Hnd Hlen].
  - constructor; [intros [] | constructor].
  - pose proof (keys_bound lattice ub' Hnd
                  (union_of_covers_keys _ _ _ _ Hnew)) as Hb.
    simpl in Hlen. lia.
Qed.

(** *** The bounded loop never gives up *)

Lemma union_of_covers_error lattice bs :
  forall acc e, union_of_covers lattice acc bs = Error e -> e <> OutOfFuel.
Proof.
  induction bs as [| b bs IH]; intros acc e; cbn [union_of_covers].
  - intros H. discriminate H.
  - unfold PyDict.getitem. destruct (PyDict.lookup b lattice); cbn [bind].
    + apply IH.
    + intros H. injection H as <-. intros H. discriminate H.
Qed.

Lemma closure_loop_total lattice n :
  forall fuel ub,
    NoDup ub ->
    List.length lattice + 2 <= List.length ub + fuel ->
    1 <= fuel ->
    closure_loop fuel lattice n ub <> Error OutOfFuel.
Proof.
  induction fuel as [| fuel IH]; intros ub Hnd Hlen Hfuel; [lia |].
  cbn [closure_loop].
  destruct (union_of_covers lattice [] ub) as [new | e] eqn:Enew;
    cbn [bind].
  - destruct (PySet.mem n new); [intros H; discriminate H |].
    destruct (PySet.issubset new ub) eqn:Esub; [intros H; discriminate H |].
    pose proof (keys_bound lattice ub Hnd
                  (union_of_covers_keys _ _ _ _ Enew)) as Hb.
    pose proof (union_grows ub new Esub) as Hgrow.
    apply IH; [apply union_NoDup, Hnd | lia | lia].
  - intros H. injection H as ->.
    apply (union_of_covers_error _ _ _ _ Enew). reflexivity.
Qed.

Lemma closure_loop_proper lattice n :
  forall fuel ub ub',
    NoDup ub -> ub <> [] ->
    closure_loop fuel lattice n ub = Ok ub' ->
    NoDup ub' /\ ub' <> [].
Proof.
  induction fuel as [| fuel IH]; intros ub ub' Hnd Hne;
    cbn [closure_loop]; [intros H; discriminate H |].
  destruct (union_of_covers lattice [] ub) as [new | e]; cbn [bind];
    [| intros H; discriminate H].
  destruct (PySet.mem n new); [intros H; discriminate H |].
  destruct (PySet.issubset new ub).
  - intros H. injection H as <-. split; assumption.
  - apply IH; [apply union_NoDup, Hnd |].
    pose proof (union_length ub new) as Hle. intros E. rewrite E in Hle.
    destruct ub; [apply Hne; reflexivity | simpl in Hle; lia].
Qed.

Lemma lookup_setitem {V : Type} k k' (v : V) d :
  PyDict.lookup k (PyDict.setitem k' v d)
  = if String.eqb k k' then Some v else PyDict.lookup k d.
Proof.
  induction d as [| [k0 v0] d IH]; cbn [PyDict.setitem PyDict.lookup].
  - destruct (String.eqb k k'); reflexivity.
  - destruct (String.eqb k' k0) eqn:E0; cbn [PyDict.lookup].
    + apply String.eqb_eq in E0. subst k0.
      destruct (String.eqb k k'); reflexivity.
    + destruct (String.eqb k k0) eqn:E1; [| exact IH].
      apply String.eqb_eq in E1. subst k0.
      rewrite String.eqb_sym in E0. rewrite E0. reflexivity.
Qed.

Lemma setitem_proper n ub upper_bounds :
  NoDup ub -> ub <> [] -> proper_sets upper_bounds ->
  proper_sets (PyDict.setitem n ub upper_bounds).
Proof.
  intros Hnd Hne Hp k v. rewrite lookup_setitem.
  destruct (String.eqb k n).
  - intros H. injection H as <-. split; assumption.
  - apply Hp.
Qed.

Lemma seeds_proper nodes :
  proper_sets (dict_literal (map (fun node => (node, [node])) nodes)).
Proof.
  unfold dict_literal.
  assert (H : forall items d,
             proper_sets d ->
             Forall (fun kv : string * list string =>
                       NoDup (snd kv) /\ snd kv <> []) items ->
             proper_sets
               (fold_left (fun d kv => PyDict.setitem (fst kv) (snd kv) d)
                  items d)).
  { induction items as [| kv items IH]; intros d Hd Hall; [exact Hd |].
    cbn [fold_left]. inversion Hall as [| ? ? [Hnd Hne] Hrest]; subst.
    apply IH; [apply setitem_proper; assumption | exact Hrest]. }
  apply H.
  - intros k v Hk. discriminate Hk.
  - apply Forall_forall. intros kv Hkv. apply in_map_iff in Hkv.
    destruct Hkv as [node [<- _]]. cbn [snd]. split.
    + constructor; [intros [] | constructor].
    + intros E. discriminate E.
Qed.

Lemma closure_each_total lattice todo :
  forall upper_bounds,
    proper_sets upper_bounds ->
    closure_each (S (List.length lattice)) lattice todo upper_bounds
    <> Error OutOfFuel.
Proof.
  induction todo as [| n todo IH]; intros upper_bounds Hp;
    cbn [closure_each]; [intros H; discriminate H |].
  unfold PyDict.getitem.
  destruct (PyDict.lookup n upper_bounds) as [ub |] eqn:E; cbn [bind];
    [| intros H; discriminate H].
  destruct (Hp n ub E) as [Hnd Hne].
  destruct (closure_loop (S (List.length lattice)) lattice n ub)
    as [ub' | e] eqn:El; cbn [bind].
  - destruct (closure_loop_proper _ _ _ _ _ Hnd Hne El) as [Hnd' Hne'].
    apply IH, setitem_proper; assumption.
  - intros H. injection H as ->.
    apply (closure_loop_total lattice n (S (List.length lattice)) ub Hnd);
      [| lia | exact El].
    destruct ub; [elim Hne; reflexivity | simpl; lia].
Qed.

(** For any lattice the fuel of [upper_bounds_of] is enough: the builder
    returns a table or raises a Python exception. *)
Lemma upper_bounds_of_total lattice :
  upper_bounds_of lattice <> Error OutOfFuel.
Proof. apply closure_each_total, seeds_proper. Qed.

(** C2.  The lattice builder returns exactly the covering edges the
    specification lists, entry for entry: its nodes are the fifteen
    concrete dtype names and the three weak categories, each once, and
    the covers of each node are the listed ones and no others.  The
    builder takes no argument and reads no state, so it is a constant. *)
Theorem type_promotion_lattice_is_spec :
  _type_promotion_lattice = Ok spec_covering_edges
  /\ NoDup (PyDict.keys spec_covering_edges)
  /\ (forall n,
        In n (PyDict.keys spec_covering_edges)
        <-> In n (BOOL_TYPES ++ INT_TYPES ++ FLOAT_TYPES ++ COMPLEX_TYPES
                    ++ WEAK_TYPES)).
Proof.
  split; [reflexivity |]. split.
  - assert (H : nodupb (PyDict.keys spec_covering_edges) = true)
      by reflexivity.
    revert H. generalize (PyDict.keys spec_covering_edges).
    induction l as [| x l IH]; simpl; intros H; constructor.
    + apply andb_prop in H. destruct H as [H _].
      apply negb_true_iff in H. now apply mem_false.
    + apply andb_prop in H. now apply IH.
  - intros n. simpl. tauto.
Qed.

(** C3, the claim as it stands fails on the edge from "bool" to "int": the
    closure of "int" is included in the closure of "bool", so the inclusion
    the claim calls false holds. *)
Lemma closure_inclusion_not_false :
  PyDict.lookup "bool" spec_covering_edges = Some ["int"]
  /\ ~ (~ incl (closure_of "int") (closure_of "bool")
        /\ incl ("bool" :: closure_of "int") (closure_of "bool")).
Proof.
  split; [reflexivity |].
  intros [Hnot _]. apply Hnot.
  apply issubset_incl. vm_compute. reflexivity.
Qed.

(** C3, amended.  In the closure built over the fixed lattice every node is
    a member of its own closure; for every covering edge from [n] to [m]
    the closure of [n] includes the closure of [m] and [n] itself (so the
    closure of [m] is included in the closure of [n]; it is [n] that is
    missing from the closure of [m]).  For any lattice, when the builder
    comes to a node [n] and, after any number of turns of its loop, [n] is
    among the new upper bounds, the builder raises [CycleDetected n]. *)
Theorem upper_bound_closure_invariants :
  forall lattice,
    _type_promotion_lattice = Ok lattice ->
    (forall n, In n (PyDict.keys lattice) -> In n (closure_of n))
    /\ (forall n cover m,
          PyDict.lookup n lattice = Some cover -> In m cover ->
          incl (n :: closure_of m) (closure_of n)
          /\ ~ In n (closure_of m))
    /\ (forall lat n todo upper_bounds k ub new,
          PyDict.getitem upper_bounds n = Ok [n] ->
          turns lat n k [n] ub ->
          union_of_covers lat [] ub = Ok new ->
          In n new ->
          closure_each (S (List.length lat)) lat (n :: todo) upper_bounds
          = Error (CycleDetected n)).
Proof.
  intros lattice Hl. rewrite lattice_built in Hl. injection Hl as <-.
  pose proof closure_check_ok as Hc. unfold closure_check in Hc.
  rewrite forallb_forall in Hc.
  split; [| split].
  - intros n Hn. unfold PyDict.keys in Hn. apply in_map_iff in Hn.
    destruct Hn as [[n' cover] [<- Hin]]. apply Hc in Hin.
    cbv beta in Hin. cbn [fst snd] in Hin.
    apply andb_prop in Hin. destruct Hin as [Hin _].
    apply andb_prop in Hin. destruct Hin as [_ Hin].
    apply mem_In in Hin. exact Hin.
  - intros n cover m Hlook Hm. apply lookup_In, Hc in Hlook.
    cbv beta in Hlook. cbn [fst snd] in Hlook.
    apply andb_prop in Hlook. destruct Hlook as [_ Hall].
    rewrite forallb_forall in Hall. apply Hall in Hm.
    apply andb_prop in Hm. destruct Hm as [Hm Hnot].
    apply andb_prop in Hm. destruct Hm as [_ Hsub].
    split.
    + apply issubset_incl in Hsub. exact Hsub.
    + apply negb_true_iff in Hnot. apply mem_false in Hnot. exact Hnot.
  - intros lat n todo upper_bounds k ub new Hget Ht Hnew Hin.
    cbn [closure_each]. rewrite Hget. cbn [bind].
    rewrite (closure_loop_turns lat n k _ _ _ _ Ht Hnew Hin
               (turns_within_fuel _ _ _ _ _ Ht Hnew)).
    reflexivity.
Qed.

Lemma upper_bound_closure_invariants_witness :
  In "int" (closure_of "int")
  /\ incl ("bool" :: closure_of "int") (closure_of "bool")
  /\ closure_each 3 [("a", ["b"]); ("b", ["a"])] ["a"; "b"]
       [("a", ["a"]); ("b", ["b"])]
     = Error (CycleDetected "a").
Proof.
  destruct (upper_bound_closure_invariants spec_covering_edges eq_refl)
    as [Hself [Hedge Hcycle]].
  split; [| split].
  - apply Hself. simpl. tauto.
  - apply (Hedge "bool" ["int"] "int"); [reflexivity | simpl; tauto].
  - apply (Hcycle [("a", ["b"]); ("b", ["a"])] "a" ["b"]
             [("a", ["a"]); ("b", ["b"])] 1 ["a"; "b"] ["b"; "a"]).
    + reflexivity.
    + apply (turns_more _ _ 0 ["a"] ["b"] ["a"; "b"]);
        [reflexivity | reflexivity | reflexivity | apply turns_none].
    + reflexivity.
    + simpl. tauto.
Defined.

Example cyclic_lattice_raises :
  upper_bounds_of [("a", ["b"]); ("b", ["a"])] = Error (CycleDetected "a").
Proof. reflexivity. Qed.

(** ** Lookups in a table of sets *)

Section Table.

Variable UB : PyDict.t (list string).

Lemma getitem_has_key n :
  PyDict.has_key n UB = true ->
  PyDict.getitem UB n = Ok (lookup_or_empty UB n).
Proof.
  unfold PyDict.has_key, PyDict.getitem, lookup_or_empty.
  destruct (PyDict.lookup n UB); [reflexivity | discriminate].
Qed.

Lemma mapM_getitem_ok N :
  (forall n, In n N -> PyDict.has_key n UB = true) ->
  mapM (PyDict.getitem UB) N = Ok (map (lookup_or_empty UB) N).
Proof.
  induction N as [| n N IH]; intros H; [reflexivity |].
  cbn [mapM map]. rewrite getitem_has_key by (apply H; now left).
  cbn [bind]. rewrite IH by (intros m Hm; apply H; now right).
  reflexivity.
Qed.

Lemma mapM_getitem_error N d :
  In d N -> PyDict.has_key d UB = false ->
  exists e, mapM (PyDict.getitem UB) N = Error e.
Proof.
  induction N as [| n N IH]; intros Hin Hd; [destruct Hin |].
  cbn [mapM]. destruct (PyDict.getitem UB n) as [v | e] eqn:E; cbn [bind].
  - destruct Hin as [-> | Hin].
    + unfold PyDict.getitem, PyDict.has_key in E, Hd.
      destruct (PyDict.lookup d UB); discriminate.
    + destruct (IH Hin Hd) as [e He]. rewrite He. now exists e.
  - now exists e.
Qed.

Lemma filterM_getitem (g : list string -> bool) l :
  (forall c, In c l -> PyDict.has_key c UB = true) ->
  filterM (fun c => ub <- PyDict.getitem UB c ;; Ok (g ub)) l
  = Ok (filter (fun c => g (lookup_or_empty UB c)) l).
Proof.
  induction l as [| c l IH]; intros H; [reflexivity |].
  cbn [filterM filter]. rewrite getitem_has_key by (apply H; now left).
  cbn [bind]. rewrite IH by (intros m Hm; apply H; now right).
  reflexivity.
Qed.

End Table.

Lemma fold_inter_In bs :
  forall b a,
    In a (fold_left PySet.inter bs b)
    <-> In a b /\ forall x, In x bs -> In a x.
Proof.
  induction bs as [| b' bs IH]; intros b a; cbn [fold_left].
  - split; [intros H; split; [assumption | intros x []] | tauto].
  - rewrite IH, inter_In. split.
    + intros [[Hb Hb'] Hall]. split; [assumption |].
      intros x [<- | Hx]; auto.
    + intros [Hb Hall]. split; [split |]; auto.
      * apply Hall. now left.
      * intros x Hx. apply Hall. now right.
Qed.

Lemma fold_inter_NoDup bs :
  forall b, NoDup b -> NoDup (fold_left PySet.inter bs b).
Proof.
  induction bs as [| b' bs IH]; intros b H; cbn [fold_left]; [assumption |].
  apply IH, inter_NoDup, H.
Qed.

(** ** The closure table *)

Lemma nodupb_NoDup l : nodupb l = true -> NoDup l.
Proof.
  induction l as [| x l IH]; cbn [nodupb]; intros H; constructor.
  - apply andb_prop in H. destruct H as [H _].
    apply negb_true_iff in H. apply mem_false in H. exact H.
  - apply andb_prop in H. destruct H as [_ H]. apply IH, H.
Qed.

Lemma closure_entry n :
  closure_of n = []
  \/ exists ub, In (n, ub) LATTICE_UPPER_BOUNDS /\ closure_of n = ub.
Proof.
  unfold closure_of, lookup_or_empty.
  destruct (PyDict.lookup n LATTICE_UPPER_BOUNDS) as [ub |] eqn:E.
  - right. exists ub. split; [apply lookup_In, E | reflexivity].
  - now left.
Qed.

Lemma closure_NoDup n : NoDup (closure_of n).
Proof.
  destruct (closure_entry n) as [-> | [ub [Hin ->]]]; [constructor |].
  pose proof table_check_ok as Hc. unfold table_check in Hc.
  rewrite forallb_forall in Hc. apply Hc in Hin.
  cbv beta in Hin. cbn [fst snd] in Hin.
  apply andb_prop in Hin. destruct Hin as [Hin _].
  apply nodupb_NoDup, Hin.
Qed.

(** A member [d] of the closure of [n] is a node of the table, and [n] is
    in the closure of [d] only when [d] is [n]. *)
Lemma closure_member n d :
  In d (closure_of n) ->
  PyDict.has_key d LATTICE_UPPER_BOUNDS = true
  /\ (d = n \/ ~ In n (closure_of d)).
Proof.
  intros Hd. destruct (closure_entry n) as [E | [ub [Hin E]]].
  - rewrite E in Hd. destruct Hd.
  - rewrite E in Hd. clear E.
    pose proof table_check_ok as Hc. unfold table_check in Hc.
    rewrite forallb_forall in Hc. apply Hc in Hin.
    cbv beta in Hin. cbn [fst snd] in Hin.
    apply andb_prop in Hin. destruct Hin as [_ Hall].
    rewrite forallb_forall in Hall. apply Hall in Hd.
    apply andb_prop in Hd. destruct Hd as [Hkey Hanti].
    split; [exact Hkey |].
    apply orb_prop in Hanti. destruct Hanti as [Heq | Hnot].
    + left. apply String.eqb_eq, Heq.
    + right. apply negb_true_iff in Hnot. apply mem_false in Hnot.
      exact Hnot.
Qed.

Lemma candidate_unique nodes c d :
  is_candidate nodes c -> is_candidate nodes d -> c = d.
Proof.
  intros [Hc Hcmin] [Hd Hdmin].
  pose proof (Hcmin d Hd) as Hdc. pose proof (Hdmin c Hc) as Hcd.
  destruct (closure_member c d Hdc) as [_ [-> | Hnot]];
    [reflexivity | contradiction].
Qed.

(** ** The least upper bound *)

(** From here on the table is only used through the lemmas above and by
    evaluation with [vm_compute]. *)
Opaque LATTICE_UPPER_BOUNDS.

Lemma of_list_nonempty nodes : nodes <> [] -> PySet.of_list nodes <> [].
Proof.
  destruct nodes as [| n nodes]; [congruence |]. intros _ H.
  assert (Hn : In n (PySet.of_list (n :: nodes)))
    by (apply of_list_In; now left).
  rewrite H in Hn. destruct Hn.
Qed.

(** What the function does once every node has an entry: the shape of the
    computation, with the common upper bounds named. *)
Lemma least_upper_bound_known nodes :
  nodes <> [] ->
  (forall n, In n nodes -> PyDict.has_key n LATTICE_UPPER_BOUNDS = true) ->
  exists CUB,
    NoDup CUB
    /\ (forall a, In a CUB <-> is_cub nodes a)
    /\ _least_upper_bound nodes
       = pop_unique nodes
           (match PySet.inter CUB (PySet.of_list nodes) with
            | [] => filter (fun c => PySet.issubset CUB (closure_of c)) CUB
            | both => both
            end).
Proof.
  intros Hne Hkeys. unfold _least_upper_bound. cbv zeta.
  rewrite mapM_getitem_ok
    by (intros n Hn; apply Hkeys, of_list_In, Hn).
  change (lookup_or_empty LATTICE_UPPER_BOUNDS) with closure_of.
  pose proof (of_list_nonempty nodes Hne) as HN.
  assert (HinN : forall n, In n (PySet.of_list nodes) <-> In n nodes)
    by (intros n; apply of_list_In).
  destruct (PySet.of_list nodes) as [| n0 N] eqn:EN;
    [exfalso; apply HN; reflexivity |].
  clear HN. cbn [map].
  set (CUB := fold_left PySet.inter (map closure_of N) (closure_of n0)).
  assert (Hcub : forall a, In a CUB <-> is_cub nodes a).
  { intros a. unfold CUB. rewrite fold_inter_In. unfold is_cub. split.
    - intros [H0 Hrest] n Hn. apply HinN in Hn. destruct Hn as [<- | Hn].
      + exact H0.
      + apply Hrest. apply in_map_iff. exists n.
        split; [reflexivity | exact Hn].
    - intros H. split.
      + apply H, HinN. left. reflexivity.
      + intros x Hx. apply in_map_iff in Hx. destruct Hx as [n [<- Hn]].
        apply H, HinN. right. exact Hn. }
  assert (Hnd : NoDup CUB)
    by (apply fold_inter_NoDup, (closure_NoDup n0)).
  exists CUB. split; [exact Hnd |]. split; [exact Hcub |].
  destruct (PySet.inter CUB (n0 :: N)) as [| x rest] eqn:EI.
  - rewrite filterM_getitem.
    + change (lookup_or_empty LATTICE_UPPER_BOUNDS) with closure_of.
      reflexivity.
    + intros c Hc. apply Hcub in Hc.
      assert (H0 : In c (closure_of n0))
        by (apply Hc, HinN; left; reflexivity).
      apply (closure_member n0 c H0).
  - reflexivity.
Qed.

(** With every node known, the function returns the candidate when there
    is one and raises [NoPromotionPath] when there is none. *)
Lemma least_upper_bound_spec nodes :
  nodes <> [] ->
  (forall n, In n nodes -> PyDict.has_key n LATTICE_UPPER_BOUNDS = true) ->
  (exists c, _least_upper_bound nodes = Ok c /\ is_candidate nodes c)
  \/ (_least_upper_bound nodes = Error (NoPromotionPath nodes)
      /\ forall c, ~ is_candidate nodes c).
Proof.
  intros Hne Hkeys.
  destruct (least_upper_bound_known nodes Hne Hkeys)
    as [CUB [Hnd [Hcub Heq]]].
  rewrite Heq. clear Heq.
  assert (Hcand : forall c,
             In c CUB -> PySet.issubset CUB (closure_of c) = true ->
             is_candidate nodes c).
  { intros c Hc Hsub. split; [apply Hcub, Hc |].
    intros d Hd. apply issubset_incl in Hsub. apply Hsub, Hcub, Hd. }
  destruct (PySet.inter CUB (PySet.of_list nodes)) as [| x rest] eqn:EI.
  - set (L := filter (fun c => PySet.issubset CUB (closure_of c)) CUB).
    assert (HL : forall c, In c L <-> is_candidate nodes c).
    { intros c. unfold L. rewrite filter_In. split.
      - intros [Hc Hsub]. now apply Hcand.
      - intros [Hc Hmin]. split; [apply Hcub, Hc |].
        apply issubset_incl. intros d Hd. apply Hmin, Hcub, Hd. }
    destruct (NoDup_all_equal L) as [E | [c E]].
    + apply NoDup_filter, Hnd.
    + intros a b Ha Hb. apply HL in Ha, Hb.
      eapply candidate_unique; eassumption.
    + rewrite E. right. split; [reflexivity |].
      intros c Hc. apply HL in Hc. rewrite E in Hc. destruct Hc.
    + rewrite E. left. exists c. split; [reflexivity |].
      apply HL. rewrite E. now left.
  - assert (HI : forall c, In c (x :: rest) -> is_candidate nodes c).
    { intros c Hc. rewrite <- EI in Hc. apply inter_In in Hc.
      destruct Hc as [Hc HcN]. apply (proj1 (of_list_In nodes c)) in HcN.
      split; [apply Hcub, Hc |].
      intros d Hd. apply Hd, HcN. }
    destruct (NoDup_all_equal (x :: rest)) as [E | [c E]].
    + rewrite <- EI. apply inter_NoDup, Hnd.
    + intros a b Ha Hb. eapply candidate_unique; eauto.
    + discriminate.
    + rewrite E. left. exists c. split; [reflexivity |].
      apply HI. rewrite E. now left.
Qed.

(** The first element of [set(l)] with a property, in the order kept
    here, is the first such element of [l]. *)
Lemma find_of_list (p : string -> bool) l :
  find p (PySet.of_list l) = find p l.
Proof.
  unfold PySet.of_list.
  assert (H : forall s,
             find p (fold_left (fun s x => PySet.add x s) l s)
             = match find p s with
               | Some d => Some d
               | None => find p l
               end).
  { induction l as [| x l IH]; intros s; cbn [fold_left find].
    - destruct (find p s); reflexivity.
    - rewrite IH. unfold PySet.add.
      destruct (PySet.mem x s) eqn:Ex.
      + destruct (find p s) as [d |] eqn:Es; [reflexivity |].
        apply mem_In in Ex. rewrite (find_none _ _ Es x Ex). reflexivity.
      + assert (Happ : find p (s ++ [x])
                       = match find p s with
                         | Some d => Some d
                         | None => if p x then Some x else None
                         end).
        { clear. induction s as [| y s IHs]; cbn [app find].
          - reflexivity.
          - destruct (p y); [reflexivity | exact IHs]. }
        rewrite Happ. destruct (find p s); [reflexivity |].
        destruct (p x); reflexivity. }
  rewrite H. reflexivity.
Qed.

(** With a node that has no entry, the function names the first such node
    of [N]. *)
Lemma least_upper_bound_unknown nodes d :
  find (fun n => negb (PyDict.has_key n LATTICE_UPPER_BOUNDS))
    (PySet.of_list nodes) = Some d ->
  _least_upper_bound nodes = Error (UnknownDtype d).
Proof.
  intros Hfind. unfold _least_upper_bound. cbv zeta.
  pose proof (find_some _ _ Hfind) as [Hin Hkey].
  apply negb_true_iff in Hkey.
  destruct (mapM_getitem_error LATTICE_UPPER_BOUNDS _ d Hin Hkey) as [e He].
  rewrite He, Hfind. reflexivity.
Qed.

Lemma find_unknown (p : string -> bool) l n :
  In n l -> p n = true -> exists d, find p l = Some d.
Proof.
  intros Hin Hp. destruct (find p l) as [d |] eqn:E; [now exists d |].
  pose proof (find_none _ _ E n Hin) as H. congruence.
Qed.

Lemma least_upper_bound_ok_known nodes c :
  _least_upper_bound nodes = Ok c ->
  nodes <> []
  /\ forall n, In n nodes -> PyDict.has_key n LATTICE_UPPER_BOUNDS = true.
Proof.
  intros H. split.
  - intros ->. vm_compute in H. discriminate H.
  - intros n Hn.
    destruct (PyDict.has_key n LATTICE_UPPER_BOUNDS) eqn:E; [reflexivity |].
    destruct (find_unknown
                (fun n => negb (PyDict.has_key n LATTICE_UPPER_BOUNDS))
                (PySet.of_list nodes) n) as [d Hd].
    + apply of_list_In, Hn.
    + rewrite E. reflexivity.
    + rewrite (least_upper_bound_unknown _ _ Hd) in H. discriminate H.
Qed.

Lemma least_upper_bound_ok_candidate nodes c :
  _least_upper_bound nodes = Ok c -> is_candidate nodes c.
Proof.
  intros H. destruct (least_upper_bound_ok_known _ _ H) as [Hne Hkeys].
  destruct (least_upper_bound_spec nodes Hne Hkeys)
    as [[c' [Hc' Hcand]] | [Herr _]].
  - rewrite Hc' in H. injection H as <-. exact Hcand.
  - rewrite Herr in H. discriminate H.
Qed.

(** *** The function over any table and any iteration order *)

Lemma least_upper_bound_over_production nodes :
  _least_upper_bound nodes
  = least_upper_bound_over PySet.of_list LATTICE_UPPER_BOUNDS nodes.
Proof. reflexivity. Qed.

Section Over.

(** The iteration order of [set(nodes)]: any enumeration of the members. *)
Variable set_of : list string -> list string.
Hypothesis set_of_In : forall l x, In x (set_of l) <-> In x l.

Variable UB : PyDict.t (list string).

Lemma over_unknown nodes d :
  find (fun n => negb (PyDict.has_key n UB)) (set_of nodes) = Some d ->
  least_upper_bound_over set_of UB nodes = Error (UnknownDtype d).
Proof.
  intros Hfind. unfold least_upper_bound_over. cbv zeta.
  pose proof (find_some _ _ Hfind) as [Hin Hkey].
  cbv beta in Hkey. apply negb_true_iff in Hkey.
  destruct (mapM_getitem_error UB _ d Hin Hkey) as [e He].
  rewrite He, Hfind. reflexivity.
Qed.

(** The sets of the table hold each member once, and every member of a
    set has a set of its own. *)
Hypothesis UB_NoDup :
  forall n ub, PyDict.lookup n UB = Some ub -> NoDup ub.
Hypothesis UB_closed :
  forall n ub c,
    PyDict.lookup n UB = Some ub -> In c ub -> PyDict.has_key c UB = true.

Lemma entry_of_member n c :
  In c (lookup_or_empty UB n) ->
  exists ub, PyDict.lookup n UB = Some ub /\ In c ub.
Proof.
  unfold lookup_or_empty. destruct (PyDict.lookup n UB) as [ub |];
    [intros H; exists ub; split; [reflexivity | exact H] | intros []].
Qed.

(** With every node known: the common upper bounds, and the set the last
    lines of the function look at. *)
Lemma over_known nodes :
  nodes <> [] ->
  (forall n, In n nodes -> PyDict.has_key n UB = true) ->
  exists CUB,
    NoDup CUB
    /\ (forall a, In a CUB <-> is_cub_in UB nodes a)
    /\ least_upper_bound_over set_of UB nodes
       = pop_unique nodes
           (match PySet.inter CUB (set_of nodes) with
            | [] =>
                filter (fun c => PySet.issubset CUB (lookup_or_empty UB c))
                  CUB
            | both => both
            end).
Proof.
  intros Hne Hkeys. unfold least_upper_bound_over. cbv zeta.
  rewrite mapM_getitem_ok
    by (intros n Hn; apply Hkeys, set_of_In, Hn).
  assert (HinN : forall n, In n (set_of nodes) <-> In n nodes)
    by (intros n; apply set_of_In).
  destruct (set_of nodes) as [| n0 N] eqn:EN.
  { exfalso. destruct nodes as [| a nodes]; [apply Hne; reflexivity |].
    apply (proj2 (HinN a)). left. reflexivity. }
  cbn [map].
  set (CUB := fold_left PySet.inter (map (lookup_or_empty UB) N)
                (lookup_or_empty UB n0)).
  assert (Hcub : forall a, In a CUB <-> is_cub_in UB nodes a).
  { intros a. unfold CUB. rewrite fold_inter_In. unfold is_cub_in. split.
    - intros [H0 Hrest] n Hn. apply HinN in Hn. destruct Hn as [<- | Hn].
      + exact H0.
      + apply Hrest. apply in_map_iff. exists n.
        split; [reflexivity | exact Hn].
    - intros H. split.
      + apply H, HinN. left. reflexivity.
      + intros x Hx. apply in_map_iff in Hx. destruct Hx as [n [<- Hn]].
        apply H, HinN. right. exact Hn. }
  assert (Hnd : NoDup CUB).
  { apply fold_inter_NoDup. unfold lookup_or_empty.
    destruct (PyDict.lookup n0 UB) as [ub |] eqn:E0; [| constructor].
    apply (UB_NoDup n0 ub E0). }
  exists CUB. split; [exact Hnd |]. split; [exact Hcub |].
  destruct (PySet.inter CUB (n0 :: N)) as [| x rest] eqn:EI;
    [| reflexivity].
  rewrite filterM_getitem; [reflexivity |].
  intros c Hc. apply Hcub in Hc.
  assert (H0 : In c (lookup_or_empty UB n0))
    by (apply Hc, HinN; left; reflexivity).
  destruct (entry_of_member n0 c H0) as [ub [Hl Hin]].
  apply (UB_closed n0 ub c Hl Hin).
Qed.

(** An input node that is a common upper bound is a candidate. *)
Lemma input_cub_candidate nodes c :
  In c nodes -> is_cub_in UB nodes c -> is_candidate_in UB nodes c.
Proof.
  intros Hin Hc. split; [exact Hc |]. intros d Hd. apply Hd, Hin.
Qed.

Lemma over_no_candidate nodes :
  nodes <> [] ->
  (forall n, In n nodes -> PyDict.has_key n UB = true) ->
  (forall c, ~ is_candidate_in UB nodes c) ->
  least_upper_bound_over set_of UB nodes = Error (NoPromotionPath nodes).
Proof.
  intros Hne Hkeys Hnone.
  destruct (over_known nodes Hne Hkeys) as [CUB [_ [Hcub ->]]].
  destruct (PySet.inter CUB (set_of nodes)) as [| x rest] eqn:EI.
  - destruct (filter (fun c => PySet.issubset CUB (lookup_or_empty UB c)) CUB)
      as [| c L] eqn:EL; [reflexivity |].
    exfalso. apply (Hnone c).
    assert (Hc : In c (c :: L)) by (left; reflexivity).
    rewrite <- EL in Hc. apply filter_In in Hc. destruct Hc as [Hc Hsub].
    apply issubset_incl in Hsub. split; [apply Hcub, Hc |].
    intros d Hd. apply Hsub, Hcub, Hd.
  - exfalso. apply (Hnone x).
    assert (Hx : In x (x :: rest)) by (left; reflexivity).
    rewrite <- EI in Hx. apply inter_In in Hx. destruct Hx as [Hx HxN].
    apply input_cub_candidate; [apply set_of_In, HxN | apply Hcub, Hx].
Qed.

Lemma over_several_candidates nodes c c' :
  nodes <> [] ->
  (forall n, In n nodes -> PyDict.has_key n UB = true) ->
  (forall n, In n nodes -> ~ is_cub_in UB nodes n) ->
  c <> c' ->
  is_candidate_in UB nodes c -> is_candidate_in UB nodes c' ->
  exists options,
    least_upper_bound_over set_of UB nodes
    = Error (IllFormedLattice nodes options)
    /\ forall x, In x options <-> is_candidate_in UB nodes x.
Proof.
  intros Hne Hkeys Hslow Hneq Hc Hc'.
  destruct (over_known nodes Hne Hkeys) as [CUB [Hnd [Hcub ->]]].
  destruct (PySet.inter CUB (set_of nodes)) as [| x rest] eqn:EI.
  - set (L := filter (fun c => PySet.issubset CUB (lookup_or_empty UB c)) CUB).
    assert (HL : forall x, In x L <-> is_candidate_in UB nodes x).
    { intros x. unfold L. rewrite filter_In. split.
      - intros [Hx Hsub]. apply issubset_incl in Hsub.
        split; [apply Hcub, Hx |]. intros d Hd. apply Hsub, Hcub, Hd.
      - intros [Hx Hmin]. split; [apply Hcub, Hx |].
        apply issubset_incl. intros d Hd. apply Hmin, Hcub, Hd. }
    exists L. split; [| exact HL].
    apply HL in Hc, Hc'.
    destruct L as [| y [| z L']].
    + destruct Hc.
    + destruct Hc as [<- | []], Hc' as [<- | []]. elim Hneq. reflexivity.
    + reflexivity.
  - exfalso.
    assert (Hx : In x (x :: rest)) by (left; reflexivity).
    rewrite <- EI in Hx. apply inter_In in Hx. destruct Hx as [Hx HxN].
    apply (Hslow x); [apply set_of_In, HxN | apply Hcub, Hx].
Qed.

Lemma over_ok_candidate nodes c :
  least_upper_bound_over set_of UB nodes = Ok c ->
  nodes <> []
  /\ (forall n, In n nodes -> PyDict.has_key n UB = true)
  /\ is_candidate_in UB nodes c.
Proof.
  intros H.
  assert (Hne : nodes <> []).
  { intros ->. revert H. unfold least_upper_bound_over. cbv zeta.
    assert (E : set_of [] = []).
    { destruct (set_of []) as [| x l] eqn:E; [reflexivity |].
      exfalso. apply (proj1 (set_of_In [] x)). rewrite E. left. reflexivity. }
    rewrite E. cbn [mapM]. intros H. discriminate H. }
  assert (Hkeys : forall n, In n nodes -> PyDict.has_key n UB = true).
  { intros n Hn. destruct (PyDict.has_key n UB) eqn:E; [reflexivity |].
    destruct (find_unknown (fun n => negb (PyDict.has_key n UB))
                (set_of nodes) n) as [d Hd].
    - apply set_of_In, Hn.
    - rewrite E. reflexivity.
    - rewrite (over_unknown _ _ Hd) in H. discriminate H. }
  split; [exact Hne |]. split; [exact Hkeys |].
  destruct (over_known nodes Hne Hkeys) as [CUB [_ [Hcub E]]].
  rewrite E in H. clear E.
  destruct (PySet.inter CUB (set_of nodes)) as [| x rest] eqn:EI.
  - destruct (filter (fun c => PySet.issubset CUB (lookup_or_empty UB c)) CUB)
      as [| y [| z L]] eqn:EL; try discriminate H.
    injection H as <-.
    assert (Hy : In y [y]) by (left; reflexivity).
    rewrite <- EL in Hy. apply filter_In in Hy. destruct Hy as [Hy Hsub].
    apply issubset_incl in Hsub. split; [apply Hcub, Hy |].
    intros d Hd. apply Hsub, Hcub, Hd.
  - destruct rest as [| z rest]; [| discriminate H].
    injection H as <-.
    assert (Hx : In x [x]) by (left; reflexivity).
    rewrite <- EI in Hx. apply inter_In in Hx. destruct Hx as [Hx HxN].
    apply input_cub_candidate; [apply set_of_In, HxN | apply Hcub, Hx].
Qed.

Lemma over_unique_candidate nodes c :
  nodes <> [] ->
  (forall n, In n nodes -> PyDict.has_key n UB = true) ->
  is_candidate_in UB nodes c ->
  (forall c', is_candidate_in UB nodes c' -> c' = c) ->
  least_upper_bound_over set_of UB nodes = Ok c.
Proof.
  intros Hne Hkeys Hc Honly.
  destruct (over_known nodes Hne Hkeys) as [CUB [Hnd [Hcub ->]]].
  assert (Hshape : forall L,
             NoDup L -> (forall x, In x L -> is_candidate_in UB nodes x) ->
             L = [] \/ L = [c]).
  { intros L HndL HL. destruct (NoDup_all_equal L HndL) as [E | [x E]].
    - intros a b Ha Hb. rewrite (Honly a (HL a Ha)), (Honly b (HL b Hb)).
      reflexivity.
    - left. exact E.
    - right. rewrite E. f_equal. apply Honly, HL. rewrite E. left.
      reflexivity. }
  destruct (PySet.inter CUB (set_of nodes)) as [| x rest] eqn:EI.
  - destruct (Hshape (filter (fun c => PySet.issubset CUB
                                         (lookup_or_empty UB c)) CUB))
      as [E | E].
    + apply NoDup_filter, Hnd.
    + intros x Hx. apply filter_In in Hx. destruct Hx as [Hx Hsub].
      apply issubset_incl in Hsub. split; [apply Hcub, Hx |].
      intros d Hd. apply Hsub, Hcub, Hd.
    + exfalso.
      assert (Hin : In c (filter (fun c => PySet.issubset CUB
                                            (lookup_or_empty UB c)) CUB)).
      { apply filter_In. destruct Hc as [Hc Hmin].
        split; [apply Hcub, Hc |]. apply issubset_incl.
        intros d Hd. apply Hmin, Hcub, Hd. }
      rewrite E in Hin. destruct Hin.
    + rewrite E. reflexivity.
  - destruct (Hshape (x :: rest)) as [E | E].
    + rewrite <- EI. apply inter_NoDup, Hnd.
    + intros y Hy. rewrite <- EI in Hy. apply inter_In in Hy.
      destruct Hy as [Hy HyN].
      apply input_cub_candidate; [apply set_of_In, HyN | apply Hcub, Hy].
    + discriminate E.
    + rewrite E. reflexivity.
Qed.

(** The set the last lines look at, without the order of iteration: the
    input nodes that are common upper bounds if there are any, the
    candidates otherwise. *)
Lemma over_lub nodes :
  nodes <> [] ->
  (forall n, In n nodes -> PyDict.has_key n UB = true) ->
  exists LUB,
    NoDup LUB
    /\ (forall x, In x LUB <-> in_lub UB nodes x)
    /\ least_upper_bound_over set_of UB nodes = pop_unique nodes LUB.
Proof.
  intros Hne Hkeys.
  destruct (over_known nodes Hne Hkeys) as [CUB [Hnd [Hcub ->]]].
  assert (Hinter : forall x, In x (PySet.inter CUB (set_of nodes))
                             <-> is_cub_in UB nodes x /\ In x nodes).
  { intros x. rewrite inter_In, Hcub, set_of_In. reflexivity. }
  destruct (PySet.inter CUB (set_of nodes)) as [| x rest] eqn:EI.
  - assert (Hslow : forall n, In n nodes -> ~ is_cub_in UB nodes n).
    { intros n Hn Hc. apply (proj2 (Hinter n)). split; [exact Hc | exact Hn]. }
    exists (filter (fun c => PySet.issubset CUB (lookup_or_empty UB c)) CUB).
    split; [apply NoDup_filter, Hnd |]. split; [| reflexivity].
    intros x. rewrite filter_In. unfold in_lub. split.
    + intros [Hx Hsub]. right. split; [exact Hslow |].
      apply issubset_incl in Hsub. split; [apply Hcub, Hx |].
      intros d Hd. apply Hsub, Hcub, Hd.
    + intros [[Hx Hn] | [_ [Hx Hmin]]].
      * elim (Hslow x Hn Hx).
      * split; [apply Hcub, Hx |]. apply issubset_incl.
        intros d Hd. apply Hmin, Hcub, Hd.
  - exists (x :: rest). split; [rewrite <- EI; apply inter_NoDup, Hnd |].
    split; [| reflexivity].
    intros y. rewrite Hinter. unfold in_lub. split.
    + intros H. left. exact H.
    + intros [H | [Hslow _]]; [exact H |].
      destruct (proj1 (Hinter x) (or_introl eq_refl)) as [Hx Hn].
      elim (Hslow x Hn Hx).
Qed.

Lemma over_slow_unique nodes c :
  (forall n, In n nodes -> ~ is_cub_in UB nodes n) ->
  least_upper_bound_over set_of UB nodes = Ok c ->
  forall c', is_candidate_in UB nodes c' -> c' = c.
Proof.
  intros Hslow H c' Hc'.
  destruct (over_ok_candidate nodes c H) as [Hne [Hkeys _]].
  destruct (over_lub nodes Hne Hkeys) as [LUB [_ [HL E]]].
  rewrite E in H. clear E.
  assert (Hin : In c' LUB)
    by (apply HL; right; split; [exact Hslow | exact Hc']).
  destruct LUB as [| y [| z L]]; try discriminate H.
  injection H as <-. destruct Hin as [<- | []]. reflexivity.
Qed.

End Over.

(** What is returned does not depend on the order of iteration. *)
Lemma over_order set_of set_of' UB nodes c :
  (forall l x, In x (set_of l) <-> In x l) ->
  (forall l x, In x (set_of' l) <-> In x l) ->
  (forall n ub, PyDict.lookup n UB = Some ub -> NoDup ub) ->
  (forall n ub c,
      PyDict.lookup n UB = Some ub -> In c ub ->
      PyDict.has_key c UB = true) ->
  least_upper_bound_over set_of UB nodes = Ok c ->
  least_upper_bound_over set_of' UB nodes = Ok c.
Proof.
  intros Hin Hin' Hnd Hclosed H.
  destruct (over_ok_candidate set_of Hin UB Hnd Hclosed nodes c H)
    as [Hne [Hkeys _]].
  destruct (over_lub set_of Hin UB Hnd Hclosed nodes Hne Hkeys)
    as [LUB [_ [HL E]]].
  destruct (over_lub set_of' Hin' UB Hnd Hclosed nodes Hne Hkeys)
    as [LUB' [Hnd' [HL' E']]].
  rewrite E in H. rewrite E'. clear E E'.
  destruct LUB as [| y [| z L]]; try discriminate H.
  injection H as <-.
  assert (Hmem : forall x, In x LUB' <-> x = y).
  { intros x. rewrite HL', <- HL. split.
    - intros [<- | []]. reflexivity.
    - intros ->. left. reflexivity. }
  destruct (NoDup_all_equal LUB' Hnd') as [E | [x E]].
  - intros a b Ha Hb. apply Hmem in Ha, Hb. rewrite Ha, Hb. reflexivity.
  - exfalso. assert (Hy : In y LUB') by (apply Hmem; reflexivity).
    rewrite E in Hy. destruct Hy.
  - assert (Hx : In x LUB') by (rewrite E; left; reflexivity).
    apply Hmem in Hx. rewrite E, Hx. reflexivity.
Qed.

(** C4.  [least_upper_bound_over] is the body of [_least_upper_bound] with
    its table and the iteration order of [set(nodes)] as parameters, and
    [_least_upper_bound] is its value at the built table.  For any order
    and any table: a node without an entry makes the function raise
    [UnknownDtype], naming the first such node in the iteration order of
    the set of the inputs.  For a table of sets whose members have
    entries and with every input known: no candidate gives
    [NoPromotionPath] with the input nodes; several candidates, when no
    input node is itself a common upper bound (the case the shortcut of
    the function leaves), give [IllFormedLattice] with the candidates as
    options, and what is returned in that case is the only candidate; a
    candidate that is the only one is returned, whatever is returned is a
    candidate, and it is returned under any other order of iteration as
    well.  Over the table as built whatever is returned is the one
    candidate there is.  The last branch of the function raises
    [IllFormedLattice] for any set of more than one element. *)
Theorem least_upper_bound_outcomes :
  forall (set_of : list string -> list string)
         (UB : PyDict.t (list string)) (nodes : list string),
    (forall l x, In x (set_of l) <-> In x l) ->
    let unknown := fun n => negb (PyDict.has_key n UB) in
    (forall d,
        find unknown (set_of nodes) = Some d ->
        least_upper_bound_over set_of UB nodes = Error (UnknownDtype d))
    /\ (forall n,
          In n nodes -> PyDict.has_key n UB = false ->
          exists d,
            find unknown (set_of nodes) = Some d
            /\ In d nodes
            /\ PyDict.has_key d UB = false
            /\ least_upper_bound_over set_of UB nodes
               = Error (UnknownDtype d))
    /\ ((forall n ub, PyDict.lookup n UB = Some ub -> NoDup ub) ->
        (forall n ub c,
            PyDict.lookup n UB = Some ub -> In c ub ->
            PyDict.has_key c UB = true) ->
        nodes <> [] ->
        (forall n, In n nodes -> PyDict.has_key n UB = true) ->
        ((forall c, ~ is_candidate_in UB nodes c) ->
         least_upper_bound_over set_of UB nodes
         = Error (NoPromotionPath nodes))
        /\ ((forall n, In n nodes -> ~ is_cub_in UB nodes n) ->
            (forall c c',
                c <> c' ->
                is_candidate_in UB nodes c -> is_candidate_in UB nodes c' ->
                exists options,
                  least_upper_bound_over set_of UB nodes
                  = Error (IllFormedLattice nodes options)
                  /\ forall x, In x options <-> is_candidate_in UB nodes x)
            /\ (forall c,
                  least_upper_bound_over set_of UB nodes = Ok c ->
                  forall c', is_candidate_in UB nodes c' -> c' = c))
        /\ (forall c,
              is_candidate_in UB nodes c ->
              (forall c', is_candidate_in UB nodes c' -> c' = c) ->
              least_upper_bound_over set_of UB nodes = Ok c)
        /\ (forall c,
              least_upper_bound_over set_of UB nodes = Ok c ->
              is_candidate_in UB nodes c)
        /\ (forall set_of' c,
              (forall l x, In x (set_of' l) <-> In x l) ->
              least_upper_bound_over set_of UB nodes = Ok c ->
              least_upper_bound_over set_of' UB nodes = Ok c))
    /\ (_least_upper_bound nodes
        = least_upper_bound_over PySet.of_list LATTICE_UPPER_BOUNDS nodes
        /\ forall c,
             _least_upper_bound nodes = Ok c ->
             is_candidate nodes c
             /\ forall c', is_candidate nodes c' -> c' = c)
    /\ (forall LUB,
          1 < List.length LUB ->
          pop_unique nodes LUB = Error (IllFormedLattice nodes LUB)).
Proof.
  intros set_of UB nodes Hin unknown.
  split; [| split; [| split; [| split]]].
  - intros d Hd. apply (over_unknown set_of UB nodes d Hd).
  - intros n Hn Hkey.
    destruct (find_unknown unknown (set_of nodes) n) as [d Hd].
    + apply Hin, Hn.
    + unfold unknown. rewrite Hkey. reflexivity.
    + exists d. pose proof (find_some _ _ Hd) as [Hdin Hd'].
      unfold unknown in Hd'. apply negb_true_iff in Hd'.
      split; [exact Hd |]. split; [apply (proj1 (Hin nodes d)), Hdin |].
      split; [exact Hd' |]. apply (over_unknown set_of UB nodes d Hd).
  - intros Hub_nd Hub_closed Hne Hkeys.
    split; [| split; [| split; [| split]]].
    + apply (over_no_candidate set_of Hin UB Hub_nd Hub_closed nodes Hne Hkeys).
    + intros Hslow. split.
      * intros c c'.
        apply (over_several_candidates set_of Hin UB Hub_nd Hub_closed
                 nodes c c' Hne Hkeys Hslow).
      * intros c.
        apply (over_slow_unique set_of Hin UB Hub_nd Hub_closed nodes c Hslow).
    + intros c.
      apply (over_unique_candidate set_of Hin UB Hub_nd Hub_closed
               nodes c Hne Hkeys).
    + intros c Hc.
      apply (over_ok_candidate set_of Hin UB Hub_nd Hub_closed nodes c Hc).
    + intros set_of' c Hin'.
      apply (over_order set_of set_of' UB nodes c Hin Hin' Hub_nd Hub_closed).
  - split; [apply least_upper_bound_over_production |].
    intros c Hc. pose proof (least_upper_bound_ok_candidate _ _ Hc) as Hcand.
    split; [exact Hcand |].
    intros c' Hc'. eapply candidate_unique; eassumption.
  - intros LUB Hlen. destruct LUB as [| x [| y LUB]]; simpl in Hlen;
      [lia | lia | reflexivity].
Qed.

Lemma least_upper_bound_outcomes_witness :
  least_upper_bound_over (fun l => rev (PySet.of_list l))
    LATTICE_UPPER_BOUNDS ["foo"; "int64"; "bar"]
  = Error (UnknownDtype "bar")
  /\ least_upper_bound_over PySet.of_list [("a", ["a"]); ("b", ["b"])]
       ["a"; "b"]
     = Error (NoPromotionPath ["a"; "b"])
  /\ (exists options,
        least_upper_bound_over PySet.of_list
          [("a", ["a"; "c"; "d"]); ("b", ["b"; "c"; "d"]);
           ("c", ["c"; "d"]); ("d", ["c"; "d"])]
          ["a"; "b"]
        = Error (IllFormedLattice ["a"; "b"] options)
        /\ forall x,
             In x options
             <-> is_candidate_in
                   [("a", ["a"; "c"; "d"]); ("b", ["b"; "c"; "d"]);
                    ("c", ["c"; "d"]); ("d", ["c"; "d"])]
                   ["a"; "b"] x)
  /\ is_candidate ["uint64"; "int64"] "float"
  /\ pop_unique ["x"; "y"] ["x"; "y"]
     = Error (IllFormedLattice ["x"; "y"] ["x"; "y"]).
Proof.
  assert (Hrev_in : forall l x, In x (rev (PySet.of_list l)) <-> In x l)
    by (intros l x; rewrite <- in_rev; apply of_list_In).
  assert (Hof_in : forall l x, In x (PySet.of_list l) <-> In x l)
    by (intros l x; apply of_list_In).
  assert (Htable : forall (T : PyDict.t (list string)),
             forallb (fun e => nodupb (snd e)
                               && forallb (fun c => PyDict.has_key c T)
                                    (snd e)) T = true ->
             (forall n ub, PyDict.lookup n T = Some ub -> NoDup ub)
             /\ (forall n ub c,
                   PyDict.lookup n T = Some ub -> In c ub ->
                   PyDict.has_key c T = true)).
  { intros T HT. rewrite forallb_forall in HT. split.
    - intros n ub Hl. apply lookup_In in Hl. apply HT in Hl.
      cbn [snd] in Hl. apply andb_prop in Hl. destruct Hl as [Hl _].
      apply nodupb_NoDup, Hl.
    - intros n ub c Hl Hc. apply lookup_In in Hl. apply HT in Hl.
      cbn [snd] in Hl. apply andb_prop in Hl. destruct Hl as [_ Hl].
      rewrite forallb_forall in Hl. apply Hl, Hc. }
  split; [| split; [| split; [| split]]].
  - apply (proj1 (least_upper_bound_outcomes (fun l => rev (PySet.of_list l))
                    LATTICE_UPPER_BOUNDS ["foo"; "int64"; "bar"]
                    Hrev_in)).
    vm_compute. reflexivity.
  - destruct (Htable [("a", ["a"]); ("b", ["b"])] eq_refl) as [Hn Hc].
    destruct (proj1 (proj2 (proj2
                (least_upper_bound_outcomes PySet.of_list
                   [("a", ["a"]); ("b", ["b"])] ["a"; "b"]
                   Hof_in))) Hn Hc) as [Hnone _].
    + intros E. discriminate E.
    + intros n [<- | [<- | []]]; reflexivity.
    + apply Hnone. intros c [Hcub _].
      pose proof (Hcub "a" (or_introl eq_refl)) as Ha.
      pose proof (Hcub "b" (or_intror (or_introl eq_refl))) as Hb.
      cbn in Ha, Hb. destruct Ha as [<- | []], Hb as [E | []].
      discriminate E.
  - set (T := [("a", ["a"; "c"; "d"]); ("b", ["b"; "c"; "d"]);
               ("c", ["c"; "d"]); ("d", ["c"; "d"])]).
    destruct (Htable T eq_refl) as [Hn Hc].
    destruct (proj1 (proj2 (proj2
                (least_upper_bound_outcomes PySet.of_list T ["a"; "b"]
                   Hof_in))) Hn Hc) as [_ [Hseveral _]].
    + intros E. discriminate E.
    + intros n [<- | [<- | []]]; reflexivity.
    + assert (Hcand : forall x, x = "c" \/ x = "d" ->
                                is_candidate_in T ["a"; "b"] x).
      { intros x Hx. split.
        - intros n [<- | [<- | []]]; cbn; destruct Hx as [-> | ->]; tauto.
        - intros y Hy.
          pose proof (Hy "a" (or_introl eq_refl)) as Ha.
          pose proof (Hy "b" (or_intror (or_introl eq_refl))) as Hb.
          cbn in Ha, Hb.
          destruct Hx as [-> | ->]; cbn;
            destruct Ha as [<- | [<- | [<- | []]]]; try tauto;
            destruct Hb as [E | [E | [E | []]]]; discriminate E. }
      assert (Hslow : forall n, In n ["a"; "b"] ->
                                ~ is_cub_in T ["a"; "b"] n).
      { intros n [<- | [<- | []]] Hcub.
        - pose proof (Hcub "b" (or_intror (or_introl eq_refl))) as H.
          cbn in H. destruct H as [E | [E | [E | []]]]; discriminate E.
        - pose proof (Hcub "a" (or_introl eq_refl)) as H.
          cbn in H. destruct H as [E | [E | [E | []]]]; discriminate E. }
      apply (proj1 (Hseveral Hslow) "c" "d").
      * intros E. discriminate E.
      * apply Hcand. left. reflexivity.
      * apply Hcand. right. reflexivity.
  - apply (proj2 (proj1 (proj2 (proj2 (proj2
             (least_upper_bound_outcomes PySet.of_list LATTICE_UPPER_BOUNDS
                ["uint64"; "int64"] Hof_in))))) "float").
    vm_compute. reflexivity.
  - apply (proj2 (proj2 (proj2 (proj2
             (least_upper_bound_outcomes PySet.of_list LATTICE_UPPER_BOUNDS
                ["x"; "y"] Hof_in))))).
    simpl. lia.
Defined.

(** ** Order of the arguments *)

Lemma same_kind_refl e : same_kind e e.
Proof. destruct e; exact I. Qed.

Lemma same_outcome_refl {A : Type} (r : result A) : same_outcome r r.
Proof. destruct r; [reflexivity | apply same_kind_refl]. Qed.

Lemma same_outcome_bind {A B : Type} (r r' : result A)
    (k : A -> result B) :
  same_outcome r r' -> same_outcome (bind r k) (bind r' k).
Proof.
  destruct r as [a | e], r' as [a' | e']; cbn [same_outcome bind];
    intros H; try contradiction.
  - subst. apply same_outcome_refl.
  - exact H.
Qed.

Lemma is_candidate_same_members l l' c :
  (forall x, In x l <-> In x l') ->
  is_candidate l c -> is_candidate l' c.
Proof.
  intros Hsame [Hcub Hmin]. split.
  - intros n Hn. apply Hcub, Hsame, Hn.
  - intros d Hd. apply Hmin. intros n Hn. apply Hd, Hsame, Hn.
Qed.

Lemma least_upper_bound_unknown_exists nodes n :
  In n nodes -> PyDict.has_key n LATTICE_UPPER_BOUNDS = false ->
  exists d, _least_upper_bound nodes = Error (UnknownDtype d).
Proof.
  intros Hn Hkey.
  destruct (find_unknown
              (fun n => negb (PyDict.has_key n LATTICE_UPPER_BOUNDS))
              (PySet.of_list nodes) n) as [d Hd].
  - apply of_list_In, Hn.
  - rewrite Hkey. reflexivity.
  - exists d. apply least_upper_bound_unknown, Hd.
Qed.

(** The outcome depends on the set of the nodes only. *)
Lemma least_upper_bound_same_members l l' :
  (forall x, In x l <-> In x l') ->
  same_outcome (_least_upper_bound l) (_least_upper_bound l').
Proof.
  intros Hsame.
  assert (Hsame' : forall x, In x l' <-> In x l)
    by (intros x; symmetry; apply Hsame).
  destruct l as [| a l].
  { destruct l' as [| a' l']; [apply same_outcome_refl |].
    exfalso. apply (proj2 (Hsame a')). left. reflexivity. }
  destruct l' as [| a' l'].
  { exfalso. apply (proj1 (Hsame a)). left. reflexivity. }
  set (unknown := fun n => negb (PyDict.has_key n LATTICE_UPPER_BOUNDS)).
  destruct (existsb unknown (a :: l)) eqn:E.
  - apply existsb_exists in E. destruct E as [n [Hn Hkey]].
    unfold unknown in Hkey. apply negb_true_iff in Hkey.
    destruct (least_upper_bound_unknown_exists _ n Hn Hkey) as [d Hd].
    destruct (least_upper_bound_unknown_exists _ n (proj1 (Hsame n) Hn) Hkey)
      as [d' Hd'].
    rewrite Hd, Hd'. exact I.
  - assert (Hkeys : forall n, In n (a :: l) ->
                      PyDict.has_key n LATTICE_UPPER_BOUNDS = true).
    { intros n Hn.
      destruct (PyDict.has_key n LATTICE_UPPER_BOUNDS) eqn:Hk;
        [reflexivity |].
      assert (Hex : existsb unknown (a :: l) = true).
      { apply existsb_exists. exists n. split; [exact Hn |].
        unfold unknown. rewrite Hk. reflexivity. }
      rewrite Hex in E. discriminate E. }
    assert (Hkeys' : forall n, In n (a' :: l') ->
                       PyDict.has_key n LATTICE_UPPER_BOUNDS = true)
      by (intros n Hn; apply Hkeys, Hsame, Hn).
    destruct (least_upper_bound_spec (a :: l)) as [[c [Hc Hcand]] | [He Hno]];
      [intros H; discriminate H | exact Hkeys | |];
      (destruct (least_upper_bound_spec (a' :: l'))
        as [[c' [Hc' Hcand']] | [He' Hno']];
       [intros H; discriminate H | exact Hkeys' | |]).
    + rewrite Hc, Hc'. cbn [same_outcome].
      apply (candidate_unique (a :: l)); [exact Hcand |].
      apply (is_candidate_same_members _ _ _ Hsame'), Hcand'.
    + exfalso. apply (Hno' c).
      apply (is_candidate_same_members _ _ _ Hsame), Hcand.
    + exfalso. apply (Hno c').
      apply (is_candidate_same_members _ _ _ Hsame'), Hcand'.
    + rewrite He, He'. exact I.
Qed.

Lemma least_upper_bound_perm l l' :
  Permutation l l' ->
  same_outcome (_least_upper_bound l) (_least_upper_bound l').
Proof.
  intros Hp. apply least_upper_bound_same_members. intros x. split.
  - apply Permutation_in, Hp.
  - apply Permutation_in, Permutation_sym, Hp.
Qed.

Lemma least_upper_bound_singleton n :
  In n (BOOL_TYPES ++ INT_TYPES ++ FLOAT_TYPES ++ COMPLEX_TYPES ++ WEAK_TYPES) ->
  _least_upper_bound [n] = Ok n.
Proof.
  intros H. cbn in H.
  repeat (destruct H as [<- | H]; [vm_compute; reflexivity |]).
  destruct H.
Qed.

Lemma mapM_error_source {A B : Type} (f : A -> result B) l e :
  mapM f l = Error e -> exists a, f a = Error e.
Proof.
  induction l as [| x l IH]; cbn [mapM]; [intros H; discriminate H |].
  destruct (f x) as [b | ex] eqn:Ex; cbn [bind].
  - destruct (mapM f l) as [bs | el]; cbn [bind]; intros H.
    + discriminate H.
    + injection H as <-. apply IH. reflexivity.
  - intros H. injection H as <-. exists x. exact Ex.
Qed.

Lemma mapM_perm {A B : Type} (f : A -> result B) l l' :
  Permutation l l' -> perm_related f (mapM f l) (mapM f l').
Proof.
  induction 1 as [| x l l' Hp IH | x y l | l l' l'' Hp IH Hp' IH'].
  - apply perm_nil.
  - cbn [mapM]. destruct (f x) as [b | e] eqn:Ex; cbn [bind].
    + unfold perm_related in IH |- *.
      destruct (mapM f l) as [bs | el], (mapM f l') as [bs' | el'];
        cbn [bind]; try contradiction.
      * apply perm_skip, IH.
      * exact IH.
    + split; exists x; exact Ex.
  - cbn [mapM].
    destruct (f x) as [bx | ex] eqn:Ex, (f y) as [b_y | ey] eqn:Ey;
      cbn [bind].
    + destruct (mapM f l) as [bs | el] eqn:El; cbn [bind perm_related].
      * apply perm_swap.
      * split; apply (mapM_error_source f l), El.
    + split; exists y; exact Ey.
    + split; exists x; exact Ex.
    + split; [exists y; exact Ey | exists x; exact Ex].
  - unfold perm_related in IH, IH' |- *.
    destruct (mapM f l) as [bs | e], (mapM f l') as [bs' | e'],
      (mapM f l'') as [bs'' | e'']; try contradiction.
    + eapply Permutation_trans; eassumption.
    + split; [apply IH | apply IH'].
Qed.

Lemma forallb_perm {A : Type} (p : A -> bool) l l' :
  Permutation l l' -> forallb p l = forallb p l'.
Proof.
  intros Hp. apply eq_true_iff_eq. rewrite !forallb_forall. split.
  - intros H x Hx. apply H. eapply Permutation_in;
      [apply Permutation_sym, Hp | exact Hx].
  - intros H x Hx. apply H. eapply Permutation_in; [apply Hp | exact Hx].
Qed.

Lemma all_perm l l' : Permutation l l' -> all l = all l'.
Proof. apply forallb_perm. Qed.

Lemma of_list_perm_length l l' :
  Permutation l l' ->
  List.length (PySet.of_list l) = List.length (PySet.of_list l').
Proof.
  intros Hp. apply same_elements_length; try apply of_list_NoDup.
  intros x. rewrite !of_list_In. split.
  - apply Permutation_in, Hp.
  - apply Permutation_in, Permutation_sym, Hp.
Qed.

Lemma of_list_single l x y :
  List.length (PySet.of_list l) = 1 -> In x l -> In y l -> x = y.
Proof.
  intros Hlen Hx Hy. apply of_list_In in Hx, Hy.
  destruct (PySet.of_list l) as [| z [| z' s]]; try discriminate Hlen.
  destruct Hx as [<- | []], Hy as [<- | []]. reflexivity.
Qed.

Lemma mapM_respect_strong l :
  mapM (fun d => _respect_weak_type d false) l = Ok l.
Proof.
  induction l as [| d l IH]; [reflexivity |].
  cbn [mapM]. change (_respect_weak_type d false) with (Ok d).
  cbn [bind]. rewrite IH. reflexivity.
Qed.

Lemma respect_weak_type_error d w e :
  _respect_weak_type d w = Error e -> e = InvalidDtype d.
Proof.
  unfold _respect_weak_type.
  destruct w; [| intros H; discriminate H].
  destruct (String.eqb d "bool"); [intros H; discriminate H |].
  destruct (PyStr.contains "float" d); [intros H; discriminate H |].
  destruct (PyStr.contains "int" d); intros H; [discriminate H |].
  injection H as <-. reflexivity.
Qed.

Section AmbientFacts.

Variable floatx : string.
Variables python_int python_float : string.

Lemma standardize_dtype_error v e :
  standardize_dtype floatx python_int python_float v = Error e ->
  exists dtype, e = InvalidDtype dtype.
Proof.
  unfold standardize_dtype.
  match goal with |- context [PySet.mem ?d ALLOWED_DTYPES] =>
    destruct (PySet.mem d ALLOWED_DTYPES); intros H;
    [discriminate H | injection H as <-; now exists d]
  end.
Qed.

Lemma dtype_and_weaktype_error v e :
  _dtype_and_weaktype floatx python_int python_float v = Error e ->
  exists dtype, e = InvalidDtype dtype.
Proof.
  unfold _dtype_and_weaktype.
  destruct (standardize_dtype floatx python_int python_float v)
    as [d | e'] eqn:E; cbn [bind]; intros H; [discriminate H |].
  injection H as <-. eapply standardize_dtype_error, E.
Qed.

Lemma promote_pairs_perm pairs pairs' :
  Permutation pairs pairs' ->
  same_outcome (promote_pairs floatx pairs) (promote_pairs floatx pairs').
Proof.
  intros Hp.
  destruct pairs as [| [d0 w0] rest].
  { apply Permutation_nil in Hp. subst. apply same_outcome_refl. }
  destruct pairs' as [| [d0' w0'] rest'].
  { apply Permutation_sym, Permutation_nil in Hp. discriminate Hp. }
  unfold promote_pairs. cbv zeta.
  set (P := (d0, w0) :: rest) in *. set (P' := (d0', w0') :: rest') in *.
  assert (Hd : Permutation (map fst P) (map fst P'))
    by apply Permutation_map, Hp.
  assert (Hw : Permutation (map snd P) (map snd P'))
    by apply Permutation_map, Hp.
  rewrite <- (Permutation_length Hd), <- (of_list_perm_length _ _ Hd).
  rewrite <- (all_perm _ _ Hw).
  destruct (Nat.eqb (List.length (map fst P)) 1) eqn:E1.
  - (* a single input *)
    apply Nat.eqb_eq in E1. rewrite length_map in E1.
    subst P P'. destruct rest as [| p rest]; [| discriminate E1].
    apply Permutation_length_1_inv in Hp.
    injection Hp as -> -> ->. apply same_outcome_refl.
  - destruct (Nat.eqb (List.length (PySet.of_list (map fst P))) 1
              && negb (all (map snd P))) eqn:E2.
    + (* the trivial promotion *)
      apply andb_prop in E2. destruct E2 as [E2 _]. apply Nat.eqb_eq in E2.
      assert (Heq : d0 = d0').
      { apply (of_list_single (map fst P)); [exact E2 | left; reflexivity |].
        eapply Permutation_in; [apply Permutation_sym, Hd |].
        left. reflexivity. }
      subst d0'. apply same_outcome_refl.
    + assert (Hmem : forall l l' : list string,
                 Permutation l l' ->
                 forall x, In x (PySet.of_list l) <-> In x (PySet.of_list l')).
      { intros l l' Hl x. rewrite !of_list_In. split.
        - apply Permutation_in, Hl.
        - apply Permutation_in, Permutation_sym, Hl. }
      apply same_outcome_bind.
      destruct (all (map snd P)) eqn:E3.
      * (* every input weak *)
        rewrite !mapM_respect_strong. cbn [bind].
        apply same_outcome_bind, least_upper_bound_same_members, Hmem, Hd.
      * (* weak and strong inputs *)
        pose proof (mapM_perm
                      (fun dw => _respect_weak_type (fst dw) (snd dw))
                      P P' Hp) as Hn.
        unfold perm_related in Hn.
        destruct (mapM (fun dw => _respect_weak_type (fst dw) (snd dw)) P)
          as [nodes | e];
          destruct (mapM (fun dw => _respect_weak_type (fst dw) (snd dw)) P')
          as [nodes' | e']; try contradiction; cbn [bind].
        -- apply same_outcome_bind, least_upper_bound_same_members, Hmem, Hn.
        -- destruct Hn as [[a Ha] [a' Ha']].
           apply respect_weak_type_error in Ha, Ha'. subst. exact I.
Qed.

Lemma lattice_result_type_perm args args' :
  Permutation args args' ->
  same_outcome (_lattice_result_type floatx python_int python_float args)
    (_lattice_result_type floatx python_int python_float args').
Proof.
  intros Hp. unfold _lattice_result_type.
  pose proof (mapM_perm (_dtype_and_weaktype floatx python_int python_float)
                args args' Hp) as Hm.
  unfold perm_related in Hm.
  destruct (mapM (_dtype_and_weaktype floatx python_int python_float) args)
    as [pairs | e];
    destruct (mapM (_dtype_and_weaktype floatx python_int python_float) args')
    as [pairs' | e']; try contradiction; cbn [bind].
  - apply promote_pairs_perm, Hm.
  - destruct Hm as [[a Ha] [a' Ha']].
    apply dtype_and_weaktype_error in Ha, Ha'.
    destruct Ha as [d ->], Ha' as [d' ->]. exact I.
Qed.

Lemma result_type_perm args args' :
  Permutation args args' ->
  same_outcome (result_type floatx python_int python_float args)
    (result_type floatx python_int python_float args').
Proof.
  intros Hp. unfold result_type.
  rewrite <- (Permutation_length Hp).
  destruct (Nat.eqb (List.length args) 0); [reflexivity |].
  apply lattice_result_type_perm, Permutation_map, Hp.
Qed.

End AmbientFacts.

(** C5.  On every node of the vocabulary, concrete names and weak
    categories alike, the least upper bound of the node alone is the node.
    The least upper bound does not depend on the order of its arguments,
    and neither does [result_type]: two orders of the same inputs return
    the same dtype, or raise exceptions of the same kind. *)
Theorem least_upper_bound_singleton_commutative :
  forall floatx python_int python_float,
    Forall (fun n => _least_upper_bound [n] = Ok n)
      (BOOL_TYPES ++ INT_TYPES ++ FLOAT_TYPES ++ COMPLEX_TYPES ++ WEAK_TYPES)
    /\ (forall nodes nodes',
          Permutation nodes nodes' ->
          same_outcome (_least_upper_bound nodes) (_least_upper_bound nodes'))
    /\ (forall args args',
          Permutation args args' ->
          same_outcome (result_type floatx python_int python_float args)
            (result_type floatx python_int python_float args')).
Proof.
  intros floatx python_int python_float. split; [| split].
  - apply Forall_forall. intros n Hn. apply least_upper_bound_singleton, Hn.
  - apply least_upper_bound_perm.
  - apply result_type_perm.
Qed.

Lemma least_upper_bound_singleton_commutative_witness :
  _least_upper_bound ["complex"] = Ok "complex"
  /\ same_outcome (_least_upper_bound ["uint64"; "int64"])
       (_least_upper_bound ["int64"; "uint64"])
  /\ same_outcome
       (result_type "float32" "int32" "float32" [Named "bool"; PyInt])
       (result_type "float32" "int32" "float32" [PyInt; Named "bool"]).
Proof.
  destruct (least_upper_bound_singleton_commutative
              "float32" "int32" "float32") as [Hone [Hlub Hres]].
  split; [| split].
  - rewrite Forall_forall in Hone. apply Hone. cbn. tauto.
  - apply Hlub, perm_swap.
  - apply Hres, perm_swap.
Defined.

(** ** Weak types *)

(** C6.  [_respect_weak_type] returns the dtype unchanged when the weak
    flag is off.  With the flag on it returns "bool" for "bool", the weak
    float category for each floating-point name, the weak int category for
    each integer name, raises [InvalidDtype] for the complex names and
    the weak complex category, and never returns the weak complex
    category: on any string it returns "bool", the weak float or the weak
    int category, or raises [InvalidDtype]. *)
Theorem respect_weak_type_cases :
  (forall dtype, _respect_weak_type dtype false = Ok dtype)
  /\ _respect_weak_type "bool" true = Ok "bool"
  /\ Forall (fun d => _respect_weak_type d true = Ok "float") FLOAT_TYPES
  /\ Forall (fun d => _respect_weak_type d true = Ok "int") INT_TYPES
  /\ Forall (fun d => _respect_weak_type d true = Error (InvalidDtype d))
       (COMPLEX_TYPES ++ ["complex"])
  /\ (forall dtype,
        _respect_weak_type dtype true <> Ok "complex"
        /\ (_respect_weak_type dtype true = Ok "bool" /\ dtype = "bool"
            \/ _respect_weak_type dtype true = Ok "float"
            \/ _respect_weak_type dtype true = Ok "int"
            \/ _respect_weak_type dtype true = Error (InvalidDtype dtype))).
Proof.
  split; [reflexivity |]. split; [reflexivity |].
  split; [repeat constructor |]. split; [repeat constructor |].
  split; [repeat constructor |].
  intros dtype. unfold _respect_weak_type.
  destruct (String.eqb dtype "bool") eqn:E.
  - apply String.eqb_eq in E. subst. split; [intros H; discriminate H |].
    left. split; reflexivity.
  - destruct (PyStr.contains "float" dtype);
      [split; [intros H; discriminate H | right; left; reflexivity] |].
    destruct (PyStr.contains "int" dtype);
      (split; [intros H; discriminate H |]).
    + right. right. left. reflexivity.
    + right. right. right. reflexivity.
Qed.

Lemma respect_weak_type_cases_witness :
  _respect_weak_type "complex64" true <> Ok "complex".
Proof.
  apply (proj2 (proj2 (proj2 (proj2 (proj2 respect_weak_type_cases))))
           "complex64").
Defined.

(** ** Result types *)

(** C7.  The listed values of [result_type]: two "int32" give "int32",
    "int64" with "float64" gives "float64", "float64" with "complex64"
    gives "complex128", and "float32" with the Python type [float] gives
    "float32", whichever floating-point name the backend standardizes
    [float] to. *)
Theorem result_type_examples :
  forall floatx python_int python_float,
    result_type floatx python_int python_float
      [Named "int32"; Named "int32"] = Ok "int32"
    /\ result_type floatx python_int python_float
         [Named "int64"; Named "float64"] = Ok "float64"
    /\ result_type floatx python_int python_float
         [Named "float64"; Named "complex64"] = Ok "complex128"
    /\ (In python_float FLOAT_TYPES ->
        result_type floatx python_int python_float
          [Named "float32"; PyFloat] = Ok "float32").
Proof.
  intros floatx python_int python_float.
  split; [vm_compute; reflexivity |].
  split; [vm_compute; reflexivity |].
  split; [vm_compute; reflexivity |].
  intros H. cbn in H.
  repeat (destruct H as [<- | H]; [vm_compute; reflexivity |]).
  destruct H.
Qed.

Lemma result_type_examples_witness :
  result_type "float64" "int32" "float32" [Named "float32"; PyFloat]
  = Ok "float32".
Proof.
  apply (proj2 (proj2 (proj2
           (result_type_examples "float64" "int32" "float32")))).
  cbn. tauto.
Defined.

(** C8.  Without inputs [result_type] returns the ambient default float
    dtype, and an input [None], first or anywhere else, gives the result of
    the same call with the ambient default float dtype in its place. *)
Theorem result_type_defaults :
  forall floatx python_int python_float,
    result_type floatx python_int python_float [] = Ok floatx
    /\ (forall xs,
          result_type floatx python_int python_float (PyNone :: xs)
          = result_type floatx python_int python_float (Named floatx :: xs))
    /\ (forall xs ys,
          result_type floatx python_int python_float (xs ++ PyNone :: ys)
          = result_type floatx python_int python_float
              (xs ++ Named floatx :: ys)).
Proof.
  intros floatx python_int python_float.
  split; [reflexivity |]. split; [reflexivity |].
  intros xs ys. unfold result_type.
  rewrite !length_app, !map_app. reflexivity.
Qed.

Lemma keys_check_ok : keys_check LATTICE_UPPER_BOUNDS = true.
Proof. vm_compute. reflexivity. Qed.

Lemma has_key_vocabulary d :
  PyDict.has_key d LATTICE_UPPER_BOUNDS = true ->
  In d (ALLOWED_DTYPES ++ WEAK_TYPES).
Proof.
  intros H. apply has_key_lookup in H. destruct H as [v Hv].
  apply lookup_In in Hv.
  pose proof keys_check_ok as Hc. unfold keys_check in Hc.
  rewrite forallb_forall in Hc. apply Hc in Hv. cbn [fst] in Hv.
  apply mem_In, Hv.
Qed.

Lemma allowed_has_key d :
  In d ALLOWED_DTYPES -> PyDict.has_key d LATTICE_UPPER_BOUNDS = true.
Proof.
  intros H. cbn in H.
  repeat (destruct H as [<- | H]; [vm_compute; reflexivity |]).
  destruct H.
Qed.

Lemma allowed_not_weak d : In d ALLOWED_DTYPES -> ~ In d WEAK_TYPES.
Proof.
  intros H Hw. cbn in H, Hw.
  repeat (destruct H as [<- | H];
          [repeat (destruct Hw as [Hw | Hw]; [discriminate Hw |]);
           destruct Hw |]).
  destruct H.
Qed.

Lemma least_upper_bound_ok_key nodes c :
  _least_upper_bound nodes = Ok c ->
  PyDict.has_key c LATTICE_UPPER_BOUNDS = true.
Proof.
  intros H. destruct (least_upper_bound_ok_known _ _ H) as [Hne _].
  destruct (least_upper_bound_ok_candidate _ _ H) as [Hcub _].
  destruct nodes as [| n nodes]; [exfalso; apply Hne; reflexivity |].
  apply (closure_member n c). apply Hcub. left. reflexivity.
Qed.

Lemma resolve_weak_type_ok dtype precision d :
  _resolve_weak_type dtype precision = Ok d -> In d ALLOWED_DTYPES.
Proof.
  unfold _resolve_weak_type. cbv zeta.
  destruct (negb (PySet.mem dtype (PySet.union ALLOWED_DTYPES WEAK_TYPES)));
    [intros H; discriminate H |].
  destruct (PySet.mem precision ["16"; "32"; "64"]) eqn:Ep;
    [| intros H; discriminate H].
  cbn [negb]. apply mem_In in Ep.
  assert (Hall : forall prefix,
             In prefix ["int"; "uint"; "float"] ->
             In (prefix ++ precision)%string ALLOWED_DTYPES).
  { intros prefix Hpre. cbn in Ep, Hpre.
    repeat (destruct Ep as [<- | Ep];
            [repeat (destruct Hpre as [<- | Hpre]; [cbn; tauto |]);
             destruct Hpre |]).
    destruct Ep. }
  generalize (if String.eqb dtype "bfloat16" then "f"
              else PyStr.first1 dtype).
  intros indicator.
  destruct (String.eqb indicator "b");
    [intros H; injection H as <-; cbn; tauto |].
  destruct (String.eqb indicator "i");
    [intros H; injection H as <-; apply (Hall "int"); cbn; tauto |].
  destruct (String.eqb indicator "u");
    intros H; injection H as <-;
    [apply (Hall "uint") | apply (Hall "float")]; cbn; tauto.
Qed.

Section ResultTypeFacts.

Variable floatx : string.
Variables python_int python_float : string.

Let classify := _dtype_and_weaktype floatx python_int python_float.

Lemma dtype_and_weaktype_ok v d w :
  classify v = Ok (d, w) ->
  In d ALLOWED_DTYPES /\ w = is_python_scalar_type v.
Proof.
  unfold classify, _dtype_and_weaktype, standardize_dtype. cbv zeta.
  match goal with |- context [PySet.mem ?x ALLOWED_DTYPES] =>
    destruct (PySet.mem x ALLOWED_DTYPES) eqn:E
  end; cbn [bind]; intros H; [| discriminate H].
  injection H as <- <-. split; [apply mem_In, E | reflexivity].
Qed.

Lemma mapM_classify_ok args :
  forall pairs,
    mapM classify args = Ok pairs ->
    List.length pairs = List.length args
    /\ Forall (fun p => In (fst p) ALLOWED_DTYPES) pairs
    /\ map snd pairs = map is_python_scalar_type args.
Proof.
  induction args as [| v args IH]; intros pairs; cbn [mapM].
  - intros H. injection H as <-. repeat split. constructor.
  - destruct (classify v) as [[d w] | e] eqn:Ev; cbn [bind];
      [| intros H; discriminate H].
    destruct (mapM classify args) as [ps | e]; cbn [bind];
      [| intros H; discriminate H].
    intros H. injection H as <-.
    destruct (IH ps eq_refl) as [Hlen [Hall Hsnd]].
    destruct (dtype_and_weaktype_ok _ _ _ Ev) as [Hd Hw].
    cbn [List.length map snd]. repeat split.
    + now rewrite Hlen.
    + constructor; [exact Hd | exact Hall].
    + now rewrite Hw, Hsnd.
Qed.

Lemma weak_inputs_kept args :
  forallb is_python_scalar_type args = true ->
  map (fun arg => match arg with
                  | PyNone => Named floatx
                  | _ => arg
                  end) args = args.
Proof.
  induction args as [| v args IH]; cbn [forallb map]; [reflexivity |].
  intros H. apply andb_prop in H. destruct H as [Hv H].
  rewrite (IH H). destruct v; try reflexivity. discriminate Hv.
Qed.

(** With weak inputs only, [result_type] is the two-phase computation. *)
Lemma result_type_all_weak args :
  args <> [] ->
  forallb is_python_scalar_type args = true ->
  result_type floatx python_int python_float args
  = all_weak_two_phase floatx python_int python_float args.
Proof.
  intros Hne Hweak. unfold result_type.
  destruct args as [| v0 args0] eqn:Eargs; [congruence |].
  rewrite <- Eargs in *. clear Hne.
  replace (Nat.eqb (List.length args) 0) with false by (now rewrite Eargs).
  rewrite (weak_inputs_kept _ Hweak).
  unfold _lattice_result_type, all_weak_two_phase. fold classify.
  destruct (mapM classify args) as [pairs |] eqn:Em; [| reflexivity].
  cbn [bind].
  destruct (mapM_classify_ok _ _ Em) as [Hlen [Hallowed Hsnd]].
  assert (Hall : all (map snd pairs) = true).
  { rewrite Hsnd. unfold all. rewrite forallb_forall. intros b Hb.
    apply in_map_iff in Hb. destruct Hb as [v [<- Hv]].
    rewrite forallb_forall in Hweak. apply Hweak, Hv. }
  destruct pairs as [| [d0 w0] rest];
    [rewrite Eargs in Hlen; discriminate Hlen |].
  unfold promote_pairs. cbv zeta.
  set (P := (d0, w0) :: rest) in *.
  rewrite Hall. cbn [negb]. rewrite andb_false_r.
  destruct (Nat.eqb (List.length (map fst P)) 1) eqn:E1.
  - apply Nat.eqb_eq in E1. rewrite length_map in E1. subst P.
    destruct rest as [| p rest]; [| discriminate E1].
    cbn in Hall. rewrite andb_true_r in Hall. subst w0.
    cbn [map fst bind snd].
    change (PySet.of_list [d0]) with [d0].
    rewrite least_upper_bound_singleton.
    + cbn [bind]. rewrite andb_true_r.
      destruct (String.eqb d0 "bool"); reflexivity.
    + change (In d0 (ALLOWED_DTYPES ++ WEAK_TYPES)).
      apply in_or_app. left. apply (Forall_inv Hallowed).
  - rewrite mapM_respect_strong. cbn [bind].
    destruct (_least_upper_bound (PySet.of_list (map fst P))) as [lub | e];
      [| reflexivity].
    cbn [bind fst snd]. rewrite andb_true_r.
    destruct (String.eqb lub "bool"); reflexivity.
Qed.

(** Nothing [promote_pairs] returns is outside the vocabulary of concrete
    names. *)
Lemma promote_pairs_concrete pairs d :
  Forall (fun p => In (fst p) ALLOWED_DTYPES) pairs ->
  promote_pairs floatx pairs = Ok d ->
  In d ALLOWED_DTYPES.
Proof.
  intros Hallowed. destruct pairs as [| [d0 w0] rest];
    [intros H; discriminate H |].
  unfold promote_pairs. cbv zeta.
  set (P := (d0, w0) :: rest) in *.
  assert (Hd0 : In d0 ALLOWED_DTYPES) by apply (Forall_inv Hallowed).
  assert (Hfinish : forall out_dtype out_weak,
             (In out_dtype ALLOWED_DTYPES
              \/ (PyDict.has_key out_dtype LATTICE_UPPER_BOUNDS = true
                  /\ (out_weak = true
                      \/ out_weak
                         = any (map (String.eqb out_dtype) WEAK_TYPES)))) ->
             (if negb (String.eqb out_dtype "bool") && out_weak
              then _resolve_weak_type out_dtype (PyStr.last2 floatx)
              else Ok out_dtype) = Ok d ->
             In d ALLOWED_DTYPES).
  { intros out_dtype out_weak Hout.
    destruct (negb (String.eqb out_dtype "bool") && out_weak) eqn:Ew.
    - apply resolve_weak_type_ok.
    - intros H. injection H as <-.
      destruct Hout as [Hin | [Hkey Hflag]]; [exact Hin |].
      apply has_key_vocabulary in Hkey.
      apply andb_false_iff in Ew. destruct Ew as [Ew | Ew].
      + apply negb_false_iff, String.eqb_eq in Ew. subst. cbn. tauto.
      + apply in_app_or in Hkey. destruct Hkey as [Hkey | Hkey];
          [exact Hkey |].
        exfalso. subst out_weak.
        destruct Hflag as [Hflag | Hflag]; [discriminate Hflag |].
        symmetry in Hflag. unfold any in Hflag.
        assert (Hex : existsb (fun b : bool => b)
                        (map (String.eqb out_dtype) WEAK_TYPES) = true).
        { apply existsb_exists. exists true. split; [| reflexivity].
          apply in_map_iff. exists out_dtype.
          split; [apply String.eqb_refl | exact Hkey]. }
        rewrite Hex in Hflag. discriminate Hflag. }
  destruct (Nat.eqb (List.length (map fst P)) 1).
  { cbn [bind fst snd]. apply Hfinish. left. exact Hd0. }
  destruct (Nat.eqb (List.length (PySet.of_list (map fst P))) 1
            && negb (all (map snd P))).
  { cbn [bind fst snd]. apply Hfinish. left. exact Hd0. }
  destruct (all (map snd P)).
  - rewrite mapM_respect_strong. cbn [bind].
    destruct (_least_upper_bound (PySet.of_list (map fst P)))
      as [lub | e] eqn:El; cbn [bind fst snd]; [| intros H; discriminate H].
    apply Hfinish. right.
    split; [apply (least_upper_bound_ok_key _ _ El) | left; reflexivity].
  - destruct (mapM (fun dw => _respect_weak_type (fst dw) (snd dw)) P)
      as [nodes | e]; cbn [bind]; [| intros H; discriminate H].
    destruct (_least_upper_bound (PySet.of_list nodes))
      as [lub | e] eqn:El; cbn [bind fst snd]; [| intros H; discriminate H].
    apply Hfinish. right.
    split; [apply (least_upper_bound_ok_key _ _ El) | right; reflexivity].
Qed.

Lemma lattice_result_type_concrete args d :
  _lattice_result_type floatx python_int python_float args = Ok d ->
  In d ALLOWED_DTYPES.
Proof.
  unfold _lattice_result_type. fold classify.
  destruct (mapM classify args) as [pairs | e] eqn:Em; cbn [bind];
    [| intros H; discriminate H].
  apply promote_pairs_concrete.
  apply (mapM_classify_ok _ _ Em).
Qed.

End ResultTypeFacts.

(** C1.  When every input is weak, [result_type] is the two-phase
    computation: the least upper bound of the dtypes in their strong
    form, then the weak flag, resolved at the precision of the ambient
    default float dtype.  In particular two weak ints give "int" followed
    by that precision, for each of the precisions 16, 32 and 64, whichever
    signed integer name the backend standardizes [int] to. *)
Theorem result_type_all_weak_two_phase :
  forall floatx python_int python_float,
    (forall args,
        args <> [] ->
        forallb is_python_scalar_type args = true ->
        result_type floatx python_int python_float args
        = all_weak_two_phase floatx python_int python_float args)
    /\ (forall p,
          In p ["16"; "32"; "64"] ->
          PyStr.last2 floatx = p ->
          In python_int ["int8"; "int16"; "int32"; "int64"] ->
          result_type floatx python_int python_float [PyInt; PyInt]
          = Ok ("int" ++ p)%string).
Proof.
  intros floatx python_int python_float. split.
  - apply result_type_all_weak.
  - intros p Hp Hlast Hint.
    rewrite result_type_all_weak;
      [| intros H; discriminate H | reflexivity].
    unfold all_weak_two_phase. subst p.
    set (p := PyStr.last2 floatx) in *. clearbody p.
    cbn in Hp, Hint.
    repeat (destruct Hp as [<- | Hp];
            [repeat (destruct Hint as [<- | Hint];
                     [vm_compute; reflexivity |]);
             destruct Hint |]).
    destruct Hp.
Qed.

Lemma result_type_all_weak_two_phase_witness :
  result_type "bfloat16" "int64" "float32" [PyInt; PyFloat; PyInt]
  = all_weak_two_phase "bfloat16" "int64" "float32" [PyInt; PyFloat; PyInt]
  /\ result_type "float32" "int32" "float32" [PyInt; PyInt] = Ok "int32".
Proof.
  destruct (result_type_all_weak_two_phase "bfloat16" "int64" "float32")
    as [Hphase _].
  destruct (result_type_all_weak_two_phase "float32" "int32" "float32")
    as [_ Hint].
  split.
  - apply Hphase; [intros H; discriminate H | reflexivity].
  - apply (Hint "32"); [cbn; tauto | reflexivity | cbn; tauto].
Defined.

(** C10.  Whatever [_lattice_result_type] returns is a concrete dtype name
    and none of the weak categories "int", "float" and "complex"; the same
    holds of [result_type] when the ambient default is one of the float
    names.  A least upper bound that is a weak category, as for "uint64"
    with "int64", is resolved at the precision of the ambient default
    before it is returned, and "bfloat16" resolves to "float" followed by
    the precision. *)
Theorem result_type_concrete :
  forall floatx python_int python_float,
    (forall args d,
        _lattice_result_type floatx python_int python_float args = Ok d ->
        In d ALLOWED_DTYPES /\ ~ In d WEAK_TYPES)
    /\ (In floatx FLOAT_TYPES ->
        forall args d,
          result_type floatx python_int python_float args = Ok d ->
          In d ALLOWED_DTYPES /\ ~ In d WEAK_TYPES)
    /\ (forall p,
          In p ["16"; "32"; "64"] ->
          _resolve_weak_type "bfloat16" p = Ok ("float" ++ p)%string
          /\ (PyStr.last2 floatx = p ->
              _least_upper_bound ["uint64"; "int64"] = Ok "float"
              /\ result_type floatx python_int python_float
                   [Named "uint64"; Named "int64"]
                 = Ok ("float" ++ p)%string)).
Proof.
  intros floatx python_int python_float.
  assert (Hlat : forall args d,
             _lattice_result_type floatx python_int python_float args = Ok d ->
             In d ALLOWED_DTYPES /\ ~ In d WEAK_TYPES).
  { intros args d H. apply lattice_result_type_concrete in H.
    split; [exact H | apply allowed_not_weak, H]. }
  split; [exact Hlat |]. split.
  - intros Hfx args d. unfold result_type.
    destruct (Nat.eqb (List.length args) 0).
    + intros H. injection H as <-.
      assert (Hin : In floatx ALLOWED_DTYPES).
      { unfold ALLOWED_DTYPES. apply in_or_app. right.
        apply in_or_app. right. apply in_or_app. left. exact Hfx. }
      split; [exact Hin | apply allowed_not_weak, Hin].
    + apply Hlat.
  - intros p Hp. split.
    + cbn in Hp.
      repeat (destruct Hp as [<- | Hp]; [vm_compute; reflexivity |]).
      destruct Hp.
    + intros Hlast. split; [vm_compute; reflexivity |].
      unfold result_type, _lattice_result_type, promote_pairs.
      subst p. set (p := PyStr.last2 floatx) in *. clearbody p.
      cbn in Hp.
      repeat (destruct Hp as [<- | Hp]; [vm_compute; reflexivity |]).
      destruct Hp.
Qed.

Lemma result_type_concrete_witness :
  (In "int32" ALLOWED_DTYPES /\ ~ In "int32" WEAK_TYPES)
  /\ (In "bfloat16" ALLOWED_DTYPES /\ ~ In "bfloat16" WEAK_TYPES)
  /\ result_type "float64" "int32" "float32" [Named "uint64"; Named "int64"]
     = Ok "float64".
Proof.
  destruct (result_type_concrete "float32" "int32" "float32")
    as [Hlat _].
  destruct (result_type_concrete "bfloat16" "int32" "float32")
    as [_ [Hres _]].
  destruct (result_type_concrete "float64" "int32" "float32")
    as [_ [_ Hweak]].
  split; [| split].
  - apply (Hlat [Named "bool"; PyInt]). vm_compute. reflexivity.
  - apply (Hres ltac:(cbn; tauto) []). reflexivity.
  - apply (Hweak "64"); [cbn; tauto | reflexivity].
Defined.

(** ** Dtype policies *)

Lemma prefix_app sub post : String.prefix sub (sub ++ post)%string = true.
Proof.
  induction sub as [| a sub IH]; cbn [String.append].
  - destruct post; reflexivity.
  - cbn [String.prefix].
    destruct (ascii_dec a a) as [_ | Hne]; [exact IH | now elim Hne].
Qed.

Lemma prefix_split sub :
  forall s, String.prefix sub s = true ->
            exists post, s = (sub ++ post)%string.
Proof.
  induction sub as [| a sub IH]; intros s.
  - intros _. now exists s.
  - destruct s as [| b s]; cbn [String.prefix]; [intros H; discriminate H |].
    destruct (ascii_dec a b) as [<- | _]; [| intros H; discriminate H].
    intros H. destruct (IH s H) as [post ->]. now exists post.
Qed.

Lemma contains_prefix sub s :
  String.prefix sub s = true -> PyStr.contains sub s = true.
Proof.
  intros H. destruct s; cbn [PyStr.contains]; rewrite H; reflexivity.
Qed.

(** [PyStr.contains] is the substring test. *)
Lemma contains_app pre sub post :
  PyStr.contains sub (pre ++ sub ++ post)%string = true.
Proof.
  induction pre as [| a pre IH]; cbn [String.append].
  - apply contains_prefix, prefix_app.
  - cbn [PyStr.contains]. rewrite IH.
    destruct (String.prefix sub (String a (pre ++ sub ++ post)));
      reflexivity.
Qed.

Lemma contains_split sub :
  forall s, PyStr.contains sub s = true ->
            exists pre post, s = (pre ++ sub ++ post)%string.
Proof.
  intros s. induction s as [| a s IH]; cbn [PyStr.contains].
  - destruct (String.prefix sub "") eqn:E; [| intros H; discriminate H].
    intros _. apply prefix_split in E. destruct E as [post E].
    exists "", post. exact E.
  - destruct (String.prefix sub (String a s)) eqn:E.
    + intros _. apply prefix_split in E. destruct E as [post E].
      exists "", post. exact E.
    + intros H. destruct (IH H) as [pre [post ->]].
      exists (String a pre), post. reflexivity.
Qed.

(** C9.  The dispatch of [get]: [None] gives the process-wide default
    policy, a policy instance is returned as it is, a dict goes to the
    deserializer, a string with "int8" inside (so "uint8" too) goes to
    [QuantizedDTypePolicy] and any other string to [FloatDTypePolicy];
    any other value is standardized and wrapped in a [FloatDTypePolicy],
    and the call fails, naming the identifier it received, when the
    standardization fails. *)
Theorem get_dispatch :
  forall (policy config other exc : Type) (dtype_policy : policy)
         (deserialize_keras_object : config -> exc + policy)
         (FloatDTypePolicy QuantizedDTypePolicy : string -> exc + policy)
         (standardize_dtype : other -> exc + string),
    let get :=
      @DtypePolicies.get policy config other exc dtype_policy
        deserialize_keras_object FloatDTypePolicy QuantizedDTypePolicy
        standardize_dtype in
    get DtypePolicies.IdNone = DtypePolicies.Returns dtype_policy
    /\ (forall p, get (DtypePolicies.IdPolicy p) = DtypePolicies.Returns p)
    /\ (forall d,
          get (DtypePolicies.IdDict d)
          = DtypePolicies.call (deserialize_keras_object d))
    /\ (forall pre post,
          get (DtypePolicies.IdStr (pre ++ "int8" ++ post)%string)
          = DtypePolicies.call
              (QuantizedDTypePolicy (pre ++ "int8" ++ post)%string))
    /\ get (DtypePolicies.IdStr "uint8")
       = DtypePolicies.call (QuantizedDTypePolicy "uint8")
    /\ (forall s,
          (forall pre post, s <> (pre ++ "int8" ++ post)%string) ->
          get (DtypePolicies.IdStr s)
          = DtypePolicies.call (FloatDTypePolicy s))
    /\ (forall v name p,
          standardize_dtype v = inr name ->
          FloatDTypePolicy name = inr p ->
          get (DtypePolicies.IdOther v) = DtypePolicies.Returns p)
    /\ (forall v e,
          standardize_dtype v = inl e ->
          get (DtypePolicies.IdOther v)
          = DtypePolicies.CannotInterpret (DtypePolicies.IdOther v)).
Proof.
  intros. subst get. cbn [DtypePolicies.get].
  split; [reflexivity |]. split; [reflexivity |]. split; [reflexivity |].
  split; [| split; [| split; [| split]]].
  - intros pre post. rewrite contains_app. reflexivity.
  - reflexivity.
  - intros s Hs. destruct (PyStr.contains "int8" s) eqn:E; [| reflexivity].
    apply contains_split in E. destruct E as [pre [post E]].
    elim (Hs pre post E).
  - intros v name p Hv Hp. rewrite Hv, Hp. reflexivity.
  - intros v e Hv. rewrite Hv. reflexivity.
Qed.

Lemma get_dispatch_witness :
  @DtypePolicies.get string unit nat unit "float32"
    (fun _ => inl tt) (fun s => inr s) (fun s => inr ("quantized " ++ s)%string)
    (fun n => if Nat.eqb n 0 then inr "float16" else inl tt)
    (DtypePolicies.IdStr "bfloat16")
  = DtypePolicies.Returns "bfloat16"
  /\ @DtypePolicies.get string unit nat unit "float32"
       (fun _ => inl tt) (fun s => inr s)
       (fun s => inr ("quantized " ++ s)%string)
       (fun n => if Nat.eqb n 0 then inr "float16" else inl tt)
       (DtypePolicies.IdOther 1)
     = DtypePolicies.CannotInterpret (DtypePolicies.IdOther 1).
Proof.
  destruct (get_dispatch string unit nat unit "float32"
              (fun _ => inl tt) (fun s => inr s)
              (fun s => inr ("quantized " ++ s)%string)
              (fun n => if Nat.eqb n 0 then inr "float16" else inl tt))
    as [_ [_ [_ [_ [_ [Hfloat [_ Hfail]]]]]]].
  split.
  - apply (Hfloat "bfloat16"). intros pre post E.
    pose proof (contains_app pre "int8" post) as H.
    rewrite <- E in H. discriminate H.
  - apply (Hfail 1 tt). reflexivity.
Defined.

(** * Further properties *)

(** ** The closure table is a partial order *)

Lemma refl_check_ok : refl_check LATTICE_UPPER_BOUNDS = true.
Proof. vm_compute. reflexivity. Qed.

Lemma trans_check_ok : trans_check LATTICE_UPPER_BOUNDS = true.
Proof. vm_compute. reflexivity. Qed.

Lemma join_check_ok : join_check LATTICE_UPPER_BOUNDS = true.
Proof. vm_compute. reflexivity. Qed.

Lemma known_entry n :
  known n ->
  exists ub, In (n, ub) LATTICE_UPPER_BOUNDS /\ closure_of n = ub.
Proof.
  unfold known. intros H. apply has_key_lookup in H.
  destruct H as [ub Hub].
  exists ub. split; [apply lookup_In, Hub |].
  unfold closure_of, lookup_or_empty. rewrite Hub. reflexivity.
Qed.

Lemma closure_refl n : known n -> In n (closure_of n).
Proof.
  intros H. destruct (known_entry n H) as [ub [Hin ->]].
  pose proof refl_check_ok as Hc. unfold refl_check in Hc.
  rewrite forallb_forall in Hc. apply Hc in Hin. cbn [fst snd] in Hin.
  apply mem_In, Hin.
Qed.

Lemma closure_known n c : In c (closure_of n) -> known n /\ known c.
Proof.
  intros H. split; [| apply (closure_member n c H)].
  unfold known, PyDict.has_key. unfold closure_of, lookup_or_empty in H.
  destruct (PyDict.lookup n LATTICE_UPPER_BOUNDS); [reflexivity | destruct H].
Qed.

Lemma closure_trans n c d :
  In c (closure_of n) -> In d (closure_of c) -> In d (closure_of n).
Proof.
  intros Hc Hd. destruct (closure_known n c Hc) as [Hn _].
  destruct (known_entry n Hn) as [ub [Hin E]]. rewrite E in Hc |- *.
  pose proof trans_check_ok as Ht. unfold trans_check in Ht.
  rewrite forallb_forall in Ht. apply Ht in Hin. cbn [fst snd] in Hin.
  rewrite forallb_forall in Hin. apply Hin in Hc.
  apply issubset_incl in Hc. apply Hc. exact Hd.
Qed.

(** X1.  The closure table is a partial order on the eighteen nodes: every
    node is in its own closure, two nodes in the closure of each other are
    the same node, and the closure of a member of a closure is included
    in that closure. *)
Theorem closure_partial_order :
  (forall n, known n -> In n (closure_of n))
  /\ (forall n m,
        In m (closure_of n) -> In n (closure_of m) -> n = m)
  /\ (forall n c d,
        In c (closure_of n) -> In d (closure_of c) -> In d (closure_of n)).
Proof.
  split; [exact closure_refl |]. split; [| exact closure_trans].
  intros n m Hm Hn. destruct (closure_member n m Hm) as [_ [E | Hnot]].
  - symmetry. exact E.
  - contradiction.
Qed.

Lemma closure_partial_order_witness :
  In "float" (closure_of "float")
  /\ In "complex128" (closure_of "bool").
Proof.
  destruct closure_partial_order as [Hrefl [_ Htrans]].
  split.
  - apply Hrefl. vm_compute. reflexivity.
  - apply (Htrans "bool" "float64" "complex128");
      apply (proj1 (mem_In _ _)); vm_compute; reflexivity.
Defined.

(** ** The least upper bound always exists *)

Lemma known_key n : known n -> In n (PyDict.keys LATTICE_UPPER_BOUNDS).
Proof.
  intros H. destruct (known_entry n H) as [ub [Hin _]].
  unfold PyDict.keys. change n with (fst (n, ub)).
  apply in_map. exact Hin.
Qed.

Lemma pair_join a b :
  known a -> known b -> exists j, _least_upper_bound [a; b] = Ok j.
Proof.
  intros Ha Hb. apply known_key in Ha, Hb.
  pose proof join_check_ok as Hc. unfold join_check in Hc.
  rewrite forallb_forall in Hc. specialize (Hc a Ha).
  rewrite forallb_forall in Hc. specialize (Hc b Hb).
  destruct (_least_upper_bound [a; b]) as [j | e];
    [exists j; reflexivity | discriminate Hc].
Qed.

Lemma candidate_known nodes c :
  nodes <> [] -> is_candidate nodes c -> known c.
Proof.
  intros Hne [Hcub _]. destruct nodes as [| n nodes];
    [elim Hne; reflexivity |].
  apply (closure_known n c). apply Hcub. left. reflexivity.
Qed.

(** The candidate of two candidates is the candidate of the two lists put
    together. *)
Lemma candidate_app l1 l2 c1 c2 j :
  is_candidate l1 c1 -> is_candidate l2 c2 -> is_candidate [c1; c2] j ->
  is_candidate (l1 ++ l2) j.
Proof.
  intros [Hc1 Hm1] [Hc2 Hm2] [Hj Hmj]. split.
  - intros n Hn. apply in_app_or in Hn. destruct Hn as [Hn | Hn].
    + apply (closure_trans n c1 j); [apply Hc1, Hn |].
      apply Hj. left. reflexivity.
    + apply (closure_trans n c2 j); [apply Hc2, Hn |].
      apply Hj. right. left. reflexivity.
  - intros d Hd. apply Hmj. intros n [<- | [<- | []]].
    + apply Hm1. intros m Hm. apply Hd, in_or_app. left. exact Hm.
    + apply Hm2. intros m Hm. apply Hd, in_or_app. right. exact Hm.
Qed.

Lemma candidate_singleton n : known n -> is_candidate [n] n.
Proof.
  intros Hn. split.
  - intros m [<- | []]. apply closure_refl, Hn.
  - intros d Hd. apply Hd. left. reflexivity.
Qed.

Lemma candidate_exists nodes :
  nodes <> [] -> (forall n, In n nodes -> known n) ->
  exists c, is_candidate nodes c.
Proof.
  induction nodes as [| a nodes IH]; intros Hne Hk;
    [elim Hne; reflexivity |].
  assert (Ha : known a) by (apply Hk; left; reflexivity).
  destruct nodes as [| b nodes].
  - exists a. apply candidate_singleton, Ha.
  - destruct IH as [c Hc];
      [intros E; discriminate E | intros n Hn; apply Hk; right; exact Hn |].
    assert (Hkc : known c)
      by (apply (candidate_known (b :: nodes)); [intros E; discriminate E | exact Hc]).
    destruct (pair_join a c Ha Hkc) as [j Hj].
    apply least_upper_bound_ok_candidate in Hj.
    exists j.
    apply (candidate_app [a] (b :: nodes) a c j);
      [apply candidate_singleton, Ha | exact Hc | exact Hj].
Qed.

Lemma least_upper_bound_of_candidate nodes c :
  nodes <> [] -> (forall n, In n nodes -> known n) ->
  is_candidate nodes c -> _least_upper_bound nodes = Ok c.
Proof.
  intros Hne Hk Hc.
  destruct (least_upper_bound_spec nodes Hne Hk)
    as [[c' [Hc' Hcand']] | [_ Hnone]].
  - rewrite Hc'. f_equal. eapply candidate_unique; eassumption.
  - elim (Hnone c Hc).
Qed.

(** X2.  On every non-empty list of nodes of the lattice
    [_least_upper_bound] returns a node: it raises neither the "no
    available implicit dtype promotion path" error nor the internal one.
    The node returned is in the closure of every input and every other
    such node is in its closure. *)
Theorem least_upper_bound_exists :
  forall nodes,
    nodes <> [] ->
    (forall n, In n nodes -> known n) ->
    exists c,
      _least_upper_bound nodes = Ok c
      /\ known c
      /\ (forall n, In n nodes -> In c (closure_of n))
      /\ (forall d,
            (forall n, In n nodes -> In d (closure_of n)) ->
            In d (closure_of c)).
Proof.
  intros nodes Hne Hk. destruct (candidate_exists nodes Hne Hk) as [c Hc].
  exists c. split; [apply least_upper_bound_of_candidate; assumption |].
  split; [apply (candidate_known nodes c Hne Hc) |].
  exact Hc.
Qed.

Lemma least_upper_bound_exists_witness :
  exists c, _least_upper_bound ["uint64"; "int8"; "bfloat16"] = Ok c.
Proof.
  destruct (least_upper_bound_exists ["uint64"; "int8"; "bfloat16"])
    as [c [Hc _]].
  - intros E. discriminate E.
  - intros n [<- | [<- | [<- | []]]]; vm_compute; reflexivity.
  - exists c. exact Hc.
Defined.

(** X3.  The shortcut the comments of [_least_upper_bound] describe: an
    input node that is in the closure of every input node is the result. *)
Theorem least_upper_bound_absorbs :
  forall nodes n,
    In n nodes ->
    (forall m, In m nodes -> In n (closure_of m)) ->
    _least_upper_bound nodes = Ok n.
Proof.
  intros nodes n Hn Hub.
  apply least_upper_bound_of_candidate.
  - intros E. rewrite E in Hn. destruct Hn.
  - intros m Hm. apply (closure_known m n), Hub, Hm.
  - split; [exact Hub |]. intros d Hd. apply Hd, Hn.
Qed.

Lemma least_upper_bound_absorbs_witness :
  _least_upper_bound ["int8"; "float32"; "bool"; "bfloat16"] = Ok "float32".
Proof.
  apply least_upper_bound_absorbs.
  - cbn. tauto.
  - intros m [<- | [<- | [<- | [<- | []]]]];
      apply (proj1 (mem_In _ _)); vm_compute; reflexivity.
Defined.

(** X4.  Least upper bounds compose: the bound of two lists put together
    is the bound of the bounds of the two lists. *)
Theorem least_upper_bound_app :
  forall l1 l2 c1 c2,
    _least_upper_bound l1 = Ok c1 ->
    _least_upper_bound l2 = Ok c2 ->
    _least_upper_bound (l1 ++ l2) = _least_upper_bound [c1; c2].
Proof.
  intros l1 l2 c1 c2 H1 H2.
  destruct (least_upper_bound_ok_known _ _ H1) as [Hne1 Hk1].
  destruct (least_upper_bound_ok_known _ _ H2) as [Hne2 Hk2].
  apply least_upper_bound_ok_candidate in H1, H2.
  assert (Hkc1 : known c1) by apply (candidate_known l1 c1 Hne1 H1).
  assert (Hkc2 : known c2) by apply (candidate_known l2 c2 Hne2 H2).
  destruct (pair_join c1 c2 Hkc1 Hkc2) as [j Hj]. rewrite Hj.
  apply least_upper_bound_ok_candidate in Hj.
  apply least_upper_bound_of_candidate.
  - destruct l1; [elim Hne1; reflexivity | intros E; discriminate E].
  - intros n Hn. apply in_app_or in Hn. destruct Hn as [Hn | Hn];
      [exact (Hk1 n Hn) | exact (Hk2 n Hn)].
  - apply (candidate_app l1 l2 c1 c2 j); assumption.
Qed.

Lemma least_upper_bound_app_witness :
  _least_upper_bound (["uint8"; "int8"] ++ ["bfloat16"; "float16"])
  = _least_upper_bound ["int16"; "float32"].
Proof.
  apply least_upper_bound_app; vm_compute; reflexivity.
Defined.

(** X5.  The least upper bound grows with the inputs: the bound of a list
    is in the closure of the bound of any of its sublists. *)
Theorem least_upper_bound_monotone :
  forall l l' c c',
    incl l l' ->
    _least_upper_bound l = Ok c ->
    _least_upper_bound l' = Ok c' ->
    In c' (closure_of c).
Proof.
  intros l l' c c' Hincl Hc Hc'.
  apply least_upper_bound_ok_candidate in Hc, Hc'.
  destruct Hc as [_ Hmin]. destruct Hc' as [Hcub' _].
  apply Hmin. intros n Hn. apply Hcub', Hincl, Hn.
Qed.

Lemma least_upper_bound_monotone_witness :
  In "float32" (closure_of "int16").
Proof.
  apply (least_upper_bound_monotone ["uint8"; "int8"]
           ["bfloat16"; "uint8"; "float16"; "int8"]).
  - intros n [<- | [<- | []]]; cbn; tauto.
  - vm_compute. reflexivity.
  - vm_compute. reflexivity.
Defined.

(** X6.  The value of [_least_upper_bound] depends on the set of its
    arguments only: two lists with the same members, repeated or not and
    in any order, end alike, and return the same node when they are
    lists of nodes of the lattice. *)
Theorem least_upper_bound_set :
  forall l l',
    (forall x, In x l <-> In x l') ->
    same_outcome (_least_upper_bound l) (_least_upper_bound l')
    /\ (l <> [] -> (forall n, In n l -> known n) ->
        exists c, _least_upper_bound l = Ok c
                  /\ _least_upper_bound l' = Ok c).
Proof.
  intros l l' Hsame. split; [apply least_upper_bound_same_members, Hsame |].
  intros Hne Hk. destruct (candidate_exists l Hne Hk) as [c Hc].
  exists c. split; [apply least_upper_bound_of_candidate; assumption |].
  apply least_upper_bound_of_candidate.
  - intros E. destruct l as [| a l]; [elim Hne; reflexivity |].
    assert (Ha : In a l') by (apply Hsame; left; reflexivity).
    rewrite E in Ha. destruct Ha.
  - intros n Hn. apply Hk, Hsame, Hn.
  - apply (is_candidate_same_members l l' c Hsame Hc).
Qed.

Lemma least_upper_bound_set_witness :
  exists c,
    _least_upper_bound ["uint8"; "int8"] = Ok c
    /\ _least_upper_bound ["int8"; "uint8"; "int8"; "uint8"] = Ok c.
Proof.
  apply (proj2 (least_upper_bound_set ["uint8"; "int8"]
                  ["int8"; "uint8"; "int8"; "uint8"]
                  ltac:(intros x; cbn; tauto))).
  - intros E. discriminate E.
  - intros n [<- | [<- | []]]; vm_compute; reflexivity.
Defined.

(** ** The closure builder on any lattice *)

Section Builder.

Variable lattice : PyDict.t (list string).

Lemma union_of_covers_In bs :
  forall acc new,
    union_of_covers lattice acc bs = Ok new ->
    forall x,
      In x new
      <-> In x acc
          \/ exists b cover,
               In b bs /\ PyDict.lookup b lattice = Some cover
               /\ In x cover.
Proof.
  induction bs as [| b0 bs IH]; intros acc new; cbn [union_of_covers].
  - intros H. injection H as <-. intros x. split; [auto |].
    intros [H | [b [cover [[] _]]]]. exact H.
  - unfold PyDict.getitem.
    destruct (PyDict.lookup b0 lattice) as [cover0 |] eqn:E0; cbn [bind];
      [| intros H; discriminate H].
    intros H x. rewrite (IH _ _ H x), union_In. split.
    + intros [[Hx | Hx] | [b [cover [Hb Hc]]]].
      * left. exact Hx.
      * right. exists b0, cover0. repeat split; auto. left. reflexivity.
      * right. exists b, cover. split; [right; exact Hb | exact Hc].
    + intros [Hx | [b [cover [[<- | Hb] [Hl Hx]]]]].
      * left. left. exact Hx.
      * left. right. rewrite E0 in Hl. injection Hl as <-. exact Hx.
      * right. exists b, cover. repeat split; assumption.
Qed.

Lemma union_of_covers_key_error bs :
  forall acc e,
    union_of_covers lattice acc bs = Error e ->
    exists k, e = KeyError k /\ In k bs /\ PyDict.lookup k lattice = None.
Proof.
  induction bs as [| b0 bs IH]; intros acc e; cbn [union_of_covers];
    [intros H; discriminate H |].
  unfold PyDict.getitem.
  destruct (PyDict.lookup b0 lattice) as [cover0 |] eqn:E0; cbn [bind].
  - intros H. destruct (IH _ _ H) as [k [-> [Hk Hl]]].
    exists k. repeat split; [right; exact Hk | exact Hl].
  - intros H. injection H as <-. exists b0.
    repeat split; [left; reflexivity | exact E0].
Qed.

(** What a loop that returns has built. *)
Lemma closure_loop_ok n :
  forall fuel ub ub',
    closure_loop fuel lattice n ub = Ok ub' ->
    incl ub ub'
    /\ ((forall x, In x ub -> reaches lattice n x) ->
        forall x, In x ub' -> reaches lattice n x)
    /\ (forall b,
          In b ub' ->
          exists cover,
            PyDict.lookup b lattice = Some cover
            /\ forall d, In d cover -> In d ub' /\ d <> n).
Proof.
  induction fuel as [| fuel IH]; intros ub ub'; cbn [closure_loop];
    [intros H; discriminate H |].
  destruct (union_of_covers lattice [] ub) as [new | e] eqn:Enew;
    cbn [bind]; [| intros H; discriminate H].
  pose proof (union_of_covers_In _ _ _ Enew) as Hnew.
  destruct (PySet.mem n new) eqn:En; [intros H; discriminate H |].
  destruct (PySet.issubset new ub) eqn:Esub.
  - intros H. injection H as <-. split; [apply incl_refl |].
    split; [auto |].
    intros b Hb.
    pose proof (union_of_covers_keys _ _ _ _ Enew b Hb) as Hk.
    apply has_key_lookup in Hk. destruct Hk as [cover Hcover].
    exists cover. split; [exact Hcover |].
    intros d Hd.
    assert (Hdn : In d new).
    { apply Hnew. right. exists b, cover. repeat split; assumption. }
    split.
    + apply issubset_incl in Esub. apply Esub, Hdn.
    + intros ->. apply mem_false in En. contradiction.
  - intros H. destruct (IH _ _ H) as [Hincl [Hsound Hclosed]].
    split; [| split; [| exact Hclosed]].
    + intros x Hx. apply Hincl, union_In. left. exact Hx.
    + intros Hub. apply Hsound. intros x Hx. apply union_In in Hx.
      destruct Hx as [Hx | Hx]; [apply Hub, Hx |].
      apply Hnew in Hx. destruct Hx as [[] | [b [cover [Hb [Hl Hx]]]]].
      eapply reaches_cover; [apply Hub, Hb | exact Hl | exact Hx].
Qed.

(** What a loop that raises has met. *)
Lemma closure_loop_error n :
  forall fuel ub e,
    closure_loop fuel lattice n ub = Error e ->
    (forall x, In x ub -> reaches lattice n x) ->
    e = OutOfFuel
    \/ (e = CycleDetected n /\ on_cycle lattice n)
    \/ (exists k, e = KeyError k /\ dangling lattice n k).
Proof.
  induction fuel as [| fuel IH]; intros ub e; cbn [closure_loop].
  - intros H _. injection H as <-. left. reflexivity.
  - destruct (union_of_covers lattice [] ub) as [new | e0] eqn:Enew;
      cbn [bind].
    + pose proof (union_of_covers_In _ _ _ Enew) as Hnew.
      destruct (PySet.mem n new) eqn:En.
      * intros H Hub. injection H as <-. right. left.
        split; [reflexivity |].
        apply mem_In, Hnew in En.
        destruct En as [[] | [b [cover [Hb [Hl Hn]]]]].
        exists b, cover. repeat split; [apply Hub, Hb | exact Hl | exact Hn].
      * destruct (PySet.issubset new ub); [intros H; discriminate H |].
        intros H Hub. apply (IH _ _ H).
        intros x Hx. apply union_In in Hx.
        destruct Hx as [Hx | Hx]; [apply Hub, Hx |].
        apply Hnew in Hx. destruct Hx as [[] | [b [cover [Hb [Hl Hx]]]]].
        eapply reaches_cover; [apply Hub, Hb | exact Hl | exact Hx].
    + intros H Hub. injection H as <-.
      destruct (union_of_covers_key_error _ _ _ Enew) as [k [-> [Hk Hl]]].
      right. right. exists k. split; [reflexivity |].
      split; [apply Hub, Hk | exact Hl].
Qed.

Lemma lookup_seeds nodes n :
  PyDict.lookup n (dict_literal (map (fun node => (node, [node])) nodes))
  = if PySet.mem n nodes then Some [n] else None.
Proof.
  unfold dict_literal.
  assert (H : forall d,
             PyDict.lookup n
               (fold_left (fun d kv => PyDict.setitem (fst kv) (snd kv) d)
                  (map (fun node : string => (node, [node])) nodes) d)
             = if PySet.mem n nodes then Some [n] else PyDict.lookup n d).
  { induction nodes as [| k nodes IH]; intros d; cbn [map fold_left].
    - reflexivity.
    - rewrite IH. cbn [fst snd]. rewrite lookup_setitem.
      unfold PySet.mem. cbn [existsb]. fold (PySet.mem n nodes).
      destruct (PySet.mem n nodes); [rewrite orb_true_r; reflexivity |].
      rewrite orb_false_r.
      destruct (String.eqb n k) eqn:E; [| reflexivity].
      apply String.eqb_eq in E. subst. reflexivity. }
  apply H.
Qed.

(** The [for] loop over distinct nodes that still hold their seed. *)
Lemma closure_each_spec fuel todo :
  forall upper_bounds,
    NoDup todo ->
    (forall n, In n todo -> PyDict.lookup n upper_bounds = Some [n]) ->
    match closure_each fuel lattice todo upper_bounds with
    | Ok table =>
        (forall k, ~ In k todo ->
                   PyDict.lookup k table = PyDict.lookup k upper_bounds)
        /\ (forall n, In n todo ->
                      exists ub,
                        closure_loop fuel lattice n [n] = Ok ub
                        /\ PyDict.lookup n table = Some ub)
    | Error e =>
        exists n, In n todo /\ closure_loop fuel lattice n [n] = Error e
    end.
Proof.
  induction todo as [| n todo IH]; intros upper_bounds Hnd Hseed;
    cbn [closure_each].
  - split; [reflexivity | intros n []].
  - unfold PyDict.getitem. rewrite (Hseed n) by (left; reflexivity).
    cbn [bind]. inversion Hnd as [| ? ? Hn Hnd']; subst.
    destruct (closure_loop fuel lattice n [n]) as [ub | e] eqn:El;
      cbn [bind].
    + assert (Hseed' : forall m, In m todo ->
                 PyDict.lookup m (PyDict.setitem n ub upper_bounds)
                 = Some [m]).
      { intros m Hm. rewrite lookup_setitem.
        destruct (String.eqb m n) eqn:E.
        - apply String.eqb_eq in E. subst. contradiction.
        - apply Hseed. right. exact Hm. }
      specialize (IH _ Hnd' Hseed').
      destruct (closure_each fuel lattice todo
                  (PyDict.setitem n ub upper_bounds)) as [table | e].
      * destruct IH as [Hrest Hdone]. split.
        -- intros k Hk. rewrite Hrest by (intros H; apply Hk; right; exact H).
           rewrite lookup_setitem.
           destruct (String.eqb k n) eqn:E; [| reflexivity].
           apply String.eqb_eq in E. subst. elim Hk. left. reflexivity.
        -- intros m [<- | Hm].
           ++ exists ub. split; [exact El |].
              rewrite (Hrest n Hn), lookup_setitem, String.eqb_refl.
              reflexivity.
           ++ apply Hdone, Hm.
      * destruct IH as [m [Hm He]].
        exists m. split; [right; exact Hm | exact He].
    + exists n. split; [left; reflexivity | exact El].
Qed.

Lemma upper_bounds_of_spec :
  NoDup (PyDict.keys lattice) ->
  match upper_bounds_of lattice with
  | Ok table =>
      (forall k, ~ In k (PyDict.keys lattice) -> PyDict.lookup k table = None)
      /\ (forall n, In n (PyDict.keys lattice) ->
                    exists ub,
                      closure_loop (S (List.length lattice)) lattice n [n]
                      = Ok ub
                      /\ PyDict.lookup n table = Some ub)
  | Error e =>
      exists n,
        In n (PyDict.keys lattice)
        /\ closure_loop (S (List.length lattice)) lattice n [n] = Error e
  end.
Proof.
  intros Hnd. unfold upper_bounds_of.
  pose proof (closure_each_spec (S (List.length lattice))
                (PyDict.keys lattice)
                (dict_literal (map (fun node => (node, [node]))
                                 (PyDict.keys lattice))) Hnd) as H.
  assert (Hseed : forall n, In n (PyDict.keys lattice) ->
            PyDict.lookup n
              (dict_literal (map (fun node => (node, [node]))
                               (PyDict.keys lattice))) = Some [n]).
  { intros n Hn. rewrite lookup_seeds.
    apply mem_In in Hn. rewrite Hn. reflexivity. }
  specialize (H Hseed).
  destruct (closure_each (S (List.length lattice)) lattice
              (PyDict.keys lattice)
              (dict_literal (map (fun node => (node, [node]))
                               (PyDict.keys lattice)))) as [table | e].
  - destruct H as [Hrest Hdone]. split; [| exact Hdone].
    intros k Hk. rewrite (Hrest k Hk), lookup_seeds.
    apply mem_false in Hk. rewrite Hk. reflexivity.
  - exact H.
Qed.

Lemma seed_reaches n : forall x, In x [n] -> reaches lattice n x.
Proof. intros x [<- | []]. apply reaches_self. Qed.

End Builder.

Lemma closure_loop_complete lattice n fuel ub :
  closure_loop fuel lattice n [n] = Ok ub ->
  forall m, reaches lattice n m -> In m ub.
Proof.
  intros H. destruct (closure_loop_ok lattice n _ _ _ H)
    as [Hincl [_ Hclosed]].
  induction 1 as [| m cover d Hm IH Hl Hd].
  - apply Hincl. left. reflexivity.
  - destruct (Hclosed m IH) as [cover' [Hl' Hall]].
    rewrite Hl in Hl'. injection Hl' as <-. apply (Hall d Hd).
Qed.

Lemma key_lookup {V : Type} (d : PyDict.t V) k :
  In k (PyDict.keys d) -> exists v, PyDict.lookup k d = Some v.
Proof.
  unfold PyDict.keys. induction d as [| [k' v'] d IH]; cbn [map fst];
    [intros [] |].
  intros H. cbn [PyDict.lookup]. destruct (String.eqb k k') eqn:E.
  - exists v'. reflexivity.
  - destruct H as [-> | H]; [rewrite String.eqb_refl in E; discriminate E |].
    apply IH, H.
Qed.

(** X7.  For any lattice with distinct keys, a table the builder returns
    holds, for every node of the lattice, exactly the nodes reached from
    it along the covers, the node itself among them and each once; it
    has no other entry. *)
Theorem closure_builder_correct :
  forall lattice table,
    NoDup (PyDict.keys lattice) ->
    upper_bounds_of lattice = Ok table ->
    (forall n,
        In n (PyDict.keys lattice) ->
        exists ub,
          PyDict.lookup n table = Some ub
          /\ NoDup ub
          /\ forall m, In m ub <-> reaches lattice n m)
    /\ (forall k,
          ~ In k (PyDict.keys lattice) -> PyDict.lookup k table = None).
Proof.
  intros lattice table Hnd Hok.
  pose proof (upper_bounds_of_spec lattice Hnd) as H. rewrite Hok in H.
  destruct H as [Hrest Hdone]. split; [| exact Hrest].
  intros n Hn. destruct (Hdone n Hn) as [ub [Hloop Hlook]].
  exists ub. split; [exact Hlook |]. split.
  - apply (closure_loop_proper lattice n (S (List.length lattice)) [n] ub);
      [| | exact Hloop].
    + constructor; [intros [] | constructor].
    + intros E. discriminate E.
  - intros m. split.
    + apply (closure_loop_ok lattice n _ _ _ Hloop), seed_reaches.
    + apply (closure_loop_complete lattice n _ ub Hloop).
Qed.

Lemma closure_builder_correct_witness :
  exists ub,
    PyDict.lookup "a"
      [("a", ["a"; "b"; "c"]); ("b", ["b"; "c"]); ("c", ["c"])] = Some ub
    /\ NoDup ub
    /\ forall m,
         In m ub
         <-> reaches [("a", ["b"; "c"]); ("b", ["c"]); ("c", [])] "a" m.
Proof.
  apply (closure_builder_correct
           [("a", ["b"; "c"]); ("b", ["c"]); ("c", [])]
           [("a", ["a"; "b"; "c"]); ("b", ["b"; "c"]); ("c", ["c"])]).
  - repeat constructor; cbn; intuition discriminate.
  - reflexivity.
  - cbn. tauto.
Defined.

(** X8.  For any lattice with distinct keys the builder fails in two ways
    only.  It raises the cycle error for a node that is reached from
    itself along at least one cover, or the [KeyError] of a dict lookup
    for a cover that is reached from a node and has no entry of its own.
    Its loop always ends: the bounded model never runs out of fuel. *)
Theorem closure_builder_errors :
  forall lattice e,
    NoDup (PyDict.keys lattice) ->
    upper_bounds_of lattice = Error e ->
    exists n,
      In n (PyDict.keys lattice)
      /\ ((e = CycleDetected n /\ on_cycle lattice n)
          \/ exists k, e = KeyError k /\ dangling lattice n k).
Proof.
  intros lattice e Hnd Herr.
  pose proof (upper_bounds_of_spec lattice Hnd) as H. rewrite Herr in H.
  destruct H as [n [Hn Hloop]]. exists n. split; [exact Hn |].
  destruct (closure_loop_error lattice n _ _ _ Hloop (seed_reaches lattice n))
    as [-> | H]; [| exact H].
  exfalso. revert Hloop. apply closure_loop_total.
  - constructor; [intros [] | constructor].
  - simpl. lia.
  - lia.
Qed.

Lemma closure_builder_errors_witness :
  exists n,
    In n ["a"; "b"]
    /\ ((KeyError "z" = CycleDetected n
         /\ on_cycle [("a", ["b"]); ("b", ["z"])] n)
        \/ exists k,
             KeyError "z" = KeyError k
             /\ dangling [("a", ["b"]); ("b", ["z"])] n k).
Proof.
  apply (closure_builder_errors [("a", ["b"]); ("b", ["z"])] (KeyError "z")).
  - repeat constructor; cbn; intuition discriminate.
  - reflexivity.
Defined.

(** X9.  For any lattice with distinct keys the builder returns a table
    exactly when no node of the lattice is reached from itself along at
    least one cover and every node reached from a node of the lattice
    has an entry. *)
Theorem closure_builder_succeeds_iff :
  forall lattice,
    NoDup (PyDict.keys lattice) ->
    (exists table, upper_bounds_of lattice = Ok table)
    <-> ((forall n, In n (PyDict.keys lattice) -> ~ on_cycle lattice n)
         /\ (forall n k,
               In n (PyDict.keys lattice) -> reaches lattice n k ->
               PyDict.has_key k lattice = true)).
Proof.
  intros lattice Hnd. split.
  - intros [table Hok].
    pose proof (upper_bounds_of_spec lattice Hnd) as H. rewrite Hok in H.
    destruct H as [_ Hdone]. split.
    + intros n Hn [m [cover [Hm [Hl Hc]]]].
      destruct (Hdone n Hn) as [ub [Hloop _]].
      pose proof (closure_loop_complete lattice n _ ub Hloop m Hm) as Hin.
      destruct (closure_loop_ok lattice n _ _ _ Hloop) as [_ [_ Hclosed]].
      destruct (Hclosed m Hin) as [cover' [Hl' Hall]].
      rewrite Hl in Hl'. injection Hl' as <-.
      destruct (Hall n Hc) as [_ Hne]. apply Hne. reflexivity.
    + intros n k Hn Hk.
      destruct (Hdone n Hn) as [ub [Hloop _]].
      pose proof (closure_loop_complete lattice n _ ub Hloop k Hk) as Hin.
      destruct (closure_loop_ok lattice n _ _ _ Hloop) as [_ [_ Hclosed]].
      destruct (Hclosed k Hin) as [cover [Hl _]].
      unfold PyDict.has_key. rewrite Hl. reflexivity.
  - intros [Hacyclic Hclosed].
    destruct (upper_bounds_of lattice) as [table | e] eqn:E;
      [exists table; reflexivity |].
    exfalso.
    pose proof (upper_bounds_of_spec lattice Hnd) as H. rewrite E in H.
    destruct H as [n [Hn Hloop]].
    destruct (closure_loop_error lattice n _ _ _ Hloop (seed_reaches lattice n))
      as [-> | [[_ Hcyc] | [k [_ [Hk Hl]]]]].
    + revert Hloop. apply closure_loop_total.
      * constructor; [intros [] | constructor].
      * simpl. lia.
      * lia.
    + apply (Hacyclic n Hn Hcyc).
    + pose proof (Hclosed n k Hn Hk) as Hkey.
      unfold PyDict.has_key in Hkey. rewrite Hl in Hkey. discriminate Hkey.
Qed.

Lemma closure_builder_succeeds_iff_witness :
  (forall n, In n ["bool"; "int"] ->
             ~ on_cycle [("bool", ["int"]); ("int", [])] n)
  /\ (forall n k,
        In n ["bool"; "int"] ->
        reaches [("bool", ["int"]); ("int", [])] n k ->
        PyDict.has_key k [("bool", ["int"]); ("int", [])] = true).
Proof.
  apply (closure_builder_succeeds_iff [("bool", ["int"]); ("int", [])]).
  - repeat constructor; cbn; intuition discriminate.
  - eexists. reflexivity.
Defined.

(** X10.  In the table built over the fixed lattice the closure of a node
    is the set of the nodes reached from it along the covering edges. *)
Theorem closure_of_reaches :
  forall n m,
    known n ->
    (In m (closure_of n) <-> reaches spec_covering_edges n m).
Proof.
  intros n m Hn.
  assert (Hnd : NoDup (PyDict.keys spec_covering_edges))
    by (apply nodupb_NoDup; reflexivity).
  pose proof (upper_bounds_of_spec spec_covering_edges Hnd) as H.
  assert (Hbuilt : upper_bounds_of spec_covering_edges
                   = Ok LATTICE_UPPER_BOUNDS) by (vm_compute; reflexivity).
  rewrite Hbuilt in H. destruct H as [Hrest Hdone].
  assert (Hkey : In n (PyDict.keys spec_covering_edges)).
  { apply known_key in Hn. revert Hn.
    assert (E : PyDict.keys LATTICE_UPPER_BOUNDS
                = PyDict.keys spec_covering_edges)
      by (vm_compute; reflexivity).
    rewrite E. exact (fun H => H). }
  destruct (Hdone n Hkey) as [ub [Hloop Hlook]].
  assert (E : closure_of n = ub)
    by (unfold closure_of, lookup_or_empty; rewrite Hlook; reflexivity).
  rewrite E. split.
  - apply (closure_loop_ok spec_covering_edges n _ _ _ Hloop), seed_reaches.
  - apply (closure_loop_complete spec_covering_edges n _ ub Hloop).
Qed.

Lemma closure_of_reaches_witness :
  In "float32" (closure_of "uint8")
  <-> reaches spec_covering_edges "uint8" "float32".
Proof.
  apply closure_of_reaches. vm_compute. reflexivity.
Defined.

(** ** Resolving weak types *)

Lemma extended_mem dtype :
  PySet.mem dtype (PySet.union ALLOWED_DTYPES WEAK_TYPES) = true
  <-> In dtype (ALLOWED_DTYPES ++ WEAK_TYPES).
Proof. rewrite mem_In, union_In, in_app_iff. reflexivity. Qed.

Lemma resolve_weak_type_ok_args dtype precision r :
  _resolve_weak_type dtype precision = Ok r ->
  In dtype (ALLOWED_DTYPES ++ WEAK_TYPES) /\ In precision precisions.
Proof.
  unfold _resolve_weak_type. cbv zeta.
  destruct (PySet.mem dtype (PySet.union ALLOWED_DTYPES WEAK_TYPES)) eqn:Ed;
    cbn [negb]; [| intros H; discriminate H].
  destruct (PySet.mem precision ["16"; "32"; "64"]) eqn:Ep;
    cbn [negb]; [| intros H; discriminate H].
  intros _. split; [apply extended_mem, Ed | apply mem_In, Ep].
Qed.

(** X11.  [_resolve_weak_type] checks the dtype before the precision: a
    name outside the vocabulary and the weak categories is refused
    whatever the precision, a precision other than "16", "32" and "64" is
    refused for every name that passes.  Otherwise "bool" stays "bool",
    the signed integers and the weak int give "int" and the precision,
    the unsigned integers "uint" and the precision, and the floating-point
    names, the complex names, the weak float and the weak complex all give
    "float" and the precision. *)
Theorem resolve_weak_type_families :
  (forall dtype precision,
      ~ In dtype (ALLOWED_DTYPES ++ WEAK_TYPES) ->
      _resolve_weak_type dtype precision = Error (InvalidArgument dtype))
  /\ (forall dtype precision,
        In dtype (ALLOWED_DTYPES ++ WEAK_TYPES) ->
        ~ In precision precisions ->
        _resolve_weak_type dtype precision
        = Error (InvalidArgument precision))
  /\ Forall
       (fun p =>
          _resolve_weak_type "bool" p = Ok "bool"
          /\ Forall (fun d => _resolve_weak_type d p = Ok ("int" ++ p)%string)
               ["int8"; "int16"; "int32"; "int64"; "int"]
          /\ Forall (fun d => _resolve_weak_type d p = Ok ("uint" ++ p)%string)
               ["uint8"; "uint16"; "uint32"; "uint64"]
          /\ Forall (fun d => _resolve_weak_type d p = Ok ("float" ++ p)%string)
               (FLOAT_TYPES ++ COMPLEX_TYPES ++ ["float"; "complex"]))
       precisions.
Proof.
  split; [| split].
  - intros dtype precision Hd. unfold _resolve_weak_type. cbv zeta.
    destruct (PySet.mem dtype (PySet.union ALLOWED_DTYPES WEAK_TYPES)) eqn:E;
      [| reflexivity].
    apply extended_mem in E. contradiction.
  - intros dtype precision Hd Hp. unfold _resolve_weak_type. cbv zeta.
    apply extended_mem in Hd. rewrite Hd. cbn [negb].
    destruct (PySet.mem precision ["16"; "32"; "64"]) eqn:E;
      [| reflexivity].
    apply mem_In in E. contradiction.
  - unfold precisions. repeat constructor.
Qed.

Lemma resolve_weak_type_families_witness :
  _resolve_weak_type "float128" "32" = Error (InvalidArgument "float128")
  /\ _resolve_weak_type "complex64" "8" = Error (InvalidArgument "8").
Proof.
  destruct resolve_weak_type_families as [Hd [Hp _]].
  split.
  - apply Hd. cbn. intuition discriminate.
  - apply Hp; [cbn; tauto | cbn; intuition discriminate].
Defined.

(** X12.  A resolved dtype resolves like the dtype it came from: what
    [_resolve_weak_type] returns for a dtype, resolved at any precision,
    valid or not, gives what the dtype itself gives at that precision.  In
    particular resolving twice at one precision changes nothing. *)
Theorem resolve_weak_type_again :
  forall dtype precision r,
    _resolve_weak_type dtype precision = Ok r ->
    (forall precision',
        _resolve_weak_type r precision'
        = _resolve_weak_type dtype precision')
    /\ _resolve_weak_type r precision = Ok r.
Proof.
  intros dtype precision r H.
  destruct (resolve_weak_type_ok_args _ _ _ H) as [Hd Hp].
  assert (Hall : forall precision',
             _resolve_weak_type r precision'
             = _resolve_weak_type dtype precision').
  { revert H. cbn in Hd, Hp.
    repeat (destruct Hd as [<- | Hd];
            [repeat (destruct Hp as [<- | Hp];
                     [intros H; vm_compute in H; injection H as <-;
                      intros precision'; reflexivity |]);
             destruct Hp |]).
    destruct Hd. }
  split; [exact Hall |]. rewrite Hall. exact H.
Qed.

Lemma resolve_weak_type_again_witness :
  _resolve_weak_type "float16" "64" = _resolve_weak_type "complex" "64".
Proof.
  apply (resolve_weak_type_again "complex" "16" "float16").
  reflexivity.
Defined.

(** ** Weak categories in the lattice *)

Lemma weak_check_ok : weak_check = true.
Proof. vm_compute. reflexivity. Qed.

Lemma weak_resolve_check_ok : weak_resolve_check = true.
Proof. vm_compute. reflexivity. Qed.

Lemma complex_check_ok : complex_check = true.
Proof. vm_compute. reflexivity. Qed.

Lemma weak_node d :
  In d (INT_TYPES ++ FLOAT_TYPES) ->
  exists w,
    _respect_weak_type d true = Ok w
    /\ (w = "int" \/ w = "float")
    /\ In d (closure_of w)
    /\ forall c,
         In c (closure_of d) ->
         c <> "bool"
         /\ forall p r, _resolve_weak_type c p = Ok r -> In r (closure_of w).
Proof.
  intros Hd. pose proof weak_check_ok as Hc. unfold weak_check in Hc.
  rewrite forallb_forall in Hc. specialize (Hc d Hd).
  destruct (_respect_weak_type d true) as [w | e]; [| discriminate Hc].
  apply andb_prop in Hc. destruct Hc as [Hc Hall].
  apply andb_prop in Hc. destruct Hc as [Hw Hin].
  exists w. split; [reflexivity |]. split; [| split].
  - apply orb_prop in Hw. destruct Hw as [Hw | Hw];
      apply String.eqb_eq in Hw; [left | right]; exact Hw.
  - apply mem_In in Hin. exact Hin.
  - intros c Hcin. rewrite forallb_forall in Hall. specialize (Hall c Hcin).
    apply andb_prop in Hall. destruct Hall as [Hnb Hres]. split.
    + intros ->. discriminate Hnb.
    + intros p r Hr.
      destruct (resolve_weak_type_ok_args _ _ _ Hr) as [_ Hp].
      rewrite forallb_forall in Hres. specialize (Hres p Hp).
      rewrite Hr in Hres. apply mem_In in Hres. exact Hres.
Qed.

Lemma weak_resolves_up c p r :
  c = "int" \/ c = "float" ->
  _resolve_weak_type c p = Ok r -> In r (closure_of c).
Proof.
  intros Hc Hr. destruct (resolve_weak_type_ok_args _ _ _ Hr) as [_ Hp].
  pose proof weak_resolve_check_ok as Hk. unfold weak_resolve_check in Hk.
  rewrite forallb_forall in Hk.
  assert (Hin : In c ["int"; "float"])
    by (destruct Hc as [-> | ->]; cbn; tauto).
  specialize (Hk c Hin). rewrite forallb_forall in Hk.
  specialize (Hk p Hp). rewrite Hr in Hk. apply mem_In in Hk. exact Hk.
Qed.

Lemma below_complex nd :
  nd <> "complex" -> In "complex" (closure_of nd) ->
  In "float" (closure_of nd).
Proof.
  intros Hne Hin. destruct (closure_known _ _ Hin) as [Hk _].
  destruct (known_entry nd Hk) as [ub [Hentry E]]. rewrite E in Hin |- *.
  pose proof complex_check_ok as Hc. unfold complex_check in Hc.
  apply andb_prop in Hc. destruct Hc as [Hc _].
  rewrite forallb_forall in Hc. specialize (Hc _ Hentry).
  cbn [fst snd] in Hc.
  apply orb_prop in Hc. destruct Hc as [Hc | Hc].
  - apply orb_prop in Hc. destruct Hc as [Hc | Hc].
    + apply String.eqb_eq in Hc. elim (Hne Hc).
    + apply negb_true_iff in Hc. apply mem_false in Hc. elim (Hc Hin).
  - apply mem_In in Hc. exact Hc.
Qed.

Lemma float_not_above_complex : ~ In "float" (closure_of "complex").
Proof.
  pose proof complex_check_ok as Hc. unfold complex_check in Hc.
  apply andb_prop in Hc. destruct Hc as [_ Hc].
  apply negb_true_iff, mem_false in Hc. exact Hc.
Qed.

(** X13.  The weak category [_respect_weak_type] gives to an integer or
    floating-point dtype has that dtype in its closure.  Resolved by
    [_resolve_weak_type], the weak category of an integer dtype, signed
    or unsigned, gives "int" and the precision, and that of a
    floating-point dtype "float" and the precision. *)
Theorem weak_category_below :
  (forall d,
      In d (INT_TYPES ++ FLOAT_TYPES) ->
      exists w, _respect_weak_type d true = Ok w /\ In d (closure_of w))
  /\ (forall d p,
        In d INT_TYPES -> In p precisions ->
        (w <- _respect_weak_type d true ;; _resolve_weak_type w p)
        = Ok ("int" ++ p)%string)
  /\ (forall d p,
        In d FLOAT_TYPES -> In p precisions ->
        (w <- _respect_weak_type d true ;; _resolve_weak_type w p)
        = Ok ("float" ++ p)%string).
Proof.
  split; [| split].
  - intros d Hd. destruct (weak_node d Hd) as [w [Hw [_ [Hin _]]]].
    exists w. split; assumption.
  - intros d p Hd Hp. cbn in Hd, Hp.
    repeat (destruct Hd as [<- | Hd];
            [repeat (destruct Hp as [<- | Hp]; [reflexivity |]);
             destruct Hp |]).
    destruct Hd.
  - intros d p Hd Hp. cbn in Hd, Hp.
    repeat (destruct Hd as [<- | Hd];
            [repeat (destruct Hp as [<- | Hp]; [reflexivity |]);
             destruct Hp |]).
    destruct Hd.
Qed.

Lemma weak_category_below_witness :
  (w <- _respect_weak_type "uint64" true ;; _resolve_weak_type w "32")
  = Ok "int32".
Proof.
  apply (proj1 (proj2 weak_category_below) "uint64" "32");
    cbn; tauto.
Defined.

(** ** The result is an upper bound of the inputs *)

Lemma mapM_In_l {A B : Type} (f : A -> result B) l :
  forall bs,
    mapM f l = Ok bs ->
    forall a, In a l -> exists b, f a = Ok b /\ In b bs.
Proof.
  induction l as [| x l IH]; intros bs; cbn [mapM].
  - intros _ a [].
  - destruct (f x) as [b0 | e] eqn:Ex; cbn [bind];
      [| intros H; discriminate H].
    destruct (mapM f l) as [bs0 | e]; cbn [bind];
      [| intros H; discriminate H].
    intros H. injection H as <-. intros a [<- | Ha].
    + exists b0. split; [exact Ex | left; reflexivity].
    + destruct (IH bs0 eq_refl a Ha) as [b [Hb Hin]].
      exists b. split; [exact Hb | right; exact Hin].
Qed.

Lemma mapM_In_r {A B : Type} (f : A -> result B) l :
  forall bs,
    mapM f l = Ok bs ->
    forall b, In b bs -> exists a, In a l /\ f a = Ok b.
Proof.
  induction l as [| x l IH]; intros bs; cbn [mapM].
  - intros H. injection H as <-. intros b [].
  - destruct (f x) as [b0 | e] eqn:Ex; cbn [bind];
      [| intros H; discriminate H].
    destruct (mapM f l) as [bs0 | e]; cbn [bind];
      [| intros H; discriminate H].
    intros H. injection H as <-. intros b [<- | Hb].
    + exists x. split; [left; reflexivity | exact Ex].
    + destruct (IH bs0 eq_refl b Hb) as [a [Ha Hfa]].
      exists a. split; [right; exact Ha | exact Hfa].
Qed.

Lemma allowed_known d : In d ALLOWED_DTYPES -> known d.
Proof. apply allowed_has_key. Qed.

Lemma allowed_not_complex d : In d ALLOWED_DTYPES -> d <> "complex".
Proof.
  intros H ->. apply (allowed_not_weak "complex" H). cbn. tauto.
Qed.

Section UpperBound.

Variable floatx : string.
Variables python_int python_float : string.
Hypothesis python_int_integer : In python_int INT_TYPES.
Hypothesis python_float_floating : In python_float FLOAT_TYPES.

(** A classified input: an allowed dtype, integer or floating-point when
    the input is weak. *)
Let classified (dw : string * bool) : Prop :=
  In (fst dw) ALLOWED_DTYPES
  /\ (snd dw = true -> In (fst dw) (INT_TYPES ++ FLOAT_TYPES)).

Lemma classify_classified v dw :
  _dtype_and_weaktype floatx python_int python_float v = Ok dw ->
  classified dw.
Proof.
  unfold _dtype_and_weaktype, standardize_dtype. cbv zeta.
  match goal with |- context [PySet.mem ?x ALLOWED_DTYPES] =>
    destruct (PySet.mem x ALLOWED_DTYPES) eqn:E
  end; cbn [bind]; intros H; [| discriminate H].
  injection H as <-. split; cbn [fst snd].
  - apply mem_In, E.
  - destruct v; cbn [is_python_scalar_type]; intros Hw;
      try discriminate Hw; apply in_or_app; [left | right]; assumption.
Qed.

(** The node of a classified pair. *)
Lemma classified_node d w :
  classified (d, w) ->
  exists node,
    _respect_weak_type d w = Ok node
    /\ known node /\ node <> "complex"
    /\ (w = false -> node = d)
    /\ (w = true ->
        In d (closure_of node)
        /\ forall c,
             In c (closure_of d) ->
             c <> "bool"
             /\ forall p r,
                  _resolve_weak_type c p = Ok r -> In r (closure_of node)).
Proof.
  intros [Hd Hw]. cbn [fst snd] in Hd, Hw. destruct w.
  - destruct (weak_node d (Hw eq_refl)) as [node [Hn [Hnode [Hin Hres]]]].
    exists node. split; [exact Hn |]. split; [| split; [| split]].
    + apply (closure_known node d Hin).
    + destruct Hnode as [-> | ->]; intros E; discriminate E.
    + intros E. discriminate E.
    + intros _. split; [exact Hin | exact Hres].
  - exists d. split; [reflexivity |]. split; [| split; [| split]].
    + apply allowed_known, Hd.
    + apply allowed_not_complex, Hd.
    + reflexivity.
    + intros E. discriminate E.
Qed.

Lemma promote_pairs_upper_bound pairs r :
  (forall dw, In dw pairs -> classified dw) ->
  promote_pairs floatx pairs = Ok r ->
  forall d w,
    In (d, w) pairs ->
    exists node, _respect_weak_type d w = Ok node /\ In r (closure_of node).
Proof.
  intros Hcl. destruct pairs as [| [d0 w0] rest];
    [intros _ d w [] |].
  unfold promote_pairs. cbv zeta.
  set (P := (d0, w0) :: rest) in *.
  assert (H0 : In (d0, w0) P) by (left; reflexivity).
  destruct (Nat.eqb (List.length (map fst P)) 1) eqn:E1.
  { (* a single input *)
    apply Nat.eqb_eq in E1. rewrite length_map in E1. subst P.
    destruct rest as [| p rest]; [| discriminate E1].
    cbn [bind fst snd]. intros Hr d w [E | []]. injection E as <- <-.
    destruct (classified_node d0 w0 (Hcl _ H0))
      as [node [Hn [Hk [_ [Hstrong Hweak]]]]].
    exists node. split; [exact Hn |].
    destruct w0.
    - destruct (Hweak eq_refl) as [Hin Hres].
      assert (Hself : In d0 (closure_of d0)).
      { apply closure_refl. apply (closure_known node d0 Hin). }
      destruct (Hres d0 Hself) as [Hnb Hresolve].
      apply String.eqb_neq in Hnb. rewrite Hnb in Hr. cbn [negb andb] in Hr.
      apply (Hresolve _ _ Hr).
    - rewrite andb_false_r in Hr. injection Hr as <-.
      rewrite (Hstrong eq_refl). apply closure_refl.
      rewrite <- (Hstrong eq_refl). exact Hk. }
  destruct (Nat.eqb (List.length (PySet.of_list (map fst P))) 1
            && negb (all (map snd P))) eqn:E2.
  { (* the trivial promotion *)
    apply andb_prop in E2. destruct E2 as [E2 _]. apply Nat.eqb_eq in E2.
    cbn [bind fst snd]. rewrite andb_false_r.
    intros Hr. injection Hr as <-. intros d w Hdw.
    assert (Hd : d = d0).
    { apply (of_list_single (map fst P)); [exact E2 | | left; reflexivity].
      change d with (fst (d, w)). apply in_map, Hdw. }
    subst d.
    destruct (classified_node d0 w (Hcl _ Hdw))
      as [node [Hn [Hk [_ [Hstrong Hweak]]]]].
    exists node. split; [exact Hn |].
    destruct w.
    - exact (proj1 (Hweak eq_refl)).
    - rewrite (Hstrong eq_refl). apply closure_refl.
      rewrite <- (Hstrong eq_refl). exact Hk. }
  destruct (all (map snd P)) eqn:E3.
  - (* every input weak *)
    rewrite mapM_respect_strong. cbn [bind].
    destruct (_least_upper_bound (PySet.of_list (map fst P)))
      as [c | e] eqn:El; cbn [bind fst snd]; [| intros H; discriminate H].
    rewrite andb_true_r.
    apply least_upper_bound_ok_candidate in El. destruct El as [Hcub _].
    assert (Hweak_all : forall d w, In (d, w) P -> w = true).
    { intros d w Hdw. unfold all in E3. rewrite forallb_forall in E3.
      apply E3. change w with (snd (d, w)). apply in_map, Hdw. }
    assert (Habove : forall d w, In (d, w) P -> In c (closure_of d)).
    { intros d w Hdw. apply Hcub, of_list_In.
      change d with (fst (d, w)). apply in_map, Hdw. }
    assert (Hnb : String.eqb c "bool" = false).
    { pose proof (Hweak_all _ _ H0) as ->.
      destruct (classified_node d0 true (Hcl _ H0))
        as [node [_ [_ [_ [_ Hweak]]]]].
      destruct (Hweak eq_refl) as [_ Hres].
      destruct (Hres c (Habove _ _ H0)) as [Hne _].
      apply String.eqb_neq, Hne. }
    rewrite Hnb. cbn [negb]. intros Hr d w Hdw.
    pose proof (Hweak_all _ _ Hdw) as ->.
    destruct (classified_node d true (Hcl _ Hdw))
      as [node [Hn [_ [_ [_ Hweak]]]]].
    exists node. split; [exact Hn |].
    destruct (Hweak eq_refl) as [_ Hres].
    apply (proj2 (Hres c (Habove _ _ Hdw)) _ _ Hr).
  - (* weak and strong inputs *)
    destruct (mapM (fun dw => _respect_weak_type (fst dw) (snd dw)) P)
      as [nodes | e] eqn:En; cbn [bind]; [| intros H; discriminate H].
    destruct (_least_upper_bound (PySet.of_list nodes))
      as [c | e] eqn:El; cbn [bind fst snd]; [| intros H; discriminate H].
    apply least_upper_bound_ok_candidate in El. destruct El as [Hcub Hmin].
    intros Hr d w Hdw.
    destruct (mapM_In_l _ _ _ En (d, w) Hdw) as [node [Hn Hin]].
    cbn [fst snd] in Hn. exists node. split; [exact Hn |].
    assert (Hc : In c (closure_of node)) by (apply Hcub, of_list_In, Hin).
    destruct (negb (String.eqb c "bool")
              && any (map (String.eqb c) WEAK_TYPES)) eqn:Ew.
    + apply andb_prop in Ew. destruct Ew as [_ Ew].
      unfold any in Ew. apply existsb_exists in Ew.
      destruct Ew as [b [Hb ->]]. apply in_map_iff in Hb.
      destruct Hb as [t [Ht Hweak]]. apply String.eqb_eq in Ht. subst t.
      cbn in Hweak. destruct Hweak as [<- | [<- | [<- | []]]].
      * apply (closure_trans node "int" r Hc).
        apply (weak_resolves_up "int" _ _ (or_introl eq_refl) Hr).
      * apply (closure_trans node "float" r Hc).
        apply (weak_resolves_up "float" _ _ (or_intror eq_refl) Hr).
      * exfalso. apply float_not_above_complex. apply Hmin.
        intros nd Hnd.
        pose proof (proj1 (of_list_In nodes nd) Hnd) as Hnd0.
        destruct (mapM_In_r _ _ _ En nd Hnd0) as [[d' w'] [Hin' Hnd']].
        cbn [fst snd] in Hnd'.
        destruct (classified_node d' w' (Hcl _ Hin'))
          as [node' [Hn' [_ [Hne _]]]].
        rewrite Hn' in Hnd'. injection Hnd' as <-.
        apply (below_complex node' Hne).
        exact (Hcub node' Hnd).
    + injection Hr as <-. exact Hc.
Qed.

End UpperBound.

(** X14.  With Python [int] standardized to an integer name and [float]
    to a floating-point name, what [_lattice_result_type] returns is an
    upper bound of its inputs in the lattice: it is in the closure of
    the node of every input, the node being the input's dtype or, for a
    weak input, the weak category of its dtype. *)
Theorem result_type_upper_bound :
  forall floatx python_int python_float args r,
    In python_int INT_TYPES ->
    In python_float FLOAT_TYPES ->
    _lattice_result_type floatx python_int python_float args = Ok r ->
    forall a,
      In a args ->
      exists node,
        node_of floatx python_int python_float a = Ok node
        /\ In r (closure_of node).
Proof.
  intros floatx python_int python_float args r Hint Hfloat.
  unfold _lattice_result_type.
  destruct (mapM (_dtype_and_weaktype floatx python_int python_float) args)
    as [pairs | e] eqn:Em; cbn [bind]; [| intros H; discriminate H].
  intros Hr a Ha.
  destruct (mapM_In_l _ _ _ Em a Ha) as [[d w] [Hdw Hin]].
  unfold node_of. rewrite Hdw. cbn [bind fst snd].
  apply (promote_pairs_upper_bound floatx pairs r);
    [| exact Hr | exact Hin].
  intros dw Hdw'. destruct (mapM_In_r _ _ _ Em dw Hdw') as [v [_ Hv]].
  apply (classify_classified floatx python_int python_float Hint Hfloat v dw Hv).
Qed.

Lemma result_type_upper_bound_witness :
  exists node,
    node_of "float32" "int32" "float32" PyInt = Ok node
    /\ In "float32" (closure_of node).
Proof.
  apply (result_type_upper_bound "float32" "int32" "float32"
           [Named "uint64"; PyInt; Named "int8"] "float32").
  - cbn. tauto.
  - cbn. tauto.
  - vm_compute. reflexivity.
  - cbn. tauto.
Defined.

Lemma mapM_all_ok {A B : Type} (f : A -> result B) l :
  (forall a, In a l -> exists b, f a = Ok b) ->
  exists bs, mapM f l = Ok bs.
Proof.
  induction l as [| x l IH]; intros H; cbn [mapM].
  - exists []. reflexivity.
  - destruct (H x (or_introl eq_refl)) as [b Hb]. rewrite Hb. cbn [bind].
    destruct IH as [bs Hbs]; [intros a Ha; apply H; right; exact Ha |].
    rewrite Hbs. cbn [bind]. exists (b :: bs). reflexivity.
Qed.

Lemma not_weak_any d :
  ~ In d WEAK_TYPES -> any (map (String.eqb d) WEAK_TYPES) = false.
Proof.
  intros H. unfold any.
  destruct (existsb (fun b : bool => b) (map (String.eqb d) WEAK_TYPES))
    eqn:E; [| reflexivity].
  exfalso. apply existsb_exists in E. destruct E as [b [Hb ->]].
  apply in_map_iff in Hb. destruct Hb as [t [Ht Hin]].
  apply String.eqb_eq in Ht. subst t. exact (H Hin).
Qed.

Lemma lattice_result_type_absorbs floatx python_int python_float args r :
  In python_int INT_TYPES ->
  In python_float FLOAT_TYPES ->
  _lattice_result_type floatx python_int python_float args = Ok r ->
  _lattice_result_type floatx python_int python_float (Named r :: args)
  = Ok r.
Proof.
  intros Hint Hfloat Hr.
  pose proof (lattice_result_type_concrete _ _ _ _ _ Hr) as Hallowed.
  unfold _lattice_result_type in Hr |- *. cbn [mapM].
  assert (Hcls : _dtype_and_weaktype floatx python_int python_float (Named r)
                 = Ok (r, false)).
  { unfold _dtype_and_weaktype, standardize_dtype. cbv zeta.
    apply mem_In in Hallowed. rewrite Hallowed. reflexivity. }
  rewrite Hcls. cbn [bind].
  destruct (mapM (_dtype_and_weaktype floatx python_int python_float) args)
    as [pairs | e] eqn:Em; cbn [bind] in Hr |- *; [| discriminate Hr].
  assert (Hcl : forall dw, In dw pairs ->
                  In (fst dw) ALLOWED_DTYPES
                  /\ (snd dw = true -> In (fst dw) (INT_TYPES ++ FLOAT_TYPES))).
  { intros dw Hdw. destruct (mapM_In_r _ _ _ Em dw Hdw) as [v [_ Hv]].
    apply (classify_classified floatx python_int python_float
             Hint Hfloat v dw Hv). }
  pose proof (promote_pairs_upper_bound floatx pairs r Hcl Hr) as Hub.
  destruct pairs as [| p0 pairs0] eqn:Ep; [discriminate Hr |].
  rewrite <- Ep in *. clear Hr.
  unfold promote_pairs. cbv zeta.
  set (P := (r, false) :: pairs).
  assert (E1 : Nat.eqb (List.length (map fst P)) 1 = false).
  { unfold P. rewrite Ep. reflexivity. }
  rewrite E1.
  assert (E3 : all (map snd P) = false) by reflexivity.
  rewrite E3. cbn [negb]. rewrite andb_true_r.
  assert (Hfinish : negb (String.eqb r "bool") && false = false)
    by apply andb_false_r.
  destruct (Nat.eqb (List.length (PySet.of_list (map fst P))) 1).
  { cbn [bind fst snd]. rewrite Hfinish. reflexivity. }
  destruct (mapM_all_ok (fun dw => _respect_weak_type (fst dw) (snd dw)) pairs)
    as [nodes Hnodes].
  { intros [d w] Hdw. destruct (Hub d w Hdw) as [node [Hn _]].
    exists node. exact Hn. }
  unfold P. cbn [mapM fst snd _respect_weak_type]. cbn [bind].
  rewrite Hnodes. cbn [bind].
  rewrite (least_upper_bound_absorbs (PySet.of_list (r :: nodes)) r).
  - cbn [bind fst snd].
    rewrite (not_weak_any r (allowed_not_weak r Hallowed)).
    rewrite Hfinish. reflexivity.
  - apply of_list_In. left. reflexivity.
  - intros m Hm. apply (proj1 (of_list_In _ _)) in Hm.
    destruct Hm as [<- | Hm].
    + apply closure_refl, allowed_known, Hallowed.
    + destruct (mapM_In_r _ _ _ Hnodes m Hm) as [[d w] [Hdw Hn]].
      cbn [fst snd] in Hn.
      destruct (Hub d w Hdw) as [node [Hn' Hin]].
      rewrite Hn in Hn'. injection Hn' as <-. exact Hin.
Qed.

(** X15.  With Python [int] standardized to an integer name and [float]
    to a floating-point name, the result of [result_type] on some inputs
    absorbs them: asked again with its own result put before the same
    inputs, or with its result alone, [result_type] returns that result. *)
Theorem result_type_absorbs :
  forall floatx python_int python_float xs r,
    In python_int INT_TYPES ->
    In python_float FLOAT_TYPES ->
    xs <> [] ->
    result_type floatx python_int python_float xs = Ok r ->
    result_type floatx python_int python_float (Named r :: xs) = Ok r
    /\ result_type floatx python_int python_float [Named r] = Ok r.
Proof.
  intros floatx python_int python_float xs r Hint Hfloat Hne.
  unfold result_type.
  destruct xs as [| x xs]; [elim Hne; reflexivity |].
  cbn [List.length Nat.eqb]. intros Hr. split.
  - cbn [map] in Hr |- *.
    apply (lattice_result_type_absorbs _ _ _ _ _ Hint Hfloat Hr).
  - pose proof (lattice_result_type_concrete _ _ _ _ _ Hr) as Hallowed.
    cbn [map]. unfold _lattice_result_type. cbn [mapM].
    unfold _dtype_and_weaktype, standardize_dtype. cbv zeta.
    apply mem_In in Hallowed. rewrite Hallowed. cbn [bind].
    cbn [promote_pairs map fst snd List.length Nat.eqb bind].
    rewrite andb_false_r. reflexivity.
Qed.

Lemma result_type_absorbs_witness :
  result_type "float64" "int32" "float32"
    [Named "float64"; Named "uint64"; PyInt; Named "int64"] = Ok "float64".
Proof.
  apply (result_type_absorbs "float64" "int32" "float32"
           [Named "uint64"; PyInt; Named "int64"] "float64").
  - cbn. tauto.
  - cbn. tauto.
  - intros E. discriminate E.
  - vm_compute. reflexivity.
Defined.

(** ** Repeated inputs *)

Lemma mapM_same_members {A B : Type} (f : A -> result B) l l' :
  (forall x, In x l <-> In x l') ->
  members_related f (mapM f l) (mapM f l').
Proof.
  intros Hsame. unfold members_related.
  destruct (mapM f l) as [bs | e] eqn:El;
    destruct (mapM f l') as [bs' | e'] eqn:El'.
  - intros b. split; intros Hb.
    + destruct (mapM_In_r _ _ _ El b Hb) as [a [Ha Hfa]].
      destruct (mapM_In_l _ _ _ El' a (proj1 (Hsame a) Ha)) as [b' [Hb' Hin]].
      rewrite Hfa in Hb'. injection Hb' as <-. exact Hin.
    + destruct (mapM_In_r _ _ _ El' b Hb) as [a [Ha Hfa]].
      destruct (mapM_In_l _ _ _ El a (proj2 (Hsame a) Ha)) as [b' [Hb' Hin]].
      rewrite Hfa in Hb'. injection Hb' as <-. exact Hin.
  - destruct (mapM_all_ok f l') as [bs' Hbs'].
    + intros a Ha. destruct (mapM_In_l _ _ _ El a (proj2 (Hsame a) Ha))
        as [b [Hb _]]. exists b. exact Hb.
    + rewrite Hbs' in El'. discriminate El'.
  - destruct (mapM_all_ok f l) as [bs Hbs].
    + intros a Ha. destruct (mapM_In_l _ _ _ El' a (proj1 (Hsame a) Ha))
        as [b [Hb _]]. exists b. exact Hb.
    + rewrite Hbs in El. discriminate El.
  - split; [apply (mapM_error_source f l), El
           | apply (mapM_error_source f l'), El'].
Qed.

Lemma forallb_same_members {A : Type} (p : A -> bool) l l' :
  (forall x, In x l <-> In x l') -> forallb p l = forallb p l'.
Proof.
  intros Hsame. apply eq_true_iff_eq. rewrite !forallb_forall. split.
  - intros H x Hx. apply H, Hsame, Hx.
  - intros H x Hx. apply H, Hsame, Hx.
Qed.

Lemma map_same_members {A B : Type} (f : A -> B) l l' :
  (forall x, In x l <-> In x l') ->
  forall y, In y (map f l) <-> In y (map f l').
Proof.
  intros Hsame y. rewrite !in_map_iff. split.
  - intros [x [Hx Hin]]. exists x. split; [exact Hx | apply Hsame, Hin].
  - intros [x [Hx Hin]]. exists x. split; [exact Hx | apply Hsame, Hin].
Qed.

Lemma of_list_same_members l l' :
  (forall x, In x l <-> In x l') ->
  forall x, In x (PySet.of_list l) <-> In x (PySet.of_list l').
Proof. intros Hsame x. rewrite !of_list_In. apply Hsame. Qed.

(** The branch for a single input gives what the other branches give. *)
Lemma promote_pairs_is_general floatx pairs :
  (forall dw, In dw pairs -> In (fst dw) ALLOWED_DTYPES) ->
  promote_pairs floatx pairs = promote_pairs_general floatx pairs.
Proof.
  intros Hallowed. destruct pairs as [| [d0 w0] rest]; [reflexivity |].
  unfold promote_pairs, promote_pairs_general. cbv zeta.
  destruct (Nat.eqb (List.length (map fst ((d0, w0) :: rest))) 1) eqn:E1;
    [| reflexivity].
  apply Nat.eqb_eq in E1. rewrite length_map in E1.
  destruct rest as [| p rest]; [| discriminate E1].
  cbn [map fst snd]. change (PySet.of_list [d0]) with [d0].
  cbn [List.length Nat.eqb andb]. unfold all. cbn [forallb].
  rewrite andb_true_r. destruct w0; cbn [negb]; [| reflexivity].
  cbn [mapM _respect_weak_type bind].
  change (PySet.of_list [d0]) with [d0].
  rewrite least_upper_bound_singleton; [reflexivity |].
  change (In d0 (ALLOWED_DTYPES ++ WEAK_TYPES)). apply in_or_app. left.
  apply (Hallowed (d0, true)). left. reflexivity.
Qed.

Lemma promote_pairs_general_same_members floatx pairs pairs' :
  (forall x, In x pairs <-> In x pairs') ->
  same_outcome (promote_pairs_general floatx pairs)
    (promote_pairs_general floatx pairs').
Proof.
  intros Hsame.
  destruct pairs as [| [d0 w0] rest].
  { destruct pairs' as [| p' rest']; [exact I |].
    elim (proj2 (Hsame p') (or_introl eq_refl)). }
  destruct pairs' as [| [d0' w0'] rest'].
  { elim (proj1 (Hsame (d0, w0)) (or_introl eq_refl)). }
  unfold promote_pairs_general. cbv zeta.
  set (P := (d0, w0) :: rest) in *. set (P' := (d0', w0') :: rest') in *.
  pose proof (map_same_members fst P P' Hsame) as Hd.
  pose proof (map_same_members snd P P' Hsame) as Hw.
  rewrite <- (same_elements_length _ _ (of_list_NoDup (map fst P))
                (of_list_NoDup (map fst P'))
                (of_list_same_members _ _ Hd)).
  assert (Hall : all (map snd P) = all (map snd P'))
    by apply (forallb_same_members _ _ _ Hw).
  rewrite <- Hall.
  destruct (Nat.eqb (List.length (PySet.of_list (map fst P))) 1
            && negb (all (map snd P))) eqn:E2.
  - apply andb_prop in E2. destruct E2 as [E2 _]. apply Nat.eqb_eq in E2.
    assert (Heq : d0 = d0').
    { apply (of_list_single (map fst P)); [exact E2 | left; reflexivity |].
      apply Hd. left. reflexivity. }
    subst d0'. apply same_outcome_refl.
  - apply same_outcome_bind.
    destruct (all (map snd P)) eqn:E3.
    + rewrite !mapM_respect_strong. cbn [bind].
      apply same_outcome_bind, least_upper_bound_same_members.
      apply of_list_same_members, Hd.
    + pose proof (mapM_same_members
                    (fun dw => _respect_weak_type (fst dw) (snd dw))
                    P P' Hsame) as Hn.
      unfold members_related in Hn.
      destruct (mapM (fun dw => _respect_weak_type (fst dw) (snd dw)) P)
        as [nodes | e];
        destruct (mapM (fun dw => _respect_weak_type (fst dw) (snd dw)) P')
        as [nodes' | e']; try contradiction; cbn [bind].
      * apply same_outcome_bind, least_upper_bound_same_members.
        apply of_list_same_members, Hn.
      * destruct Hn as [[a Ha] [a' Ha']].
        apply respect_weak_type_error in Ha, Ha'. subst. exact I.
Qed.

(** X16.  [result_type] depends on the set of its inputs only: two lists
    of inputs with the same members, whatever their order and however
    often an input is repeated, give the same dtype or exceptions of the
    same kind.  A single input in particular gives what any number of
    copies of it gives. *)
Theorem result_type_set :
  forall floatx python_int python_float args args',
    (forall x, In x args <-> In x args') ->
    same_outcome (result_type floatx python_int python_float args)
      (result_type floatx python_int python_float args').
Proof.
  intros floatx python_int python_float args args' Hsame.
  unfold result_type.
  destruct args as [| a args].
  { destruct args' as [| a' args']; [reflexivity |].
    elim (proj2 (Hsame a') (or_introl eq_refl)). }
  destruct args' as [| a' args'].
  { elim (proj1 (Hsame a) (or_introl eq_refl)). }
  cbn [List.length Nat.eqb].
  set (subst := fun arg => match arg with
                           | PyNone => Named floatx
                           | _ => arg
                           end).
  pose proof (map_same_members subst _ _ Hsame) as Hsub.
  unfold _lattice_result_type.
  pose proof (mapM_same_members
                (_dtype_and_weaktype floatx python_int python_float)
                _ _ Hsub) as Hm.
  unfold members_related in Hm.
  destruct (mapM (_dtype_and_weaktype floatx python_int python_float)
              (map subst (a :: args))) as [pairs | e] eqn:Em;
    destruct (mapM (_dtype_and_weaktype floatx python_int python_float)
                (map subst (a' :: args'))) as [pairs' | e'] eqn:Em';
    try contradiction; cbn [bind].
  - rewrite !promote_pairs_is_general.
    + apply promote_pairs_general_same_members, Hm.
    + intros dw Hdw. destruct (mapM_In_r _ _ _ Em' dw Hdw) as [v [_ Hv]].
      destruct dw as [d w].
      apply (dtype_and_weaktype_ok floatx python_int python_float v d w Hv).
    + intros dw Hdw. destruct (mapM_In_r _ _ _ Em dw Hdw) as [v [_ Hv]].
      destruct dw as [d w].
      apply (dtype_and_weaktype_ok floatx python_int python_float v d w Hv).
  - destruct Hm as [[v Hv] [v' Hv']].
    apply dtype_and_weaktype_error in Hv, Hv'.
    destruct Hv as [d ->], Hv' as [d' ->]. exact I.
Qed.

Lemma result_type_set_witness :
  same_outcome
    (result_type "float16" "int64" "float32" [PyInt])
    (result_type "float16" "int64" "float32" [PyInt; PyInt; PyInt]).
Proof.
  apply result_type_set. intros x. cbn. tauto.
Defined.

(** ** Strong inputs *)

Lemma of_list_NoDup_id l : NoDup l -> PySet.of_list l = l.
Proof.
  unfold PySet.of_list.
  assert (H : forall s, NoDup (s ++ l) ->
                        fold_left (fun s x => PySet.add x s) l s = s ++ l).
  { induction l as [| x l IH]; intros s Hnd; cbn [fold_left].
    - rewrite app_nil_r. reflexivity.
    - assert (Hx : PySet.mem x s = false).
      { apply mem_false. intros Hin. apply NoDup_remove_2 in Hnd.
        apply Hnd, in_or_app. left. exact Hin. }
      unfold PySet.add. rewrite Hx.
      rewrite IH; rewrite <- app_assoc; [reflexivity | exact Hnd]. }
  intros Hnd. apply (H [] Hnd).
Qed.

Lemma below_weak_int d :
  In d ALLOWED_DTYPES -> In "int" (closure_of d) -> d = "bool".
Proof.
  intros Hd Hin. apply mem_In in Hin. revert Hin. cbn in Hd.
  repeat (destruct Hd as [<- | Hd];
          [first [ intros _; reflexivity
                 | intros Hin; vm_compute in Hin; discriminate Hin ] |]).
  destruct Hd.
Qed.

(** X17.  On dtypes given by name, none of them weak, [result_type] is
    the least upper bound of the names in the lattice.  The bound is a
    concrete name and is returned as it is, except that it can be the
    weak float category, which is then resolved at the precision of the
    ambient default float dtype; it is never one of the other two weak
    categories. *)
Theorem result_type_strong :
  forall floatx python_int python_float ds,
    ds <> [] ->
    (forall d, In d ds -> In d ALLOWED_DTYPES) ->
    exists c,
      _least_upper_bound ds = Ok c
      /\ c <> "int" /\ c <> "complex"
      /\ result_type floatx python_int python_float (map Named ds)
         = if String.eqb c "float"
           then _resolve_weak_type "float" (PyStr.last2 floatx)
           else Ok c.
Proof.
  intros floatx python_int python_float ds Hne Hallowed.
  assert (Hk : forall n, In n ds -> known n)
    by (intros n Hn; apply allowed_known, Hallowed, Hn).
  destruct (candidate_exists ds Hne Hk) as [c Hc].
  pose proof (least_upper_bound_of_candidate ds c Hne Hk Hc) as Hlub.
  assert (Hint : c <> "int").
  { intros ->. destruct Hc as [Hcub _].
    assert (Hall : forall d, In d ds -> d = "bool")
      by (intros d Hd; apply below_weak_int; [apply Hallowed, Hd | apply Hcub, Hd]).
    destruct ds as [| d0 ds0]; [elim Hne; reflexivity |].
    assert (Hb : _least_upper_bound (d0 :: ds0) = Ok "bool").
    { apply least_upper_bound_absorbs.
      - rewrite <- (Hall d0 (or_introl eq_refl)). left. reflexivity.
      - intros m Hm. rewrite (Hall m Hm). apply closure_refl.
        vm_compute. reflexivity. }
    rewrite Hb in Hlub. discriminate Hlub. }
  assert (Hcomplex : c <> "complex").
  { intros ->. destruct Hc as [Hcub Hmin].
    apply float_not_above_complex, Hmin. intros n Hn.
    apply below_complex; [apply allowed_not_complex, Hallowed, Hn |].
    apply Hcub, Hn. }
  exists c. split; [exact Hlub |]. split; [exact Hint |].
  split; [exact Hcomplex |].
  (* the pairs of the inputs *)
  assert (Hpairs : mapM (_dtype_and_weaktype floatx python_int python_float)
                     (map Named ds) = Ok (map (fun d : string => (d, false)) ds)).
  { clear - Hallowed. induction ds as [| d ds IH]; [reflexivity |].
    cbn [map mapM]. unfold _dtype_and_weaktype at 1, standardize_dtype.
    cbv zeta. rewrite (proj2 (mem_In d ALLOWED_DTYPES)
                         (Hallowed d (or_introl eq_refl))).
    cbn [bind is_python_scalar_type].
    rewrite IH by (intros x Hx; apply Hallowed; right; exact Hx).
    reflexivity. }
  assert (Hnodes : mapM (fun dw : string * bool =>
                           _respect_weak_type (fst dw) (snd dw))
                     (map (fun d : string => (d, false)) ds) = Ok ds).
  { clear. induction ds as [| d ds IH]; [reflexivity |].
    cbn [map mapM fst snd _respect_weak_type bind].
    rewrite IH. reflexivity. }
  assert (Hfst : map fst (map (fun d : string => (d, false)) ds) = ds)
    by (rewrite map_map; apply map_id).
  assert (Hset : _least_upper_bound (PySet.of_list ds) = Ok c).
  { apply least_upper_bound_of_candidate.
    - apply of_list_nonempty, Hne.
    - intros n Hn. apply Hk, (proj1 (of_list_In ds n)), Hn.
    - apply (is_candidate_same_members ds); [| exact Hc].
      intros x. symmetry. apply of_list_In. }
  assert (Hgeneral : promote_pairs floatx (map (fun d : string => (d, false)) ds)
                     = promote_pairs_general floatx (map (fun d : string => (d, false)) ds)).
  { apply promote_pairs_is_general. intros dw Hdw.
    apply in_map_iff in Hdw. destruct Hdw as [d [<- Hd]].
    apply Hallowed, Hd. }
  destruct ds as [| d0 ds0]; [elim Hne; reflexivity |].
  set (ds := d0 :: ds0) in *.
  unfold result_type. cbn [map List.length Nat.eqb].
  change (Named d0 :: map Named ds0) with (map Named ds).
  rewrite map_map.
  replace (map (fun x => match Named x with
                         | PyNone => Named floatx
                         | _ => Named x
                         end) ds) with (map Named ds)
    by (apply map_ext; reflexivity).
  unfold _lattice_result_type. rewrite Hpairs. cbn [bind].
  rewrite Hgeneral.
  change (map (fun d : string => (d, false)) ds) with ((d0, false) :: map (fun d : string => (d, false)) ds0).
  unfold promote_pairs_general. cbv zeta.
  change ((d0, false) :: map (fun d : string => (d, false)) ds0) with (map (fun d : string => (d, false)) ds).
  rewrite Hfst, Hnodes.
  assert (Hw : all (map snd (map (fun d : string => (d, false)) ds)) = false) by reflexivity.
  rewrite Hw. cbn [negb]. rewrite andb_true_r.
  destruct (Nat.eqb (List.length (PySet.of_list ds)) 1) eqn:E1.
  - (* one dtype, given once or more *)
    apply Nat.eqb_eq in E1.
    assert (Hd0 : _least_upper_bound ds = Ok d0).
    { apply least_upper_bound_absorbs.
      - left. reflexivity.
      - intros m Hm.
        rewrite (of_list_single ds m d0 E1 Hm (or_introl eq_refl)).
        apply closure_refl. exact (Hk d0 (or_introl eq_refl)). }
    rewrite Hlub in Hd0. injection Hd0 as <-.
    cbn [bind fst snd]. rewrite andb_false_r.
    destruct (String.eqb c "float") eqn:Ef; [| reflexivity].
    apply String.eqb_eq in Ef. subst c.
    elim (allowed_not_weak "float" (Hallowed "float" (or_introl eq_refl))).
    cbn. tauto.
  - cbn [bind]. rewrite Hset. cbn [bind fst snd].
    destruct (String.eqb c "float") eqn:Ef.
    + apply String.eqb_eq in Ef. subst c. reflexivity.
    + rewrite not_weak_any.
      * rewrite andb_false_r. reflexivity.
      * cbn. intros [E | [E | [E | []]]]; subst c;
          [elim Hint | rewrite String.eqb_refl in Ef; discriminate Ef
           | elim Hcomplex]; reflexivity.
Qed.

Lemma result_type_strong_witness :
  exists c,
    _least_upper_bound ["uint64"; "int8"] = Ok c
    /\ c <> "int" /\ c <> "complex"
    /\ result_type "float64" "int32" "float32"
         (map Named ["uint64"; "int8"])
       = if String.eqb c "float"
         then _resolve_weak_type "float" (PyStr.last2 "float64")
         else Ok c.
Proof.
  apply (result_type_strong "float64" "int32" "float32" ["uint64"; "int8"]).
  - intros E. discriminate E.
  - intros d [<- | [<- | []]]; cbn; tauto.
Defined.

(** ** The narrowing tables *)

(** X18.  Every entry of [BIT64_TO_BIT16_DTYPE] and of
    [BIT64_TO_BIT32_DTYPE] narrows within the promotion order: the dtype
    it maps from is in the closure of the dtype it maps to, so that
    [result_type] of the two gives the wider one back.  The 16-bit table
    maps each of its keys to what [_resolve_weak_type] gives at precision
    "16", and the 32-bit table does so at precision "32" for every key
    but "complex128", which it keeps complex. *)
Theorem narrowing_tables :
  forall floatx python_int python_float k v,
    (PyDict.lookup k BIT64_TO_BIT16_DTYPE = Some v ->
     In k (closure_of v)
     /\ result_type floatx python_int python_float [Named k; Named v] = Ok k
     /\ _resolve_weak_type k "16" = Ok v)
    /\ (PyDict.lookup k BIT64_TO_BIT32_DTYPE = Some v ->
        In k (closure_of v)
        /\ result_type floatx python_int python_float [Named k; Named v]
           = Ok k
        /\ (k <> "complex128" -> _resolve_weak_type k "32" = Ok v)
        /\ (k = "complex128" -> v = "complex64")).
Proof.
  intros floatx python_int python_float k v. split.
  - intros H. apply lookup_In in H. vm_compute in H.
    repeat (destruct H as [H | H];
            [injection H as <- <-;
             split; [apply (proj1 (mem_In _ _)); vm_compute; reflexivity |];
             split; vm_compute; reflexivity |]).
    destruct H.
  - intros H. apply lookup_In in H. vm_compute in H.
    repeat (destruct H as [H | H];
            [injection H as <- <-;
             split; [apply (proj1 (mem_In _ _)); vm_compute; reflexivity |];
             split; [vm_compute; reflexivity |];
             split; [first [ intros _; vm_compute; reflexivity
                           | intros Hne; elim Hne; reflexivity ]
                    | first [ intros _; reflexivity
                            | intros E; discriminate E ] ] |]).
    destruct H.
Qed.

Lemma narrowing_tables_witness :
  In "uint64" (closure_of "uint16")
  /\ _resolve_weak_type "float64" "32" = Ok "float32".
Proof.
  split.
  - apply (proj1 (narrowing_tables "float32" "int32" "float32"
                    "uint64" "uint16")).
    reflexivity.
  - apply (proj2 (narrowing_tables "float32" "int32" "float32"
                    "float64" "float32")).
    + reflexivity.
    + intros E. discriminate E.
Defined.

(** ** Failures of the policy resolver *)

(** X19.  An exception of a collaborator leaves [get] only for a dict, from
    the deserializer, or for a string, from the constructor the string
    selects.  For a value that is none of [None], a policy, a dict or a
    string, every failure, of the standardization or of the constructor
    after it, is replaced by the one error that names the value, and that
    error is raised for no other identifier.  A policy that [get] returns
    is returned unchanged when given back to [get]. *)
Theorem get_failures :
  forall (policy config other exc : Type) (dtype_policy : policy)
         (deserialize_keras_object : config -> exc + policy)
         (FloatDTypePolicy QuantizedDTypePolicy : string -> exc + policy)
         (standardize : other -> exc + string)
         (id : DtypePolicies.identifier policy config other),
    let get :=
      @DtypePolicies.get policy config other exc dtype_policy
        deserialize_keras_object FloatDTypePolicy QuantizedDTypePolicy
        standardize in
    (forall e,
        get id = DtypePolicies.Raises e ->
        (exists d, id = DtypePolicies.IdDict d
                   /\ deserialize_keras_object d = inl e)
        \/ (exists s, id = DtypePolicies.IdStr s
                      /\ PyStr.contains "int8" s = true
                      /\ QuantizedDTypePolicy s = inl e)
        \/ (exists s, id = DtypePolicies.IdStr s
                      /\ PyStr.contains "int8" s = false
                      /\ FloatDTypePolicy s = inl e))
    /\ (forall received,
          get id = DtypePolicies.CannotInterpret received ->
          received = id
          /\ exists v,
               id = DtypePolicies.IdOther v
               /\ ((exists e, standardize v = inl e)
                   \/ exists name e,
                        standardize v = inr name
                        /\ FloatDTypePolicy name = inl e))
    /\ (forall p,
          get id = DtypePolicies.Returns p ->
          get (DtypePolicies.IdPolicy p) = DtypePolicies.Returns p).
Proof.
  intros. subst get. split; [| split].
  - intros e. destruct id as [| p | d | s | v]; cbn [DtypePolicies.get].
    + intros H. discriminate H.
    + intros H. discriminate H.
    + destruct (deserialize_keras_object d) as [e' | p] eqn:E;
        cbn [DtypePolicies.call]; intros H; [| discriminate H].
      injection H as <-. left. exists d. split; [reflexivity | exact E].
    + destruct (PyStr.contains "int8" s) eqn:Ec.
      * destruct (QuantizedDTypePolicy s) as [e' | p] eqn:E;
          cbn [DtypePolicies.call]; intros H; [| discriminate H].
        injection H as <-. right. left. exists s. repeat split; assumption.
      * destruct (FloatDTypePolicy s) as [e' | p] eqn:E;
          cbn [DtypePolicies.call]; intros H; [| discriminate H].
        injection H as <-. right. right. exists s. repeat split; assumption.
    + destruct (standardize v) as [e' | name];
        [intros H; discriminate H |].
      destruct (FloatDTypePolicy name); intros H; discriminate H.
  - intros received.
    destruct id as [| p | d | s | v]; cbn [DtypePolicies.get].
    + intros H. discriminate H.
    + intros H. discriminate H.
    + destruct (deserialize_keras_object d); cbn [DtypePolicies.call];
        intros H; discriminate H.
    + destruct (PyStr.contains "int8" s);
        [destruct (QuantizedDTypePolicy s) | destruct (FloatDTypePolicy s)];
        cbn [DtypePolicies.call]; intros H; discriminate H.
    + destruct (standardize v) as [e | name] eqn:Es.
      * intros H. injection H as <-. split; [reflexivity |].
        exists v. split; [reflexivity |]. left. exists e.
        first [exact Es | reflexivity].
      * destruct (FloatDTypePolicy name) as [e | p] eqn:Ef;
          intros H; [| discriminate H].
        injection H as <-. split; [reflexivity |].
        exists v. split; [reflexivity |]. right. exists name, e.
        split; first [assumption | reflexivity].
  - intros p _. reflexivity.
Qed.

Lemma get_failures_witness :
  @DtypePolicies.IdOther string unit nat 7 = DtypePolicies.IdOther 7
  /\ exists v : nat,
       @DtypePolicies.IdOther string unit nat 7 = DtypePolicies.IdOther v
       /\ ((exists e : unit,
              (fun n : nat => if Nat.eqb n 0 then inr "float16" else inl tt) v
              = inl e)
           \/ exists (name : string) (e : unit),
                (fun n : nat => if Nat.eqb n 0 then inr "float16" else inl tt)
                  v = inr name
                /\ (fun s : string => @inr unit string s) name = inl e).
Proof.
  apply (proj1 (proj2 (get_failures string unit nat unit "float32"
                         (fun _ => inl tt) (fun s => inr s)
                         (fun s => inr ("quantized " ++ s)%string)
                         (fun n => if Nat.eqb n 0 then inr "float16"
                                   else inl tt)
                         (DtypePolicies.IdOther 7)))
           (DtypePolicies.IdOther 7)).
  reflexivity.
Defined.
